(** * CallLocalLLaMa2: extraction, repair and materialization of an
      architecture proposal

    A shallow embedding of [execute_llama2.py].  The text functions
    ([extract_json], [fix_json_structure]) give the lines they print and how
    they end, a value or an exception; the functions that read the keyboard
    or touch the disk ([generate_software_files], [save_file_to_output],
    [main]) live in a state-and-exception monad over a world made of the
    console, the keyboard input, the module-level variable
    [architecture_data] and a file system.

    Modelling assumptions, fixed once and for all:
    - a Python [str] is a list of Unicode code points;
    - [json.loads] is CPython's decoder with its default hooks; besides
      [JSONDecodeError] it raises [ValueError] at an integer literal with
      more digits than [int] converts and [RecursionError] at an array or
      an object nested deeper than the stack allows, and both limits are
      parameters of the interpreter;
    - a float is kept as the literal it was read from;
    - [os.path] is [posixpath];
    - the console is UTF-8 with the strict error handler: [print] raises
      [UnicodeEncodeError] for a line that holds a lone surrogate and writes
      nothing of it; the fixed texts of the program and the text of an
      exception are always printed;
    - whether [json.dumps] and [str] exhaust the stack on a value is a
      parameter of the interpreter. *)

From Stdlib Require Import List NArith ZArith Bool Lia String Ascii.
Import ListNotations.

Set Implicit Arguments.
Set Warnings "-register-all".

(** ** Python strings *)

Module PyStr.

(** A character is its code point; a string is the list of its characters. *)
Abbreviation char := N (only parsing).
Abbreviation pystr := (list N) (only parsing).

Definition ch (a : ascii) : char := N_of_ascii a.
Arguments ch : simpl never.

(** The string with the code points of an ASCII literal. *)
Definition str (s : string) : pystr := map ch (list_ascii_of_string s).

(** The same, with a double quote for each apostrophe: JSON texts are written
    ['key': 'value'] in the examples below. *)
Definition js (s : string) : pystr :=
  map (fun c => if N.eqb c 39 then 34%N else c) (str s).

Definition eqc (a b : char) : bool := N.eqb a b.

Fixpoint eqs (a b : pystr) : bool :=
  match a, b with
  | [], [] => true
  | x :: a', y :: b' => eqc x y && eqs a' b'
  | _, _ => false
  end.

(** [c in chars], for a string used as a set of characters. *)
Definition mem (c : char) (chars : pystr) : bool := existsb (eqc c) chars.

(** [str.isspace] on one character, which is also what [\s] matches in a
    [str] pattern. *)
Definition is_space (c : char) : bool :=
  ((9 <=? c) && (c <=? 13) || (28 <=? c) && (c <=? 32)
   || (c =? 133) || (c =? 160) || (c =? 5760)
   || (8192 <=? c) && (c <=? 8202)
   || (c =? 8232) || (c =? 8233) || (c =? 8239) || (c =? 8287)
   || (c =? 12288))%N.

Fixpoint drop_while (p : char -> bool) (s : pystr) : pystr :=
  match s with
  | [] => []
  | c :: r => if p c then drop_while p r else s
  end.

Definition lstrip_by (p : char -> bool) (s : pystr) : pystr := drop_while p s.
Definition rstrip_by (p : char -> bool) (s : pystr) : pystr :=
  rev (drop_while p (rev s)).

(** [s.strip()] *)
Definition strip (s : pystr) : pystr := rstrip_by is_space (lstrip_by is_space s).

(** [s.strip(chars)] *)
Definition strip_chars (chars s : pystr) : pystr :=
  rstrip_by (fun c => mem c chars) (lstrip_by (fun c => mem c chars) s).

(** [s.count(c)] for a one-character needle. *)
Fixpoint count (c : char) (s : pystr) : nat :=
  match s with
  | [] => 0
  | x :: r => (if eqc x c then 1 else 0) + count c r
  end.

(** [c * n] *)
Definition times (c : char) (n : nat) : pystr := repeat c n.

(** The suffix of [s] that starts at the first [c]. *)
Fixpoint from_first (c : char) (s : pystr) : option pystr :=
  match s with
  | [] => None
  | x :: r => if eqc x c then Some s else from_first c r
  end.

(** The prefix of [s] that ends at the last [c]. *)
Definition upto_last (c : char) (s : pystr) : option pystr :=
  option_map (@rev char) (from_first c (rev s)).

(** The number of leading whitespace characters, as [\s*] consumes them. *)
Fixpoint span_space (s : pystr) : nat :=
  match s with
  | [] => 0
  | c :: r => if is_space c then S (span_space r) else 0
  end.

End PyStr.
Import PyStr.

(** ** The regular expressions of the program *)

Module Re.

(** [re.sub(pattern, repl, s)] for a pattern that never matches the empty
    string: [m] tries the pattern at the current position and gives the
    length of the match and the text that replaces it; [skip] characters of a
    match are still to be passed over. *)
Fixpoint sub_from (m : pystr -> option (nat * pystr)) (skip : nat) (s : pystr)
  : pystr :=
  match s with
  | [] => []
  | c :: r =>
      match skip with
      | S k => sub_from m k r
      | O =>
          match m s with
          | Some (len, repl) => repl ++ sub_from m (len - 1) r
          | None => c :: sub_from m 0 r
          end
      end
  end.

Definition sub (m : pystr -> option (nat * pystr)) (s : pystr) : pystr :=
  sub_from m 0 s.

Definition is_closer (c : char) : bool := eqc c (ch "]") || eqc c (ch "}").

(** The pattern [,\s*([\]}])] with the replacement [\1]. *)
Definition comma_closer (s : pystr) : option (nat * pystr) :=
  match s with
  | c :: r =>
      if eqc c (ch ",") then
        match skipn (span_space r) r with
        | cl :: _ => if is_closer cl then Some (span_space r + 2, [cl]) else None
        | [] => None
        end
      else None
  | [] => None
  end.

(** The pattern [\[\s*,] with the replacement ["["]. *)
Definition bracket_comma (s : pystr) : option (nat * pystr) :=
  match s with
  | c :: r =>
      if eqc c (ch "[") then
        match skipn (span_space r) r with
        | x :: _ => if eqc x (ch ",") then Some (span_space r + 2, [ch "["]) else None
        | [] => None
        end
      else None
  | [] => None
  end.

(** Whether the pattern matches somewhere in [s]. *)
Fixpoint occurs (m : pystr -> option (nat * pystr)) (s : pystr) : bool :=
  match s with
  | [] => false
  | _ :: r => (match m s with Some _ => true | None => false end) || occurs m r
  end.

(** [re.search(r"(\{[\s\S]*\})", text)], group 1: from the first ["{"] to the
    last ["}"] after it. *)
Definition search_braces (text : pystr) : option pystr :=
  match from_first (ch "{") text with
  | Some (c :: r) => option_map (cons c) (upto_last (ch "}") r)
  | _ => None
  end.

End Re.

(** ** Exceptions *)

(** The exceptions that can reach the program. *)
Inductive exn : Type :=
| AttributeError              (* a value without the method [get] *)
| TypeError                   (* an argument that is not a [str] *)
| EOFError                    (* [input] with nothing left to read *)
| JSONDecodeError             (* [json.loads] on a text that is no document *)
| ValueError                  (* an integer with more digits than [int] and [str] convert *)
| RecursionError              (* the stack of the interpreter is exhausted *)
| UnicodeEncodeError          (* a text the console cannot encode *)
| EnvironmentError (detail : pystr).   (* raised by the file system or by [requests] *)

(** How a call ends. *)
Inductive outcome (A : Type) : Type :=
| Returned (a : A)
| Raised (e : exn).
Arguments Raised {A}.

(** ** JSON values and [json.loads] *)

Module Json.

(** A [float], kept as the text [float] was applied to: the sign, the integer
    part, the fraction with its point and the exponent with its letter (the
    last two may be empty), or one of the three constants. *)
Inductive pyfloat : Type :=
| FNaN
| FInfinity
| FNegInfinity
| FDecimal (neg : bool) (int_part frac expo : pystr).

(** The Python values [json.loads] builds.  A [dict] keeps its keys in
    insertion order, as [items()] yields them. *)
Inductive json : Type :=
| JNull
| JBool (b : bool)
| JInt (n : Z)
| JFloat (x : pyfloat)
| JStr (s : pystr)
| JList (items : list json)
| JDict (items : list (pystr * json)).

Definition is_dict (v : json) : bool :=
  match v with JDict _ => true | _ => false end.

Definition is_list (v : json) : bool :=
  match v with JList _ => true | _ => false end.

(** [d[k] = v] on an insertion-ordered dict: a key already present keeps its
    place. *)
Fixpoint dict_set (d : list (pystr * json)) (k : pystr) (v : json)
  : list (pystr * json) :=
  match d with
  | [] => [(k, v)]
  | (k', v') :: r => if eqs k' k then (k, v) :: r else (k', v') :: dict_set r k v
  end.

(** [dict(pairs)] *)
Definition dict_of_pairs (pairs : list (pystr * json)) : list (pystr * json) :=
  fold_left (fun d kv => dict_set d (fst kv) (snd kv)) pairs [].

(** [d.get(k, default)] *)
Fixpoint dict_get (d : list (pystr * json)) (k : pystr) (default : json) : json :=
  match d with
  | [] => default
  | (k', v) :: r => if eqs k' k then v else dict_get r k default
  end.

(** *** The interpreter *)

(** What the program cannot see of the interpreter that runs it. *)
Class Interpreter : Type := {
  (** [sys.get_int_max_str_digits()]: the number of digits up to which [int]
      converts a literal, 4300 unless it was set; 0 switches the limit off,
      and no other value under 640 can be set *)
  max_str_digits : nat;
  max_str_digits_range : max_str_digits = 0 \/ 640 <= max_str_digits;
  (** how many arrays and objects, one inside the other, [json.loads] can
      enter before the stack is exhausted *)
  loads_depth : nat;
  (** the exception that [json.dumps(v, indent=2, ensure_ascii=False)]
      raises, if it raises: [ValueError] at an integer too long to convert,
      [RecursionError] when the stack is exhausted *)
  dumps_raises : json -> option exn;
  (** the same for [str(v)] *)
  str_raises : json -> option exn
}.

(** *** Scanning *)

(** What a scanning function gives back: a value and the text after it, a
    [JSONDecodeError], another exception, or a request for more fuel. *)
Inductive scan (A : Type) : Type :=
| Ok (a : A) (rest : pystr)
| DecodeError
| Fault (e : exn)
| OutOfFuel.
Arguments DecodeError {A}.
Arguments Fault {A}.
Arguments OutOfFuel {A}.

(** The double quote character. *)
Definition quote : char := 34%N.

Definition is_json_ws (c : char) : bool :=
  eqc c 32%N || eqc c 9%N || eqc c 10%N || eqc c 13%N.

Definition skip_ws (s : pystr) : pystr := drop_while is_json_ws s.

Definition is_digit (c : char) : bool := (48 <=? c)%N && (c <=? 57)%N.

Definition hex_digit (c : char) : option N :=
  if ((48 <=? c) && (c <=? 57))%N then Some (c - 48)%N
  else if ((97 <=? c) && (c <=? 102))%N then Some (c - 87)%N
  else if ((65 <=? c) && (c <=? 70))%N then Some (c - 55)%N
  else None.

Definition hex4 (a b c d : char) : option N :=
  match hex_digit a, hex_digit b, hex_digit c, hex_digit d with
  | Some x, Some y, Some z, Some w => Some (((x * 16 + y) * 16 + z) * 16 + w)%N
  | _, _, _, _ => None
  end.

Definition is_high_surrogate (u : N) : bool := (55296 <=? u)%N && (u <=? 56319)%N.
Definition is_low_surrogate (u : N) : bool := (56320 <=? u)%N && (u <=? 57343)%N.
Definition join_surrogates (hi lo : N) : N :=
  (65536 + ((hi - 55296) * 1024 + (lo - 56320)))%N.

(** The character a one-letter escape stands for. *)
Definition escape_char (e : char) : option char :=
  if eqc e quote then Some quote
  else if eqc e (ch "\") then Some (ch "\")
  else if eqc e (ch "/") then Some (ch "/")
  else if eqc e (ch "b") then Some 8%N
  else if eqc e (ch "f") then Some 12%N
  else if eqc e (ch "n") then Some 10%N
  else if eqc e (ch "r") then Some 13%N
  else if eqc e (ch "t") then Some 9%N
  else None.

(** [scanstring(s, end, strict=True)], started after the opening quote;
    [acc] holds the characters decoded so far, last first. *)
Fixpoint scanstring (s : pystr) (acc : pystr) {struct s} : option (pystr * pystr) :=
  match s with
  | [] => None
  | c :: r =>
      if eqc c quote then Some (rev acc, r)
      else if eqc c (ch "\") then
        match r with
        | [] => None
        | e :: r1 =>
            if eqc e (ch "u") then
              match r1 with
              | h1 :: h2 :: h3 :: h4 :: r2 =>
                  match hex4 h1 h2 h3 h4 with
                  | None => None
                  | Some uni =>
                      if is_high_surrogate uni then
                        match r2 with
                        | b :: u :: g1 :: g2 :: g3 :: g4 :: ((_ :: _) as r3) =>
                            if eqc b (ch "\") && eqc u (ch "u") then
                              match hex4 g1 g2 g3 g4 with
                              | None => None
                              | Some uni2 =>
                                  if is_low_surrogate uni2
                                  then scanstring r3 (join_surrogates uni uni2 :: acc)
                                  else scanstring r2 (uni :: acc)
                              end
                            else scanstring r2 (uni :: acc)
                        | _ => scanstring r2 (uni :: acc)
                        end
                      else scanstring r2 (uni :: acc)
                  end
              | _ => None
              end
            else
              match escape_char e with
              | Some x => scanstring r1 (x :: acc)
              | None => None
              end
        end
      else if (c <=? 31)%N then None
      else scanstring r (c :: acc)
  end.

(** *** Numbers and named constants *)

Fixpoint take_while (p : char -> bool) (s : pystr) : pystr :=
  match s with
  | [] => []
  | c :: r => if p c then c :: take_while p r else []
  end.

(** [int(digits)] for a run of decimal digits. *)
Definition int_of_digits (ds : pystr) : Z :=
  fold_left (fun acc d => (acc * 10 + Z.of_N (d - 48))%Z) ds 0%Z.

(** [s] without the prefix [p], when it starts with it. *)
Fixpoint strip_prefix (p s : pystr) : option pystr :=
  match p, s with
  | [], _ => Some s
  | x :: p', y :: s' => if eqc x y then strip_prefix p' s' else None
  | _ :: _, [] => None
  end.

(** The integer part of a number: ["0"], or a digit from 1 to 9 and the
    digits after it. *)
Definition match_integer (s : pystr) : option (pystr * pystr) :=
  match s with
  | c :: r =>
      if ((49 <=? c) && (c <=? 57))%N
      then Some (c :: take_while is_digit r, drop_while is_digit r)
      else if eqc c (ch "0") then Some ([c], r)
      else None
  | [] => None
  end.

(** A ["."] followed by at least one digit. *)
Definition match_fraction (s : pystr) : pystr * pystr :=
  match s with
  | p :: d :: r =>
      if eqc p (ch ".") && is_digit d
      then (p :: d :: take_while is_digit r, drop_while is_digit r)
      else ([], s)
  | _ => ([], s)
  end.

(** An exponent, given up when no digit follows the letter and the sign. *)
Definition match_exponent (s : pystr) : pystr * pystr :=
  match s with
  | e :: r =>
      if eqc e (ch "e") || eqc e (ch "E") then
        let '(sign, r') :=
          match r with
          | g :: r' => if eqc g (ch "-") || eqc g (ch "+") then ([g], r') else ([], r)
          | [] => ([], r)
          end in
        match take_while is_digit r' with
        | [] => ([], s)
        | ds => (e :: sign ++ ds, drop_while is_digit r')
        end
      else ([], s)
  | [] => ([], s)
  end.

Section Decoder.
Context {I : Interpreter}.

(** Whether [int] refuses a run of digits: the sign does not count. *)
Definition int_too_long (digits : pystr) : bool :=
  match max_str_digits with
  | O => false
  | S _ => max_str_digits <? List.length digits
  end.

(** [_match_number]: an [int] when the literal has neither fraction nor
    exponent, a [float] otherwise. *)
Definition match_number (s : pystr) : scan json :=
  let '(neg, s1) :=
    match s with
    | c :: r => if eqc c (ch "-") then (true, r) else (false, s)
    | [] => (false, s)
    end in
  match match_integer s1 with
  | None => DecodeError
  | Some (int_part, s2) =>
      let '(frac, s3) := match_fraction s2 in
      let '(expo, s4) := match_exponent s3 in
      match frac, expo with
      | [], [] =>
          if int_too_long int_part then Fault ValueError
          else
            let n := int_of_digits int_part in
            Ok (JInt (if neg then (- n)%Z else n)) s4
      | _, _ =>
          Ok (JFloat (FDecimal neg int_part frac expo)) s4
      end
  end.

(** [null], [true], [false], [NaN], [Infinity] and [-Infinity]. *)
Definition match_constant (s : pystr) : option (json * pystr) :=
  match strip_prefix (str "null") s with
  | Some r => Some (JNull, r)
  | None =>
  match strip_prefix (str "true") s with
  | Some r => Some (JBool true, r)
  | None =>
  match strip_prefix (str "false") s with
  | Some r => Some (JBool false, r)
  | None =>
  match strip_prefix (str "NaN") s with
  | Some r => Some (JFloat FNaN, r)
  | None =>
  match strip_prefix (str "Infinity") s with
  | Some r => Some (JFloat FInfinity, r)
  | None =>
  match strip_prefix (str "-Infinity") s with
  | Some r => Some (JFloat FNegInfinity, r)
  | None => None
  end end end end end end.

(** *** The decoder *)

(** [scan_once], with the loops of [JSONObject] and [JSONArray].  Each call
    spends one unit of [fuel]; [room] is the number of arrays and objects
    that can still be entered, one inside the other. *)
Fixpoint scan_once (fuel room : nat) (s : pystr) {struct fuel} : scan json :=
  match fuel with
  | O => OutOfFuel
  | S f =>
      match s with
      | [] => DecodeError
      | c :: r =>
          if eqc c quote then
            match scanstring r [] with
            | Some (x, rest) => Ok (JStr x) rest
            | None => DecodeError
            end
          else if eqc c (ch "{") then
            match room with
            | O => Fault RecursionError
            | S deeper =>
                match skip_ws r with
                | c' :: r' =>
                    if eqc c' (ch "}") then Ok (JDict []) r'
                    else if eqc c' quote then object_loop f deeper r' []
                    else DecodeError
                | [] => DecodeError
                end
            end
          else if eqc c (ch "[") then
            match room with
            | O => Fault RecursionError
            | S deeper =>
                match skip_ws r with
                | c' :: r' =>
                    if eqc c' (ch "]") then Ok (JList []) r'
                    else array_loop f deeper (c' :: r') []
                | [] => DecodeError
                end
            end
          else
            match match_constant s with
            | Some (v, rest) => Ok v rest
            | None => match_number s
            end
      end
  end

(** The loop of [JSONObject], entered after the opening quote of a key;
    [pairs] holds the pairs read so far, last first. *)
with object_loop (fuel room : nat) (s : pystr) (pairs : list (pystr * json))
  {struct fuel} : scan json :=
  match fuel with
  | O => OutOfFuel
  | S f =>
      match scanstring s [] with
      | None => DecodeError
      | Some (key, r) =>
          match skip_ws r with
          | c :: r1 =>
              if eqc c (ch ":") then
                match scan_once f room (skip_ws r1) with
                | Ok v r2 =>
                    match skip_ws r2 with
                    | c2 :: r3 =>
                        if eqc c2 (ch "}")
                        then Ok (JDict (dict_of_pairs (rev ((key, v) :: pairs)))) r3
                        else if eqc c2 (ch ",") then
                          match skip_ws r3 with
                          | c3 :: r4 =>
                              if eqc c3 quote
                              then object_loop f room r4 ((key, v) :: pairs)
                              else DecodeError
                          | [] => DecodeError
                          end
                        else DecodeError
                    | [] => DecodeError
                    end
                | DecodeError => DecodeError
                | Fault e => Fault e
                | OutOfFuel => OutOfFuel
                end
              else DecodeError
          | [] => DecodeError
          end
      end
  end

(** The loop of [JSONArray], entered at a value; [values] holds the values
    read so far, last first. *)
with array_loop (fuel room : nat) (s : pystr) (values : list json)
  {struct fuel} : scan json :=
  match fuel with
  | O => OutOfFuel
  | S f =>
      match scan_once f room s with
      | Ok v r =>
          match skip_ws r with
          | c :: r1 =>
              if eqc c (ch "]") then Ok (JList (rev (v :: values))) r1
              else if eqc c (ch ",")
              then array_loop f room (skip_ws r1) (v :: values)
              else DecodeError
          | [] => DecodeError
          end
      | DecodeError => DecodeError
      | Fault e => Fault e
      | OutOfFuel => OutOfFuel
      end
  end.

(** Fuel that is enough for a text: two units for each character. *)
Definition fuel_for (s : pystr) : nat := 2 * List.length s + 1.

(** [JSONDecoder.decode]: one value, with only whitespace around it. *)
Definition decode (s : pystr) : scan json :=
  match scan_once (fuel_for s) loads_depth (skip_ws s) with
  | Ok v rest =>
      match skip_ws rest with
      | [] => Ok v []
      | _ :: _ => DecodeError
      end
  | e => e
  end.

(** [json.loads(s)].  The fuel never runs out ([decode_total] below), so the
    last case is never taken. *)
Definition loads (s : pystr) : outcome json :=
  match decode s with
  | Ok v _ => Returned v
  | DecodeError => Raised JSONDecodeError
  | Fault e => Raised e
  | OutOfFuel => Raised RecursionError
  end.

End Decoder.

(** *** Truth values *)

(** The exponent of a float literal, as an integer. *)
Definition exponent_value (expo : pystr) : Z :=
  match expo with
  | _ :: g :: ds =>
      if eqc g (ch "-") then (- int_of_digits ds)%Z
      else if eqc g (ch "+") then int_of_digits ds
      else int_of_digits (g :: ds)
  | _ => 0%Z
  end.

(** [float(literal) == 0.0]: the literal denotes [m * 10 ^ e], which rounds
    to zero exactly when it is at most [2 ^ -1075]. *)
Definition float_is_zero (x : pyfloat) : bool :=
  match x with
  | FDecimal _ int_part frac expo =>
      let digits := List.tl frac in
      let m := int_of_digits (int_part ++ digits) in
      let e := (exponent_value expo - Z.of_nat (List.length digits))%Z in
      ((m =? 0) || ((e <? 0) && (m * 2 ^ 1075 <=? 10 ^ (- e))))%Z
  | _ => false
  end.

(** [bool(v)] *)
Definition truthy (v : json) : bool :=
  match v with
  | JNull => false
  | JBool b => b
  | JInt n => negb (n =? 0)%Z
  | JFloat x => negb (float_is_zero x)
  | JStr s => match s with [] => false | _ :: _ => true end
  | JList l => match l with [] => false | _ :: _ => true end
  | JDict d => match d with [] => false | _ :: _ => true end
  end.

End Json.
Import Json.

(** ** [os.path] *)

Module Path.

Definition sep : char := ch "/".
Definition not_sep (c : char) : bool := negb (eqc c sep).

(** [p[:i]] and [p[i:]] for [i = p.rfind("/") + 1]. *)
Definition head (p : pystr) : pystr := rev (drop_while not_sep (rev p)).
Definition tail (p : pystr) : pystr := rev (take_while not_sep (rev p)).

(** [os.path.dirname(p)] *)
Definition dirname (p : pystr) : pystr :=
  let h := head p in
  match h with
  | [] => h
  | _ :: _ => if forallb (eqc sep) h then h else rstrip_by (eqc sep) h
  end.

(** [os.path.basename(p)] *)
Definition basename (p : pystr) : pystr := tail p.

(** [os.path.join(a, b)] *)
Definition join (a b : pystr) : pystr :=
  if match b with c :: _ => eqc c sep | [] => false end then b
  else
    match rev a with
    | [] => b
    | l :: _ => if eqc l sep then a ++ b else a ++ sep :: b
    end.

End Path.

(** ** The world the program runs in *)

(** The lines the program prints, by the statement that prints them. *)
Inductive msg : Type :=
| ParsingFailedFixing         (* JSON parsing failed, attempting to fix JSON structure... *)
| NoJsonBlockFound            (* Error: No JSON block found! Original response: *)
| CouldNotBeFixed             (* Error: JSON structure could not be fixed. Final JSON: *)
| Text (t : pystr)            (* print(text), print(json_text), print(response.text) *)
| HttpError (status : Z)      (* Error while asking LLaMA 2: HTTP {status_code} *)
| ErrorRaised (e : exn)       (* Error: {e} *)
| AskDescription              (* Enter the software system description: *)
| CouldNotRetrieve            (* Could not retrieve a valid architecture proposal. Exiting. *)
| Retrieved                   (* Retrieved software architecture proposal: *)
| Dumps (v : json)            (* print(json.dumps(architecture_data, indent=2, ...)) *)
| AskAcceptance               (* Do you accept this architecture proposal? (yes/no): *)
| NotAccepted                 (* Architecture not accepted. Exiting. *)
| Accepted                    (* Architecture accepted. Generating files... *)
| AllGenerated                (* All files have been generated. Check the 'Output' folder. *)
| NoArchitectureData          (* Error: No architecture data available for file generation. *)
| NotAList                    (* Error: file_scaffolding is not a list! *)
| SkippingInvalidEntry (v : json)   (* Skipping invalid file entry: {file} (not a dictionary) *)
| FileGenerated (path : pystr)      (* File generated: {file_path} *)
| ErrorSavingFile (path : pystr) (e : exn).   (* Error saving file {file_path}: {e} *)

(** *** The console *)

(** A code point that UTF-8 does not encode. *)
Definition is_surrogate (c : char) : bool := (55296 <=? c)%N && (c <=? 57343)%N.

(** Whether the console can write a text. *)
Definition printable (s : pystr) : bool :=
  forallb (fun c => negb (is_surrogate c)) s.

(** Whether the console can write what [json.dumps] makes of a value with
    [ensure_ascii=False]: the keys and the strings of the value are in it as
    they are, but for the characters that JSON escapes. *)
Fixpoint json_printable (v : json) : bool :=
  match v with
  | JStr s => printable s
  | JList items => forallb json_printable items
  | JDict items =>
      forallb (fun kv => printable (fst kv) && json_printable (snd kv)) items
  | _ => true
  end.

Definition encoded (s : pystr) : option exn :=
  if printable s then None else Some UnicodeEncodeError.

(** The exception that building and printing a line raises, if it raises.
    [str] of a string is the string; of another value it is its [repr],
    where a surrogate is escaped.  So is it in the text of an exception. *)
Definition line_raises {I : Interpreter} (line : msg) : option exn :=
  match line with
  | Text t => encoded t
  | Dumps v =>
      match dumps_raises v with
      | Some e => Some e
      | None => if json_printable v then None else Some UnicodeEncodeError
      end
  | SkippingInvalidEntry v =>
      match v with
      | JStr s => encoded s
      | _ => str_raises v
      end
  | FileGenerated path => encoded path
  | ErrorSavingFile path _ => encoded path
  | _ => None
  end.

(** A function that only prints: the lines it printed, and how it ended. *)
Module Out.

Definition T (A : Type) : Type := (list msg * outcome A)%type.

Definition ret {A} (a : A) : T A := ([], Returned a).

Definition raise {A} (e : exn) : T A := ([], Raised e).

Definition bind {A B} (m : T A) (k : A -> T B) : T B :=
  match m with
  | (out, Returned a) => let '(out', r) := k a in (out ++ out', r)
  | (out, Raised e) => (out, Raised e)
  end.

(** [print(line)] *)
Definition print {I : Interpreter} (line : msg) : T unit :=
  match line_raises line with
  | None => ([line], Returned tt)
  | Some e => ([], Raised e)
  end.

End Out.

Declare Scope out_scope.
Delimit Scope out_scope with out.
Notation "m ;; k" := (Out.bind m (fun _ => k))
  (at level 61, right associativity) : out_scope.

(** *** The file system *)

(** The file system, as far as the program uses it.  Every operation may
    raise, and leaves the disk in some state when it does. *)
Class FileSystem (FS : Type) : Type := {
  (** [os.makedirs(path, exist_ok=True)] *)
  makedirs : pystr -> FS -> FS * option exn;
  (** [open(path, "w", encoding="utf-8")]: the file is created or emptied *)
  open_w : pystr -> FS -> FS * option exn;
  (** [f.write(content)] and the close that ends the [with] block *)
  write_close : pystr -> pystr -> FS -> FS * option exn;
  (** [os.path.isdir(path)] *)
  isdir : pystr -> FS -> bool;
  (** the content of the file at [path], if there is one *)
  file_content : pystr -> FS -> option pystr;
  makedirs_isdir : forall p d d', makedirs p d = (d', None) -> isdir p d' = true;
  write_close_content : forall p c d d',
    write_close p c d = (d', None) -> file_content p d' = Some c
}.

Record world (FS : Type) : Type := World {
  console : list msg;                (* what was printed, oldest first *)
  stdin : list pystr;                (* the lines [input] has still to read *)
  architecture_data : option json;   (* the module variable; [None] at start *)
  disk : FS
}.

Module Run.

(** A computation: from a world to how it ends and the world it leaves. *)
Definition M (FS A : Type) : Type := world FS -> outcome A * world FS.

Section WithFS.
Context {FS : Type} `{FileSystem FS} {I : Interpreter}.

Definition ret {A} (a : A) : M FS A := fun w => (Returned a, w).

Definition raise {A} (e : exn) : M FS A := fun w => (Raised e, w).

Definition bind {A B} (m : M FS A) (k : A -> M FS B) : M FS B :=
  fun w =>
    match m w with
    | (Returned a, w') => k a w'
    | (Raised e, w') => (Raised e, w')
    end.

(** [try: m  except Exception as e: h e] *)
Definition try_except {A} (m : M FS A) (h : exn -> M FS A) : M FS A :=
  fun w =>
    match m w with
    | (Returned a, w') => (Returned a, w')
    | (Raised e, w') => h e w'
    end.

(** [print(line)] *)
Definition print (line : msg) : M FS unit :=
  fun w =>
    match line_raises line with
    | None =>
        (Returned tt,
         World (console w ++ [line]) (stdin w) (architecture_data w) (disk w))
    | Some e => (Raised e, w)
    end.

(** A call of a function that only prints. *)
Definition emit {A} (call : Out.T A) : M FS A :=
  fun w =>
    (snd call,
     World (console w ++ fst call) (stdin w) (architecture_data w) (disk w)).

(** [input(prompt)] *)
Definition input (prompt : msg) : M FS pystr :=
  fun w =>
    let out := console w ++ [prompt] in
    match stdin w with
    | line :: rest => (Returned line, World out rest (architecture_data w) (disk w))
    | [] => (Raised EOFError, World out [] (architecture_data w) (disk w))
    end.

Definition get_architecture_data : M FS (option json) :=
  fun w => (Returned (architecture_data w), w).

Definition set_architecture_data (v : option json) : M FS unit :=
  fun w => (Returned tt, World (console w) (stdin w) v (disk w)).

(** A file-system operation, run on the disk of the world. *)
Definition on_disk (op : FS -> FS * option exn) : M FS unit :=
  fun w =>
    let '(d, r) := op (disk w) in
    let w' := World (console w) (stdin w) (architecture_data w) d in
    match r with
    | None => (Returned tt, w')
    | Some e => (Raised e, w')
    end.

End WithFS.
End Run.

Declare Scope run_scope.
Delimit Scope run_scope with run.
Notation "x <- m ;; k" := (Run.bind m (fun x => k))
  (at level 61, m at next level, right associativity) : run_scope.
Notation "m ;; k" := (Run.bind m (fun _ => k))
  (at level 61, right associativity) : run_scope.

(** ** The program *)

Definition OUTPUT_PATH : pystr := str "Output".

(** *** Extraction and repair *)

(** The text after the Markdown markers and the misplaced commas are
    removed. *)
Definition cleaned_text (json_text : pystr) : pystr :=
  let json_text :=
    strip_chars (str "```") (strip_chars (str "```json") (strip json_text)) in
  let json_text := Re.sub Re.comma_closer json_text in
  let json_text := Re.sub Re.bracket_comma json_text in
  json_text.

(** The text after the braces and the brackets are balanced by count. *)
Definition balanced_text (json_text : pystr) : pystr :=
  let open_braces := count (ch "{") json_text in
  let close_braces := count (ch "}") json_text in
  let open_brackets := count (ch "[") json_text in
  let close_brackets := count (ch "]") json_text in
  let json_text :=
    if close_braces <? open_braces
    then json_text ++ times (ch "}") (open_braces - close_braces)
    else json_text in
  let json_text :=
    if open_braces <? close_braces
    then times (ch "{") (close_braces - open_braces) ++ json_text
    else json_text in
  let json_text :=
    if close_brackets <? open_brackets
    then json_text ++ times (ch "]") (open_brackets - close_brackets)
    else json_text in
  let json_text :=
    if open_brackets <? close_brackets
    then times (ch "[") (close_brackets - open_brackets) ++ json_text
    else json_text in
  json_text.

(** The text [fix_json_structure] hands to its [json.loads]. *)
Definition repaired_text (json_text : pystr) : pystr :=
  balanced_text (cleaned_text json_text).

Section Extraction.
Context {I : Interpreter}.
Local Open Scope out_scope.

(** What is printed, and how the call ends: [Returned None] is the
    [return None] of the handler, [Returned (Some v)] the value of
    [json.loads]; the handler catches [JSONDecodeError] and nothing else. *)
Definition fix_json_structure (json_text : pystr) : Out.T (option json) :=
  let final := repaired_text json_text in
  match loads final with
  | Returned v => Out.ret (Some v)
  | Raised JSONDecodeError =>
      Out.print CouldNotBeFixed ;;
      Out.print (Text final) ;;
      Out.ret None
  | Raised e => Out.raise e
  end.

Definition extract_json (text : pystr) : Out.T (option json) :=
  match Re.search_braces text with
  | Some json_text =>
      match loads json_text with
      | Returned v => Out.ret (Some v)
      | Raised JSONDecodeError =>
          Out.print ParsingFailedFixing ;;
          fix_json_structure json_text
      | Raised e => Out.raise e
      end
  | None =>
      Out.print NoJsonBlockFound ;;
      Out.print (Text text) ;;
      Out.ret None
  end.

End Extraction.

(** *** The request *)

(** What [requests.post] does with the prompt built from a description:
    it raises, or gives a response with its status code, the outcome of
    [response.json()] and [response.text]. *)
Inductive http_reply : Type :=
| PostFailed (e : exn)
| Response (status_code : Z) (body : outcome json) (text : pystr).

Module Program.
Section WithFS.
Context {FS : Type} `{FileSystem FS} {I : Interpreter}.

(** [requests.post(LLAMA_API_URL, json=payload)], by software description. *)
Variable post : pystr -> http_reply.

(** [str.lower], which the Unicode case tables define. *)
Variable lower : pystr -> pystr.

Local Open Scope run_scope.
Import Run.

(** [v.get(k, default)], which only a [dict] has. *)
Definition get (v : json) (k : pystr) (default : json) : M FS json :=
  match v with
  | JDict d => ret (dict_get d k default)
  | _ => raise AttributeError
  end.

Definition ask_llama_for_architecture (software_description : pystr)
  : M FS (option json) :=
  try_except
    (match post software_description return M FS (option json) with
     | PostFailed e => raise e
     | Response status_code body text =>
         if (status_code =? 200)%Z then
           match body return M FS (option json) with
           | Raised e => raise e
           | Returned b =>
               raw_text <- get b (str "response") (JStr []) ;;
               match raw_text with
               | JStr t => emit (extract_json t)
               | _ => raise TypeError
               end
           end
         else
           print (HttpError status_code) ;; print (Text text) ;; ret None
     end)
    (fun e => print (ErrorRaised e) ;; ret None).

(** *** Materialization *)

(** [with open(file_path, "w", encoding="utf-8") as f: f.write(content)];
    [write] takes a [str] only. *)
Definition write_file (file_path : pystr) (content : json) : M FS unit :=
  on_disk (open_w file_path) ;;
  match content with
  | JStr c => on_disk (write_close file_path c)
  | _ => raise TypeError
  end.

Definition save_file_to_output (folder filename : pystr) (content : json)
  : M FS unit :=
  let file_path := Path.join folder filename in
  try_except
    (write_file file_path content ;; print (FileGenerated file_path))
    (fun e => print (ErrorSavingFile file_path e)).

(** The list comprehension that turns a mapping into a list of records. *)
Fixpoint records_of_mapping (items : list (pystr * json)) : M FS (list json) :=
  match items with
  | [] => ret []
  | (key, value) :: rest =>
      content <- get value (str "content") (JStr []) ;;
      records <- records_of_mapping rest ;;
      ret (JDict [(str "name", JStr key); (str "content", content)] :: records)
  end.

(** One turn of the loop over [file_scaffolding]. *)
Definition generate_file (file : json) : M FS unit :=
  match file with
  | JDict d =>
      let filename := dict_get d (str "name") (JStr (str "unnamed_file.txt")) in
      let content := dict_get d (str "content") (JStr []) in
      match filename with
      | JStr name =>
          let folder := Path.dirname name in
          let folder_path :=
            match folder with
            | _ :: _ => Path.join OUTPUT_PATH folder
            | [] => OUTPUT_PATH
            end in
          on_disk (makedirs folder_path) ;;
          save_file_to_output folder_path (Path.basename name) content
      | _ => raise TypeError
      end
  | _ => print (SkippingInvalidEntry file)
  end.

Fixpoint generate_files (file_scaffolding : list json) : M FS unit :=
  match file_scaffolding with
  | [] => ret tt
  | file :: rest => generate_file file ;; generate_files rest
  end.

Definition generate_software_files : M FS unit :=
  data <- get_architecture_data ;;
  match data with
  | None => print NoArchitectureData
  | Some proposal =>
      if negb (truthy proposal) then print NoArchitectureData
      else
        on_disk (makedirs OUTPUT_PATH) ;;
        file_scaffolding <- get proposal (str "file_scaffolding") (JList []) ;;
        file_scaffolding <-
          match file_scaffolding with
          | JDict items =>
              records <- records_of_mapping items ;; ret (JList records)
          | _ => ret file_scaffolding
          end ;;
        match file_scaffolding with
        | JList files => generate_files files
        | _ => print NotAList
        end
  end.

(** *** The run *)

(** [user_input in ["yes", "y"]] *)
Definition accepts (user_input : pystr) : bool :=
  eqs user_input (str "yes") || eqs user_input (str "y").

Definition main : M FS unit :=
  software_description <- input AskDescription ;;
  data <- ask_llama_for_architecture software_description ;;
  set_architecture_data data ;;
  match data with
  | None => print CouldNotRetrieve
  | Some proposal =>
      if negb (truthy proposal) then print CouldNotRetrieve
      else
        print Retrieved ;;
        print (Dumps proposal) ;;
        answer <- input AskAcceptance ;;
        let user_input := lower (strip answer) in
        if negb (accepts user_input) then print NotAccepted
        else
          print Accepted ;;
          generate_software_files ;;
          print AllGenerated
  end.

End WithFS.
End Program.

(** ** The vocabulary of the statements *)

(** Whether the first and the last character of [s] escape [p], so that
    stripping by [p] leaves [s] as it is. *)
Definition kept_ends (p : char -> bool) (s : pystr) : bool :=
  match s with
  | c :: _ => negb (p c) && negb (p (last s c))
  | [] => true
  end.

(** Whitespace, or a character of the Markdown marker: what the three
    strips of the repair remove at the ends. *)
Definition marker_or_space (c : char) : bool :=
  is_space c || mem c (str "```json").

(** The characters the cleaning never removes. *)
Definition structural (c : char) : bool :=
  eqc c (ch "{") || eqc c (ch "}") || eqc c (ch "[") || eqc c (ch "]").

(** The text [d] with a comma put immediately before the closing brackets and
    braces that [mask] selects, one flag for each character of [d]. *)
Fixpoint with_trailing_commas (mask : list bool) (d : pystr) : pystr :=
  match d with
  | [] => []
  | c :: r =>
      if hd false mask && Re.is_closer c
      then ch "," :: c :: with_trailing_commas (tl mask) r
      else c :: with_trailing_commas (tl mask) r
  end.

(** Whether the first character after the leading whitespace is a closer. *)
Definition closer_next (s : pystr) : bool :=
  match skipn (span_space s) s with
  | cl :: _ => Re.is_closer cl
  | [] => false
  end.

(** The world [w] with the lines [lines] printed after what it shows, and
    the world [w] with the disk [d]. *)
Definition printed {FS : Type} (w : world FS) (lines : list msg) : world FS :=
  World (console w ++ lines) (stdin w) (architecture_data w) (disk w).

Definition on_the_disk {FS : Type} (w : world FS) (d : FS) : world FS :=
  World (console w) (stdin w) (architecture_data w) d.

(** [k in d] *)
Definition has_key (d : list (pystr * json)) (k : pystr) : bool :=
  existsb (fun kv => eqs (fst kv) k) d.

(** An entry of the scaffolding list whose name, if it is a record, is a
    string. *)
Definition named (file : json) : bool :=
  match file with
  | JDict d =>
      match dict_get d (str "name") (JStr (str "unnamed_file.txt")) with
      | JStr _ => true
      | _ => false
      end
  | _ => true
  end.

(** The folder [generate_software_files] writes the file named [name] in. *)
Definition folder_path_of (name : pystr) : pystr :=
  match Path.dirname name with
  | _ :: _ => Path.join OUTPUT_PATH (Path.dirname name)
  | [] => OUTPUT_PATH
  end.

(** The lines the loop over the scaffolding prints. *)
Definition file_line (l : msg) : bool :=
  match l with
  | SkippingInvalidEntry _ | FileGenerated _ | ErrorSavingFile _ _ => true
  | _ => false
  end.

(** The lines [generate_software_files] prints once it has a proposal. *)
Definition scaffolding_line (l : msg) : bool :=
  match l with
  | NotAList => true
  | _ => file_line l
  end.

(** The lines [generate_software_files] prints. *)
Definition materialization_line (l : msg) : bool :=
  match l with
  | NoArchitectureData => true
  | _ => scaffolding_line l
  end.

(** The lines [ask_llama_for_architecture] prints. *)
Definition request_line (l : msg) : bool :=
  match l with
  | ParsingFailedFixing | NoJsonBlockFound | CouldNotBeFixed | Text _
  | HttpError _ | ErrorRaised _ => true
  | _ => false
  end.

(** Every line but the one of the guard that opens
    [generate_software_files]. *)
Definition run_line (l : msg) : bool :=
  match l with
  | NoArchitectureData => false
  | _ => true
  end.

(** From [w] to [w'] lines were printed, all of them in [P]. *)
Definition prints_only {FS : Type} (P : msg -> bool) (w w' : world FS) : Prop :=
  exists lines, console w' = console w ++ lines /\ forallb P lines = true.

(** From [w] to [w'] lines in [P] were printed, the keyboard was not read and
    the module variable was not assigned. *)
Definition grows {FS : Type} (P : msg -> bool) (w w' : world FS) : Prop :=
  stdin w' = stdin w
  /\ architecture_data w' = architecture_data w
  /\ prints_only P w w'.

(** A computation that, from every world, prints lines in [P] only, reads no
    line, assigns nothing, and raises only the exceptions that [E] allows in
    the world it leaves. *)
Definition only {FS A : Type} (P : msg -> bool) (E : exn -> world FS -> Prop)
    (m : Run.M FS A) : Prop :=
  forall w,
    grows P w (snd (m w))
    /\ forall e, fst (m w) = Raised e -> E e (snd (m w)).

(** The record the list comprehension makes of one item of a mapping. *)
Definition record_of (item : pystr * json) : json :=
  JDict [(str "name", JStr (fst item));
         (str "content",
          match snd item with
          | JDict d => dict_get d (str "content") (JStr [])
          | _ => JStr []
          end)].

(** A folder that [generate_software_files] creates: the output directory,
    or the folder of a name. *)
Definition output_folder (p : pystr) : Prop :=
  p = OUTPUT_PATH \/ exists name, p = folder_path_of name.

(** An exception that [os.makedirs] raised for such a folder, leaving the
    disk of [w]. *)
Definition raised_by_makedirs {FS : Type} `{FileSystem FS}
    (e : exn) (w : world FS) : Prop :=
  exists p d, output_folder p /\ makedirs p d = (disk w, Some e).

(** An exception that the [print] of a line of the loop raised. *)
Definition raised_by_print {I : Interpreter} (e : exn) : Prop :=
  exists line, file_line line = true /\ line_raises line = Some e.

(** Whether the warning for an entry can be built and printed. *)
Definition warned {I : Interpreter} (file : json) : bool :=
  match line_raises (SkippingInvalidEntry file) with
  | None => true
  | Some _ => false
  end.

(** The exceptions that leave the loop over the scaffolding, and the ones
    that leave [generate_software_files], with the world they leave. *)
Definition leaves_the_loop {FS : Type} `{FileSystem FS} {I : Interpreter}
    (e : exn) (w : world FS) : Prop :=
  e = TypeError \/ raised_by_print e \/ raised_by_makedirs e w.

Definition leaves_materialization {FS : Type} `{FileSystem FS}
    {I : Interpreter} (e : exn) (w : world FS) : Prop :=
  e = AttributeError \/ leaves_the_loop e w.

(** [isinstance(v, str)] *)
Definition is_str (v : json) : bool :=
  match v with JStr _ => true | _ => false end.

(** Whether a name starts at the root. *)
Definition absolute (name : pystr) : bool :=
  match name with
  | c :: _ => eqc c Path.sep
  | [] => false
  end.

(** The output directory, a separator, and a relative name with the run of
    separators between its folder and its base name reduced to one. *)
Definition joined_to_output (name : pystr) : pystr :=
  OUTPUT_PATH ++ Path.sep ::
    match Path.dirname name with
    | [] => Path.basename name
    | folder => folder ++ Path.sep :: Path.basename name
    end.

Section RunOf.
Context {FS : Type} `{FileSystem FS} {I : Interpreter}.
Variable post : pystr -> http_reply.
Variable lower : pystr -> pystr.

(** The world after the description was read. *)
Definition described (w : world FS) (rest : list pystr) : world FS :=
  World (console w ++ [AskDescription]) rest (architecture_data w) (disk w).

(** The ways a run goes, by what the keyboard holds, what the request
    returns and whether the proposal can be shown. *)
Inductive run_of (w : world FS) : Prop :=
| no_description :
    stdin w = [] ->
    Program.main post lower w
    = (Raised EOFError,
       World (console w ++ [AskDescription]) [] (architecture_data w) (disk w)) ->
    run_of w
| no_proposal description rest data out :
    stdin w = description :: rest ->
    Program.ask_llama_for_architecture post description (described w rest)
    = (Returned data, printed (described w rest) out) ->
    forallb request_line out = true ->
    data = None \/ data = Some (JDict []) ->
    Program.main post lower w
    = (Returned tt,
       World (console w ++ AskDescription :: out ++ [CouldNotRetrieve])
             rest data (disk w)) ->
    run_of w
| not_shown description rest items out e :
    stdin w = description :: rest ->
    Program.ask_llama_for_architecture post description (described w rest)
    = (Returned (Some (JDict items)), printed (described w rest) out) ->
    forallb request_line out = true ->
    items <> [] ->
    line_raises (Dumps (JDict items)) = Some e ->
    Program.main post lower w
    = (Raised e,
       World (console w ++ AskDescription :: out ++ [Retrieved])
             rest (Some (JDict items)) (disk w)) ->
    run_of w
| no_answer description items out :
    stdin w = [description] ->
    Program.ask_llama_for_architecture post description (described w [])
    = (Returned (Some (JDict items)), printed (described w []) out) ->
    forallb request_line out = true ->
    items <> [] ->
    line_raises (Dumps (JDict items)) = None ->
    Program.main post lower w
    = (Raised EOFError,
       World (console w ++ AskDescription :: out
                ++ [Retrieved; Dumps (JDict items); AskAcceptance])
             [] (Some (JDict items)) (disk w)) ->
    run_of w
| declined description answer rest items out :
    stdin w = description :: answer :: rest ->
    Program.ask_llama_for_architecture post description
      (described w (answer :: rest))
    = (Returned (Some (JDict items)),
       printed (described w (answer :: rest)) out) ->
    forallb request_line out = true ->
    items <> [] ->
    line_raises (Dumps (JDict items)) = None ->
    Program.accepts (lower (strip answer)) = false ->
    Program.main post lower w
    = (Returned tt,
       World (console w ++ AskDescription :: out
                ++ [Retrieved; Dumps (JDict items); AskAcceptance; NotAccepted])
             rest (Some (JDict items)) (disk w)) ->
    run_of w
| accepted description answer rest items out :
    stdin w = description :: answer :: rest ->
    Program.ask_llama_for_architecture post description
      (described w (answer :: rest))
    = (Returned (Some (JDict items)),
       printed (described w (answer :: rest)) out) ->
    forallb request_line out = true ->
    items <> [] ->
    line_raises (Dumps (JDict items)) = None ->
    Program.accepts (lower (strip answer)) = true ->
    Program.main post lower w
    = (Program.generate_software_files ;; Run.print AllGenerated)%run
        (World (console w ++ AskDescription :: out
                  ++ [Retrieved; Dumps (JDict items); AskAcceptance; Accepted])
               rest (Some (JDict items)) (disk w)) ->
    run_of w.

End RunOf.

(** ** An in-memory file system

    Directories are a list of paths and files a list of paths with their
    content; paths are compared as they are written.  File names are
    encoded as on a UTF-8 system, where the surrogates U+DC80 to U+DCFF stand
    for the bytes that are no UTF-8, and the content of a file is encoded in
    UTF-8.  It serves for the closed examples below. *)

Module MemFS.

Record memfs : Type := Mem {
  dirs : list pystr;
  files : list (pystr * pystr)
}.

Definition empty : memfs := Mem [] [].

Definition has_dir (p : pystr) (d : memfs) : bool := existsb (eqs p) (dirs d).

Fixpoint lookup (p : pystr) (l : list (pystr * pystr)) : option pystr :=
  match l with
  | [] => None
  | (q, c) :: r => if eqs q p then Some c else lookup p r
  end.

Fixpoint store (p c : pystr) (l : list (pystr * pystr)) : list (pystr * pystr) :=
  match l with
  | [] => [(p, c)]
  | (q, c') :: r => if eqs q p then (p, c) :: r else (q, c') :: store p c r
  end.

Definition is_file (p : pystr) (d : memfs) : bool :=
  match lookup p (files d) with Some _ => true | None => false end.

(** Whether a path can be handed to the system; if not, what the call
    raises. *)
Definition fs_encodable (p : pystr) : bool :=
  forallb (fun c => negb (is_surrogate c) || ((56448 <=? c) && (c <=? 56575))%N)
          p.

Definition refused (p : pystr) : option exn :=
  if negb (fs_encodable p) then Some UnicodeEncodeError
  else if mem 0%N p then Some ValueError
  else None.

(** The prefixes of a path that end before a separator. *)
Fixpoint prefixes (seen rest : pystr) : list pystr :=
  match rest with
  | [] => []
  | c :: r =>
      (if eqc c Path.sep && negb (eqs seen []) then [seen] else [])
      ++ prefixes (seen ++ [c]) r
  end.

Definition mem_makedirs (p : pystr) (d : memfs) : memfs * option exn :=
  match refused p with
  | Some e => (d, Some e)
  | None =>
      match p with
      | [] => (d, Some (EnvironmentError (str "FileNotFoundError")))
      | _ :: _ =>
          if existsb (fun a => is_file a d) (prefixes [] p)
          then (d, Some (EnvironmentError (str "NotADirectoryError")))
          else if is_file p d
          then (d, Some (EnvironmentError (str "FileExistsError")))
          else (Mem ((prefixes [] p ++ [p]) ++ dirs d) (files d), None)
      end
  end.

Definition mem_open_w (p : pystr) (d : memfs) : memfs * option exn :=
  match refused p with
  | Some e => (d, Some e)
  | None =>
      match Path.basename p with
      | [] => (d, Some (EnvironmentError (str "IsADirectoryError")))
      | _ :: _ =>
          if has_dir p d
          then (d, Some (EnvironmentError (str "IsADirectoryError")))
          else if existsb (fun a => is_file a d) (prefixes [] p)
          then (d, Some (EnvironmentError (str "NotADirectoryError")))
          else
            match Path.dirname p with
            | [] => (Mem (dirs d) (store p [] (files d)), None)
            | parent =>
                if has_dir parent d
                then (Mem (dirs d) (store p [] (files d)), None)
                else (d, Some (EnvironmentError (str "FileNotFoundError")))
            end
      end
  end.

Definition mem_write_close (p c : pystr) (d : memfs) : memfs * option exn :=
  if printable c then (Mem (dirs d) (store p c (files d)), None)
  else (d, Some UnicodeEncodeError).

(** [str.lower] on ASCII letters; other characters are left as they are. *)
Definition ascii_lower (s : pystr) : pystr :=
  map (fun c => if ((65 <=? c) && (c <=? 90))%N then (c + 32)%N else c) s.

(** A world in which nothing has happened yet. *)
Definition start (keyboard : list pystr) : world memfs :=
  World [] keyboard None empty.

End MemFS.

(** ** A disk that cannot be written

    Every directory is there already, and no file can be opened for
    writing. *)

Module ReadOnlyFS.

Definition denied : exn := EnvironmentError (str "PermissionError").

Definition ro_makedirs (p : pystr) (d : unit) : unit * option exn := (d, None).

Definition ro_open_w (p : pystr) (d : unit) : unit * option exn :=
  (d, Some denied).

Definition ro_write_close (p c : pystr) (d : unit) : unit * option exn :=
  (d, Some denied).

End ReadOnlyFS.

(** The worlds and the data of the closed examples. *)

Module Examples.
Import MemFS.

(** The number of decimal digits of an integer. *)
Definition digits (n : Z) : nat := Decimal.nb_digits (N.to_uint (Z.abs_N n)).

Fixpoint first_raised (l : list (option exn)) : option exn :=
  match l with
  | [] => None
  | Some e :: _ => Some e
  | None :: r => first_raised r
  end.

(** A simple account of what formatting a value costs: every value inside
    another takes one unit of [room], and an integer of more than [limit]
    digits is refused. *)
Fixpoint format_raises (limit room : nat) (v : json) : option exn :=
  match room with
  | O => Some RecursionError
  | S deeper =>
      match v with
      | JInt n => if limit <? digits n then Some ValueError else None
      | JList items => first_raised (map (format_raises limit deeper) items)
      | JDict items =>
          first_raised
            (map (fun kv => format_raises limit deeper (snd kv)) items)
      | _ => None
      end
  end.

(** An interpreter for the examples: the default limit on digits, and a
    stack with room for some nine hundred nested values. *)
Definition interpreter : Interpreter := {|
  max_str_digits := 4300;
  max_str_digits_range := or_intror (proj1 (Nat.leb_le 640 4300) eq_refl);
  loads_depth := 990;
  dumps_raises := format_raises 4300 900;
  str_raises := format_raises 4300 900
|}.

(** A world that holds a proposal and an empty disk. *)
Definition holding (proposal : json) : world memfs :=
  World [] [] (Some proposal) empty.

Definition a_record : list (pystr * json) :=
  [(str "name", JStr (str "src/a.txt")); (str "content", JStr (str "hi"))].

(** The record of a file, by its name and its content. *)
Definition entry (name content : string) : json :=
  JDict [(str "name", JStr (str name)); (str "content", JStr (str content))].

(** A server that answers every request with the same text. *)
Definition answering (text : pystr) (description : pystr) : http_reply :=
  Response 200 (Returned (JDict [(str "response", JStr text)])) [].

Definition a_reply : pystr :=
  js "{'file_scaffolding': [{'name': 'src/a.txt', 'content': 'hi'}]}".

End Examples.
Import Examples.


(** * Properties *)

Unset Implicit Arguments.

(** ** Strings *)

Lemma eqc_eq a b : eqc a b = true <-> a = b.
Proof. apply N.eqb_eq. Qed.

Lemma eqc_refl a : eqc a a = true.
Proof. apply N.eqb_refl. Qed.

Lemma eqc_neq a b : eqc a b = false <-> a <> b.
Proof. apply N.eqb_neq. Qed.

Lemma eqs_eq a b : eqs a b = true <-> a = b.
Proof.
  revert b; induction a as [|x a IH]; intros [|y b]; simpl;
    try (split; (discriminate || reflexivity)).
  rewrite andb_true_iff, eqc_eq, IH. split.
  - intros [-> ->]; reflexivity.
  - intros E; inversion E; auto.
Qed.

Lemma eqs_refl a : eqs a a = true.
Proof. apply eqs_eq; reflexivity. Qed.

Lemma drop_while_length p s : List.length (drop_while p s) <= List.length s.
Proof.
  induction s as [|c r IH]; simpl; [lia|].
  destruct (p c); simpl; lia.
Qed.

Lemma skip_ws_length s : List.length (skip_ws s) <= List.length s.
Proof. apply drop_while_length. Qed.

(** ** The decoder never runs out of fuel *)

Module DecoderFacts.

Lemma strip_prefix_length p s r :
  strip_prefix p s = Some r -> List.length s = List.length p + List.length r.
Proof.
  revert s; induction p as [|x p IH]; intros [|y s]; simpl; intros E;
    try discriminate; try (inversion E; subst; reflexivity).
  destruct (eqc x y); [|discriminate]. rewrite (IH _ E). reflexivity.
Qed.

Lemma match_constant_shorter s v r :
  match_constant s = Some (v, r) -> List.length r < List.length s.
Proof.
  unfold match_constant.
  repeat match goal with
  | |- context [strip_prefix ?p s] =>
      let E := fresh "E" in
      destruct (strip_prefix p s) eqn:E;
      [ apply strip_prefix_length in E; simpl in E;
        intros X; inversion X; subst; lia | ]
  end.
  discriminate.
Qed.

Lemma match_integer_shorter s d r :
  match_integer s = Some (d, r) -> List.length r < List.length s.
Proof.
  destruct s as [|c s]; simpl; [discriminate|].
  destruct ((49 <=? c)%N && (c <=? 57)%N).
  - intros X; inversion X; subst. pose proof (drop_while_length is_digit s). simpl; lia.
  - destruct (eqc c (ch "0")); intros X; inversion X; subst. simpl; lia.
Qed.

Lemma match_fraction_length s :
  List.length (snd (match_fraction s)) <= List.length s.
Proof.
  destruct s as [|p [|d r]]; simpl; try lia.
  destruct (eqc p (ch ".") && is_digit d); simpl; [|lia].
  pose proof (drop_while_length is_digit r). lia.
Qed.

Lemma match_exponent_length s :
  List.length (snd (match_exponent s)) <= List.length s.
Proof.
  unfold match_exponent.
  destruct s as [|e r]; [simpl; lia|].
  destruct (eqc e (ch "e") || eqc e (ch "E")); [|simpl; lia].
  assert (P : forall sign r', List.length r' <= List.length r ->
    List.length (snd (match take_while is_digit r' with
                      | [] => ([], e :: r)
                      | c :: l => (e :: sign ++ c :: l, drop_while is_digit r')
                      end)) <= List.length (e :: r)).
  { intros sign r' L. pose proof (drop_while_length is_digit r').
    destruct (take_while is_digit r'); simpl in *; lia. }
  destruct r as [|g r']; [apply P; simpl; lia|].
  destruct (eqc g (ch "-") || eqc g (ch "+")); apply P; simpl; lia.
Qed.

Section WithInterpreter.
Context {I : Interpreter}.

Lemma match_number_shorter s v r :
  match_number s = Ok v r -> List.length r < List.length s.
Proof.
  unfold match_number.
  assert (P : forall (neg : bool) s1, List.length s1 <= List.length s ->
    match match_integer s1 with
    | None => DecodeError
    | Some (int_part, s2) =>
        let '(frac, s3) := match_fraction s2 in
        let '(expo, s4) := match_exponent s3 in
        match frac, expo with
        | [], [] =>
            if int_too_long int_part then Fault ValueError
            else
              let n := int_of_digits int_part in
              Ok (JInt (if neg then (- n)%Z else n)) s4
        | _, _ => Ok (JFloat (FDecimal neg int_part frac expo)) s4
        end
    end = Ok v r -> List.length r < List.length s).
  { intros neg s1 L.
    destruct (match_integer s1) as [[ip s2]|] eqn:E1; [|discriminate].
    apply match_integer_shorter in E1.
    pose proof (match_fraction_length s2) as L2.
    destruct (match_fraction s2) as [frac s3]. simpl in L2.
    pose proof (match_exponent_length s3) as L3.
    destruct (match_exponent s3) as [expo s4]. simpl in L3.
    destruct frac, expo; try destruct (int_too_long ip);
      intros X; inversion X; subst; lia. }
  destruct s as [|c s'].
  - exact (P false [] (le_n _)).
  - destruct (eqc c (ch "-")).
    + exact (P true s' (Nat.le_succ_diag_r _)).
    + exact (P false (c :: s') (le_n _)).
Qed.

End WithInterpreter.

Ltac split_match :=
  match goal with
  | |- context [match ?x with _ => _ end] => destruct x eqn:?
  end.

Lemma scanstring_shorter_upto n :
  forall s acc x r, List.length s <= n ->
    scanstring s acc = Some (x, r) -> List.length r < List.length s.
Proof.
  induction n as [|n IH]; intros s acc x r L.
  - destruct s; [discriminate | simpl in L; lia].
  - destruct s as [|c s]; [discriminate|].
    cbn [scanstring]. simpl in L.
    repeat split_match; subst; try discriminate;
      intros E;
      try (inversion E; subst; simpl; lia);
      apply IH in E; simpl in *; lia.
Qed.

Lemma scanstring_shorter s acc x r :
  scanstring s acc = Some (x, r) -> List.length r < List.length s.
Proof. apply (scanstring_shorter_upto (List.length s)); lia. Qed.

Section WithInterpreter.
Context {I : Interpreter}.

(** A value takes at least one character, and so does each turn of a loop. *)
Lemma scan_shorter fuel :
  (forall room s v r,
     scan_once fuel room s = Ok v r -> List.length r < List.length s)
  /\ (forall room s pairs v r,
        object_loop fuel room s pairs = Ok v r ->
        List.length r < List.length s)
  /\ (forall room s values v r,
        array_loop fuel room s values = Ok v r ->
        List.length r < List.length s).
Proof.
  induction fuel as [|f (IHs & IHo & IHa)].
  - repeat split; intros; discriminate.
  - repeat split.
    + intros room [|c s] v r; [discriminate|]. cbn [scan_once].
      destruct (eqc c quote).
      { destruct (scanstring s []) as [[x rest]|] eqn:E; [|discriminate].
        apply scanstring_shorter in E. intros X; inversion X; subst. simpl; lia. }
      destruct (eqc c (ch "{")).
      { destruct room as [|deeper]; [discriminate|].
        pose proof (skip_ws_length s) as L.
        destruct (skip_ws s) as [|c' r']; [discriminate|]. simpl in L.
        destruct (eqc c' (ch "}")).
        { intros X; inversion X; subst. simpl; lia. }
        destruct (eqc c' quote); [|discriminate].
        intros X. apply IHo in X. simpl; lia. }
      destruct (eqc c (ch "[")).
      { destruct room as [|deeper]; [discriminate|].
        pose proof (skip_ws_length s) as L.
        destruct (skip_ws s) as [|c' r']; [discriminate|]. simpl in L.
        destruct (eqc c' (ch "]")).
        { intros X; inversion X; subst. simpl; lia. }
        intros X. apply IHa in X. simpl in *; lia. }
      destruct (match_constant (c :: s)) as [[v' rest]|] eqn:E.
      { apply match_constant_shorter in E. intros X; inversion X; subst. exact E. }
      apply match_number_shorter.
    + intros room s pairs v r. cbn [object_loop].
      destruct (scanstring s []) as [[key r0]|] eqn:E; [|discriminate].
      apply scanstring_shorter in E.
      pose proof (skip_ws_length r0) as L0.
      destruct (skip_ws r0) as [|c r1]; [discriminate|]. simpl in L0.
      destruct (eqc c (ch ":")); [|discriminate].
      pose proof (skip_ws_length r1) as L1.
      destruct (scan_once f room (skip_ws r1)) as [v' r2| | |] eqn:E2;
        try discriminate.
      apply IHs in E2.
      pose proof (skip_ws_length r2) as L2.
      destruct (skip_ws r2) as [|c2 r3]; [discriminate|]. simpl in L2.
      destruct (eqc c2 (ch "}")).
      { intros X; inversion X; subst. lia. }
      destruct (eqc c2 (ch ",")); [|discriminate].
      pose proof (skip_ws_length r3) as L3.
      destruct (skip_ws r3) as [|c3 r4]; [discriminate|]. simpl in L3.
      destruct (eqc c3 quote); [|discriminate].
      intros X. apply IHo in X. lia.
    + intros room s values v r. cbn [array_loop].
      destruct (scan_once f room s) as [v' r0| | |] eqn:E; try discriminate.
      apply IHs in E.
      pose proof (skip_ws_length r0) as L0.
      destruct (skip_ws r0) as [|c r1]; [discriminate|]. simpl in L0.
      destruct (eqc c (ch "]")).
      { intros X; inversion X; subst. lia. }
      destruct (eqc c (ch ",")); [|discriminate].
      pose proof (skip_ws_length r1) as L1.
      intros X. apply IHa in X. lia.
Qed.

Lemma match_number_fuel s : match_number s <> OutOfFuel.
Proof.
  unfold match_number.
  destruct (match s with
            | [] => (false, s)
            | c :: r => if eqc c (ch "-") then (true, r) else (false, s)
            end) as [neg s1].
  destruct (match_integer s1) as [[ip s2]|]; [|discriminate].
  destruct (match_fraction s2) as [frac s3].
  destruct (match_exponent s3) as [expo s4].
  destruct frac, expo; try destruct (int_too_long ip); discriminate.
Qed.

(** Two units of fuel for each character are enough. *)
Lemma scan_fuel fuel :
  (forall room s,
     2 * List.length s + 1 <= fuel -> scan_once fuel room s <> OutOfFuel)
  /\ (forall room s pairs,
        2 * List.length s + 2 <= fuel ->
        object_loop fuel room s pairs <> OutOfFuel)
  /\ (forall room s values,
        2 * List.length s + 2 <= fuel ->
        array_loop fuel room s values <> OutOfFuel).
Proof.
  induction fuel as [|f (IHs & IHo & IHa)].
  - repeat split; intros; lia.
  - destruct (scan_shorter f) as (Ss & So & Sa).
    repeat split.
    + intros room [|c s] L; [discriminate|]. cbn [scan_once]. simpl in L.
      destruct (eqc c quote).
      { destruct (scanstring s []) as [[x rest]|]; discriminate. }
      destruct (eqc c (ch "{")).
      { destruct room as [|deeper]; [discriminate|].
        pose proof (skip_ws_length s) as L'.
        destruct (skip_ws s) as [|c' r']; [discriminate|]. simpl in L'.
        destruct (eqc c' (ch "}")); [discriminate|].
        destruct (eqc c' quote); [|discriminate].
        apply IHo. lia. }
      destruct (eqc c (ch "[")).
      { destruct room as [|deeper]; [discriminate|].
        pose proof (skip_ws_length s) as L'.
        destruct (skip_ws s) as [|c' r']; [discriminate|]. simpl in L'.
        destruct (eqc c' (ch "]")); [discriminate|].
        apply IHa. simpl. lia. }
      destruct (match_constant (c :: s)) as [[v' rest]|]; [discriminate|].
      apply match_number_fuel.
    + intros room s pairs L. cbn [object_loop].
      destruct (scanstring s []) as [[key r0]|] eqn:E; [|discriminate].
      apply scanstring_shorter in E.
      pose proof (skip_ws_length r0) as L0.
      destruct (skip_ws r0) as [|c r1]; [discriminate|]. simpl in L0.
      destruct (eqc c (ch ":")); [|discriminate].
      pose proof (skip_ws_length r1) as L1.
      destruct (scan_once f room (skip_ws r1)) as [v' r2| | |] eqn:E2;
        try discriminate.
      * apply Ss in E2.
        pose proof (skip_ws_length r2) as L2.
        destruct (skip_ws r2) as [|c2 r3]; [discriminate|]. simpl in L2.
        destruct (eqc c2 (ch "}")); [discriminate|].
        destruct (eqc c2 (ch ",")); [|discriminate].
        pose proof (skip_ws_length r3) as L3.
        destruct (skip_ws r3) as [|c3 r4]; [discriminate|]. simpl in L3.
        destruct (eqc c3 quote); [|discriminate].
        apply IHo. lia.
      * exfalso. apply (IHs room (skip_ws r1)); [lia | exact E2].
    + intros room s values L. cbn [array_loop].
      destruct (scan_once f room s) as [v' r0| | |] eqn:E; try discriminate.
      * apply Ss in E.
        pose proof (skip_ws_length r0) as L0.
        destruct (skip_ws r0) as [|c r1]; [discriminate|]. simpl in L0.
        destruct (eqc c (ch "]")); [discriminate|].
        destruct (eqc c (ch ",")); [|discriminate].
        pose proof (skip_ws_length r1) as L1.
        apply IHa. lia.
      * exfalso. apply (IHs room s); [lia | exact E].
Qed.

(** [decode] never asks for more fuel: it ends with a value, with a
    [JSONDecodeError], or with the exception of a limit. *)
Lemma decode_total s : decode s <> OutOfFuel.
Proof.
  unfold decode, fuel_for.
  destruct (scan_once (2 * List.length s + 1) loads_depth (skip_ws s))
    as [v r| | |] eqn:E.
  - destruct (skip_ws r); discriminate.
  - discriminate.
  - discriminate.
  - exfalso. pose proof (skip_ws_length s).
    apply (proj1 (scan_fuel (2 * List.length s + 1)) loads_depth (skip_ws s));
      [lia | exact E].
Qed.

(** What the decoder raises besides [JSONDecodeError]. *)
Lemma match_number_fault s e : match_number s = Fault e -> e = ValueError.
Proof.
  unfold match_number.
  destruct (match s with
            | [] => (false, s)
            | c :: r => if eqc c (ch "-") then (true, r) else (false, s)
            end) as [neg s1].
  destruct (match_integer s1) as [[ip s2]|]; [|discriminate].
  destruct (match_fraction s2) as [frac s3].
  destruct (match_exponent s3) as [expo s4].
  destruct frac, expo; try destruct (int_too_long ip);
    intros X; inversion X; reflexivity.
Qed.

Lemma scan_fault fuel :
  (forall room s e,
     scan_once fuel room s = Fault e -> e = ValueError \/ e = RecursionError)
  /\ (forall room s pairs e,
        object_loop fuel room s pairs = Fault e ->
        e = ValueError \/ e = RecursionError)
  /\ (forall room s values e,
        array_loop fuel room s values = Fault e ->
        e = ValueError \/ e = RecursionError).
Proof.
  induction fuel as [|f (IHs & IHo & IHa)].
  - repeat split; intros; discriminate.
  - repeat split.
    + intros room [|c s] e; [discriminate|]. cbn [scan_once].
      destruct (eqc c quote).
      { destruct (scanstring s []) as [[x rest]|]; discriminate. }
      destruct (eqc c (ch "{")).
      { destruct room as [|deeper];
          [intros X; inversion X; right; reflexivity|].
        destruct (skip_ws s) as [|c' r']; [discriminate|].
        destruct (eqc c' (ch "}")); [discriminate|].
        destruct (eqc c' quote); [|discriminate].
        apply IHo. }
      destruct (eqc c (ch "[")).
      { destruct room as [|deeper];
          [intros X; inversion X; right; reflexivity|].
        destruct (skip_ws s) as [|c' r']; [discriminate|].
        destruct (eqc c' (ch "]")); [discriminate|].
        apply IHa. }
      destruct (match_constant (c :: s)) as [[v' rest]|]; [discriminate|].
      intros X. left. exact (match_number_fault _ _ X).
    + intros room s pairs e. cbn [object_loop].
      destruct (scanstring s []) as [[key r0]|]; [|discriminate].
      destruct (skip_ws r0) as [|c r1]; [discriminate|].
      destruct (eqc c (ch ":")); [|discriminate].
      destruct (scan_once f room (skip_ws r1)) as [v' r2| |e'|] eqn:E2;
        try discriminate.
      * destruct (skip_ws r2) as [|c2 r3]; [discriminate|].
        destruct (eqc c2 (ch "}")); [discriminate|].
        destruct (eqc c2 (ch ",")); [|discriminate].
        destruct (skip_ws r3) as [|c3 r4]; [discriminate|].
        destruct (eqc c3 quote); [|discriminate].
        apply IHo.
      * intros X; inversion X; subst. exact (IHs _ _ _ E2).
    + intros room s values e. cbn [array_loop].
      destruct (scan_once f room s) as [v' r0| |e'|] eqn:E; try discriminate.
      * destruct (skip_ws r0) as [|c r1]; [discriminate|].
        destruct (eqc c (ch "]")); [discriminate|].
        destruct (eqc c (ch ",")); [|discriminate].
        apply IHa.
      * intros X; inversion X; subst. exact (IHs _ _ _ E).
Qed.

Lemma loads_raises s e :
  loads s = Raised e ->
  e = JSONDecodeError \/ e = ValueError \/ e = RecursionError.
Proof.
  unfold loads. pose proof (decode_total s) as T. revert T. unfold decode.
  destruct (scan_once (fuel_for s) loads_depth (skip_ws s))
    as [v r| |e'|] eqn:E.
  - destruct (skip_ws r); intros _ X; inversion X. left; reflexivity.
  - intros _ X; inversion X. left; reflexivity.
  - intros _ X; inversion X; subst. right.
    exact (proj1 (scan_fault _) _ _ _ E).
  - congruence.
Qed.

(** A text that starts with an opening brace decodes, if at all, to a
    [dict]. *)
Lemma loads_brace_dict s v :
  loads (ch "{" :: s) = Returned v -> is_dict v = true.
Proof.
  unfold loads, decode, fuel_for.
  change (skip_ws (ch "{" :: s)) with (ch "{" :: s).
  destruct (scan_once _ _ _) as [v' r| | |] eqn:E; try discriminate.
  destruct (skip_ws r); [|discriminate]. intros X; inversion X; subst v'.
  clear X. revert E.
  set (fuel := 2 * List.length (ch "{" :: s) + 1).
  destruct fuel as [|f]; [discriminate|].
  cbn [scan_once].
  change (eqc (ch "{") quote) with false.
  change (eqc (ch "{") (ch "{")) with true. cbv iota.
  destruct loads_depth as [|deeper]; [discriminate|].
  destruct (skip_ws s) as [|c' r']; [discriminate|].
  destruct (eqc c' (ch "}")); [intros X; inversion X; reflexivity|].
  destruct (eqc c' quote); [|discriminate].
  generalize r' (@nil (list N * json)) v r. clear.
  induction f as [|f IH]; intros s pairs v r; [discriminate|].
  cbn [object_loop].
  repeat split_match; try discriminate.
  - intros X; inversion X; reflexivity.
  - apply IH.
Qed.

End WithInterpreter.

End DecoderFacts.

(** ** Stripping, counting and substituting *)

Module TextFacts.

Lemma count_app c a b : count c (a ++ b) = count c a + count c b.
Proof. induction a as [|x a IH]; simpl; [reflexivity|]. rewrite IH; lia. Qed.

Lemma count_rev c s : count c (rev s) = count c s.
Proof.
  induction s as [|x s IH]; simpl; [reflexivity|].
  rewrite count_app, IH. simpl. lia.
Qed.

Lemma count_times c x n :
  count c (times x n) = if eqc x c then n else 0.
Proof.
  unfold times. induction n as [|n IH]; simpl.
  - destruct (eqc x c); reflexivity.
  - rewrite IH. destruct (eqc x c); reflexivity.
Qed.

Lemma count_firstn_skipn c n s :
  count c (firstn n s) + count c (skipn n s) = count c s.
Proof.
  rewrite <- count_app, firstn_skipn. reflexivity.
Qed.

(** Dropping characters that are not [c] keeps the count of [c]. *)
Lemma count_drop_while p c s :
  p c = false -> count c (drop_while p s) = count c s.
Proof.
  intros Hp. induction s as [|x s IH]; simpl; [reflexivity|].
  destruct (p x) eqn:Px; [|reflexivity].
  rewrite IH. destruct (eqc x c) eqn:E; [|reflexivity].
  apply eqc_eq in E; subst; congruence.
Qed.

Lemma count_rstrip_by p c s :
  p c = false -> count c (rstrip_by p s) = count c s.
Proof.
  intros Hp. unfold rstrip_by.
  rewrite count_rev, count_drop_while, count_rev by assumption. reflexivity.
Qed.

Lemma count_strip c s :
  is_space c = false -> count c (strip s) = count c s.
Proof.
  intros Hc. unfold strip, lstrip_by.
  rewrite count_rstrip_by, count_drop_while by assumption. reflexivity.
Qed.

Lemma count_strip_chars chars c s :
  mem c chars = false -> count c (strip_chars chars s) = count c s.
Proof.
  intros Hc. unfold strip_chars, lstrip_by.
  rewrite count_rstrip_by, count_drop_while by assumption. reflexivity.
Qed.

Lemma drop_while_head p c s : p c = false -> drop_while p (c :: s) = c :: s.
Proof. intros E; simpl; rewrite E; reflexivity. Qed.

Lemma rev_last (s : list N) d :
  s <> [] -> rev s = last s d :: rev (removelast s).
Proof.
  intros Hs. rewrite (app_removelast_last d Hs) at 1.
  rewrite rev_app_distr. reflexivity.
Qed.

Lemma strip_by_kept p s :
  kept_ends p s = true -> rstrip_by p (lstrip_by p s) = s.
Proof.
  unfold kept_ends, rstrip_by, lstrip_by.
  destruct s as [|c s]; [reflexivity|].
  rewrite andb_true_iff, !negb_true_iff. intros [Hc He].
  rewrite (drop_while_head _ _ _ Hc).
  rewrite (rev_last (c :: s) c) by discriminate.
  rewrite (drop_while_head _ _ _ He).
  rewrite <- (rev_last (c :: s) c) by discriminate.
  apply rev_involutive.
Qed.

Lemma kept_ends_weaken (p q : N -> bool) s :
  (forall c, q c = true -> p c = true) ->
  kept_ends p s = true -> kept_ends q s = true.
Proof.
  intros Hpq. unfold kept_ends. destruct s as [|c s]; [reflexivity|].
  rewrite !andb_true_iff, !negb_true_iff. intros [Hc He]. split.
  - destruct (q c) eqn:E; [apply Hpq in E; congruence | reflexivity].
  - destruct (q (last (c :: s) c)) eqn:E; [apply Hpq in E; congruence | reflexivity].
Qed.

Lemma strips_kept s :
  kept_ends marker_or_space s = true ->
  strip_chars (str "```") (strip_chars (str "```json") (strip s)) = s.
Proof.
  intros K. unfold strip, strip_chars.
  rewrite (strip_by_kept is_space s).
  2:{ revert K. apply kept_ends_weaken. intros c E. unfold marker_or_space.
      rewrite E. reflexivity. }
  rewrite (strip_by_kept _ s).
  2:{ revert K. apply kept_ends_weaken. intros c E. unfold marker_or_space.
      rewrite E. apply orb_true_r. }
  apply strip_by_kept.
  revert K. apply kept_ends_weaken. intros c E. unfold marker_or_space.
  apply orb_true_iff. right.
  cbn in E |- *. rewrite !orb_true_iff in E |- *. intuition discriminate.
Qed.

(** Skipping part of a match is the same as starting after it. *)
Lemma sub_from_skipn m k s : Re.sub_from m k s = Re.sub_from m 0 (skipn k s).
Proof.
  revert s; induction k as [|k IH]; intros s; [reflexivity|].
  destruct s as [|c r]; [reflexivity|]. simpl. apply IH.
Qed.

Lemma sub_cons_match m c r len repl :
  m (c :: r) = Some (len, repl) ->
  Re.sub m (c :: r) = repl ++ Re.sub m (skipn (len - 1) r).
Proof.
  intros E. unfold Re.sub. simpl. rewrite E, sub_from_skipn. reflexivity.
Qed.

Lemma sub_cons_nomatch m c r :
  m (c :: r) = None -> Re.sub m (c :: r) = c :: Re.sub m r.
Proof. intros E. unfold Re.sub. simpl. rewrite E. reflexivity. Qed.

(** A text in which the pattern does not occur is left as it is. *)
Lemma sub_no_occurrence m s : Re.occurs m s = false -> Re.sub m s = s.
Proof.
  induction s as [|c r IH]; [reflexivity|].
  simpl. destruct (m (c :: r)) eqn:E; [discriminate|]. simpl. intros O.
  rewrite (sub_cons_nomatch _ _ _ E), (IH O). reflexivity.
Qed.

(** When each match is replaced by a text with as many [c], the count of [c]
    is kept. *)
Lemma sub_count m c :
  (forall s len repl, m s = Some (len, repl) ->
     1 <= len /\ count c repl = count c (firstn len s)) ->
  forall s, count c (Re.sub m s) = count c s.
Proof.
  intros Hm s.
  remember (List.length s) as n eqn:Hn.
  revert s Hn. induction n as [n IH] using lt_wf_ind. intros s Hn.
  destruct s as [|x r]; [reflexivity|].
  destruct (m (x :: r)) as [[len repl]|] eqn:E.
  - rewrite (sub_cons_match _ _ _ _ _ E), count_app.
    destruct (Hm _ _ _ E) as [L C]. rewrite C.
    rewrite (IH (List.length (skipn (len - 1) r))); [| |reflexivity].
    + replace (skipn (len - 1) r) with (skipn len (x :: r)).
      * apply count_firstn_skipn.
      * destruct len; [lia|]. simpl. rewrite Nat.sub_0_r. reflexivity.
    + subst n. rewrite length_skipn. simpl. lia.
  - rewrite (sub_cons_nomatch _ _ _ E). simpl.
    rewrite (IH (List.length r)); [reflexivity| |reflexivity].
    subst n; simpl; lia.
Qed.

(** The whitespace a pattern passes over. *)
Lemma count_span_space c r :
  is_space c = false -> count c (firstn (span_space r) r) = 0.
Proof.
  intros Hc. induction r as [|x r IH]; [reflexivity|].
  simpl. destruct (is_space x) eqn:Sx; [|reflexivity].
  simpl. rewrite IH. destruct (eqc x c) eqn:E; [|reflexivity].
  apply eqc_eq in E; subst; congruence.
Qed.

Lemma firstn_span_next r x rest :
  skipn (span_space r) r = x :: rest ->
  firstn (span_space r + 1) r = firstn (span_space r) r ++ [x].
Proof.
  induction r as [|y r IH]; simpl; [discriminate|].
  destruct (is_space y); simpl.
  - intros E. rewrite (IH E). reflexivity.
  - intros E; inversion E; reflexivity.
Qed.

Lemma comma_closer_count c :
  is_space c = false -> c <> ch "," ->
  forall s len repl, Re.comma_closer s = Some (len, repl) ->
    1 <= len /\ count c repl = count c (firstn len s).
Proof.
  intros Hs Hc s len repl. unfold Re.comma_closer.
  destruct s as [|x r]; [discriminate|].
  destruct (eqc x (ch ",")) eqn:Ex; [|discriminate].
  destruct (skipn (span_space r) r) as [|cl rest] eqn:Er; [discriminate|].
  destruct (Re.is_closer cl); [|discriminate].
  intros X; inversion X; subst. split; [lia|].
  replace (span_space r + 2) with (S (span_space r + 1)) by lia.
  cbn [firstn count]. rewrite (firstn_span_next _ _ _ Er), count_app.
  rewrite (count_span_space _ _ Hs).
  apply eqc_eq in Ex; subst x.
  destruct (eqc (ch ",") c) eqn:E; [apply eqc_eq in E; congruence|].
  reflexivity.
Qed.

Lemma bracket_comma_count c :
  is_space c = false -> c <> ch "," ->
  forall s len repl, Re.bracket_comma s = Some (len, repl) ->
    1 <= len /\ count c repl = count c (firstn len s).
Proof.
  intros Hs Hc s len repl. unfold Re.bracket_comma.
  destruct s as [|x r]; [discriminate|].
  destruct (eqc x (ch "[")) eqn:Ex; [|discriminate].
  destruct (skipn (span_space r) r) as [|y rest] eqn:Er; [discriminate|].
  destruct (eqc y (ch ",")) eqn:Ey; [|discriminate].
  intros X; inversion X; subst. split; [lia|].
  replace (span_space r + 2) with (S (span_space r + 1)) by lia.
  cbn [firstn count]. rewrite (firstn_span_next _ _ _ Er), count_app.
  rewrite (count_span_space _ _ Hs).
  apply eqc_eq in Ex, Ey; subst x y. cbn [count].
  destruct (eqc (ch ",") c) eqn:E; [apply eqc_eq in E; congruence|].
  lia.
Qed.

Lemma structural_cases c :
  structural c = true ->
  is_space c = false /\ c <> ch "," /\ mem c (str "```json") = false
  /\ mem c (str "```") = false.
Proof.
  unfold structural. rewrite !orb_true_iff, !eqc_eq.
  intros [[[-> | ->] | ->] | ->]; repeat split; try reflexivity; discriminate.
Qed.

(** Cleaning keeps the braces and the brackets. *)
Lemma cleaned_text_count c s :
  structural c = true -> count c (cleaned_text s) = count c s.
Proof.
  intros Hc. destruct (structural_cases _ Hc) as (Hs & Hn & Hj & Hf).
  unfold cleaned_text.
  rewrite (sub_count _ _ (bracket_comma_count _ Hs Hn)).
  rewrite (sub_count _ _ (comma_closer_count _ Hs Hn)).
  rewrite (count_strip_chars _ _ _ Hf), (count_strip_chars _ _ _ Hj).
  apply count_strip; assumption.
Qed.

(** A text that needs no cleaning. *)
Lemma cleaned_text_unchanged s :
  kept_ends marker_or_space s = true ->
  Re.occurs Re.comma_closer s = false ->
  Re.occurs Re.bracket_comma s = false ->
  cleaned_text s = s.
Proof.
  intros K C B. unfold cleaned_text.
  rewrite (strips_kept s K), (sub_no_occurrence _ s C).
  apply sub_no_occurrence; assumption.
Qed.

(** Balancing, in one formula: with the truncated subtraction of [nat], at
    most one of the two runs of braces and one of the two runs of brackets
    is not empty. *)
Lemma balanced_text_runs s :
  balanced_text s
  = times (ch "[") (count (ch "]") s - count (ch "[") s)
    ++ (times (ch "{") (count (ch "}") s - count (ch "{") s)
        ++ s ++ times (ch "}") (count (ch "{") s - count (ch "}") s))
    ++ times (ch "]") (count (ch "[") s - count (ch "]") s).
Proof.
  unfold balanced_text.
  set (ob := count (ch "{") s). set (cb := count (ch "}") s).
  set (ok := count (ch "[") s). set (ck := count (ch "]") s).
  assert (Z : forall c a b, (a <? b) = false -> times c (b - a) = []).
  { intros c a b E. apply Nat.ltb_ge in E.
    replace (b - a) with 0 by lia. reflexivity. }
  destruct (cb <? ob) eqn:E1; destruct (ob <? cb) eqn:E2;
    destruct (ck <? ok) eqn:E3; destruct (ok <? ck) eqn:E4;
    try (apply Nat.ltb_lt in E1, E2; lia);
    try (apply Nat.ltb_lt in E3, E4; lia);
    repeat match goal with
    | E : (?a <? ?b) = false |- _ => rewrite (Z _ a b E); clear E
    end;
    cbn [app]; rewrite ?app_nil_r, <- ?app_assoc; reflexivity.
Qed.

(** Balancing a text whose counts agree. *)
Lemma balanced_text_balanced s :
  count (ch "{") s = count (ch "}") s ->
  count (ch "[") s = count (ch "]") s ->
  balanced_text s = s.
Proof.
  intros Hb Hk. unfold balanced_text. rewrite Hb, Hk.
  rewrite !Nat.ltb_irrefl. reflexivity.
Qed.

(** Finding the outer braces. *)
Lemma from_first_absent c s : count c s = 0 -> from_first c s = None.
Proof.
  induction s as [|x s IH]; simpl; [reflexivity|].
  destruct (eqc x c); [discriminate | exact IH].
Qed.

Lemma from_first_app c pre s :
  count c pre = 0 -> from_first c (pre ++ c :: s) = Some (c :: s).
Proof.
  induction pre as [|x pre IH]; simpl.
  - rewrite eqc_refl. reflexivity.
  - destruct (eqc x c); [discriminate | exact IH].
Qed.

Lemma upto_last_app c body post :
  count c post = 0 -> upto_last c (body ++ c :: post) = Some (body ++ [c]).
Proof.
  intros Hp. unfold upto_last.
  rewrite rev_app_distr. simpl. rewrite <- app_assoc. simpl.
  rewrite from_first_app by (rewrite count_rev; exact Hp).
  simpl. rewrite rev_involutive. reflexivity.
Qed.

Lemma search_braces_absent text :
  count (ch "{") text = 0 -> Re.search_braces text = None.
Proof.
  intros Hc. unfold Re.search_braces. rewrite (from_first_absent _ _ Hc).
  reflexivity.
Qed.

Lemma search_braces_delimited pre body post :
  count (ch "{") pre = 0 -> count (ch "}") post = 0 ->
  Re.search_braces (pre ++ (ch "{" :: body ++ [ch "}"]) ++ post)
  = Some (ch "{" :: body ++ [ch "}"]).
Proof.
  intros Hpre Hpost. unfold Re.search_braces.
  simpl app. rewrite (from_first_app _ _ _ Hpre).
  rewrite <- app_assoc. simpl app.
  rewrite (upto_last_app _ _ _ Hpost). reflexivity.
Qed.

Lemma from_first_head c s t :
  from_first c s = Some t -> exists r, t = c :: r.
Proof.
  induction s as [|x s IH]; simpl; [discriminate|].
  destruct (eqc x c) eqn:E; [|exact IH].
  apply eqc_eq in E; subst x. intros X; inversion X; subst. exists s; reflexivity.
Qed.

(** What [extract_json] hands to the repair starts with an opening brace and
    ends with a closing one: the strips of the repair remove nothing of it. *)
Lemma search_braces_kept_ends text t :
  Re.search_braces text = Some t -> kept_ends marker_or_space t = true.
Proof.
  unfold Re.search_braces.
  destruct (from_first (ch "{") text) as [[|c r]|] eqn:F; try discriminate.
  destruct (from_first_head _ _ _ F) as [r' E]. inversion E; subst c r'.
  unfold upto_last.
  destruct (from_first (ch "}") (rev r)) as [u|] eqn:L; [|discriminate].
  destruct (from_first_head _ _ _ L) as [u' ->].
  simpl. intros X; inversion X; subst t.
  unfold kept_ends.
  change (last (ch "{" :: rev u' ++ [ch "}"]) (ch "{"))
    with (last ((ch "{" :: rev u') ++ [ch "}"]) (ch "{")).
  rewrite last_last. reflexivity.
Qed.

End TextFacts.

(** ** Trailing commas *)

Module TrailingCommas.
Import TextFacts.

Lemma comma_closer_None c r :
  eqc c (ch ",") && closer_next r = false -> Re.comma_closer (c :: r) = None.
Proof.
  unfold Re.comma_closer, closer_next.
  destruct (eqc c (ch ",")); [|reflexivity]. simpl.
  destruct (skipn (span_space r) r) as [|cl rest]; [reflexivity|].
  intros ->. reflexivity.
Qed.

Lemma comma_closer_None_inv c r :
  Re.comma_closer (c :: r) = None -> eqc c (ch ",") && closer_next r = false.
Proof.
  unfold Re.comma_closer, closer_next.
  destruct (eqc c (ch ",")); [|reflexivity]. simpl.
  destruct (skipn (span_space r) r) as [|cl rest]; [reflexivity|].
  destruct (Re.is_closer cl); [discriminate | reflexivity].
Qed.

Lemma is_closer_not_space c : Re.is_closer c = true -> is_space c = false.
Proof.
  unfold Re.is_closer. rewrite orb_true_iff, !eqc_eq.
  intros [-> | ->]; reflexivity.
Qed.

Lemma closer_next_cons c r :
  closer_next (c :: r) = if is_space c then closer_next r else Re.is_closer c.
Proof. unfold closer_next. simpl. destruct (is_space c); reflexivity. Qed.

(** Adding commas brings no closer nearer to the front. *)
Lemma closer_next_with_commas mask d :
  closer_next (with_trailing_commas mask d) = true -> closer_next d = true.
Proof.
  revert mask; induction d as [|c r IH]; intros mask; [discriminate|].
  simpl. destruct (hd false mask && Re.is_closer c).
  - rewrite closer_next_cons. discriminate.
  - rewrite !closer_next_cons. destruct (is_space c); [apply IH | trivial].
Qed.

(** The first substitution takes out the commas that were added, and only
    them. *)
Lemma sub_with_trailing_commas mask d :
  Re.occurs Re.comma_closer d = false ->
  Re.sub Re.comma_closer (with_trailing_commas mask d) = d.
Proof.
  revert mask; induction d as [|c r IH]; intros mask O; [reflexivity|].
  cbn [Re.occurs] in O. apply orb_false_iff in O. destruct O as [M O].
  destruct (Re.comma_closer (c :: r)) eqn:Ec; [discriminate|]. clear M.
  cbn [with_trailing_commas]. destruct (hd false mask && Re.is_closer c) eqn:Em.
  - apply andb_true_iff in Em. destruct Em as [_ Cl].
    assert (E : Re.comma_closer (ch "," :: c :: with_trailing_commas (tl mask) r)
                = Some (2, [c])).
    { unfold Re.comma_closer. rewrite eqc_refl. simpl.
      rewrite (is_closer_not_space _ Cl). simpl. rewrite Cl. reflexivity. }
    rewrite (sub_cons_match _ _ _ _ _ E). simpl. rewrite (IH _ O). reflexivity.
  - rewrite sub_cons_nomatch.
    + rewrite (IH _ O). reflexivity.
    + apply comma_closer_None. apply comma_closer_None_inv in Ec.
      destruct (eqc c (ch ",")); [|reflexivity]. simpl in *.
      destruct (closer_next (with_trailing_commas (tl mask) r)) eqn:N;
        [|reflexivity].
      apply closer_next_with_commas in N. congruence.
Qed.

Lemma last_with_trailing_commas mask d x :
  last (with_trailing_commas mask d) x = last d x.
Proof.
  revert mask x; induction d as [|c r IH]; intros mask x; [reflexivity|].
  assert (L : last (c :: with_trailing_commas (tl mask) r) x = last (c :: r) x).
  { destruct r as [|y r]; [reflexivity|].
    change (last (c :: y :: r) x) with (last (y :: r) x).
    rewrite <- (IH (tl mask) x).
    cbn [with_trailing_commas].
    destruct (hd false (tl mask) && Re.is_closer y); reflexivity. }
  cbn [with_trailing_commas]. destruct (hd false mask && Re.is_closer c).
  - change (last (ch "," :: c :: with_trailing_commas (tl mask) r) x)
      with (last (c :: with_trailing_commas (tl mask) r) x). exact L.
  - exact L.
Qed.

Lemma last_default (l : list N) a b : l <> [] -> last l a = last l b.
Proof.
  induction l as [|x l IH]; [congruence|]. intros _.
  destruct l as [|y l]; [reflexivity|].
  change (last (y :: l) a = last (y :: l) b). apply IH. discriminate.
Qed.

Lemma kept_ends_with_trailing_commas mask d :
  kept_ends marker_or_space d = true ->
  kept_ends marker_or_space (with_trailing_commas mask d) = true.
Proof.
  destruct d as [|c r]; [reflexivity|].
  unfold kept_ends at 1. rewrite andb_true_iff. intros [Hc He].
  simpl with_trailing_commas. destruct (hd false mask && Re.is_closer c).
  - unfold kept_ends.
    change (last (ch "," :: c :: with_trailing_commas (tl mask) r) (ch ","))
      with (last (c :: with_trailing_commas (tl mask) r) (ch ",")).
    replace (c :: with_trailing_commas (tl mask) r)
      with (with_trailing_commas (false :: tl mask) (c :: r)) by reflexivity.
    rewrite last_with_trailing_commas.
    rewrite (last_default (c :: r) (ch ",") c) by discriminate.
    rewrite He. reflexivity.
  - unfold kept_ends.
    replace (c :: with_trailing_commas (tl mask) r)
      with (with_trailing_commas (false :: tl mask) (c :: r)) by reflexivity.
    rewrite last_with_trailing_commas, Hc, He. reflexivity.
Qed.

End TrailingCommas.

(** ** What the decoder consumes *)

Module SuffixFacts.

(** [r] is what is left of [s] after some characters. *)
Definition suffix (r s : pystr) : Prop := exists pre, s = pre ++ r.

Lemma suffix_refl s : suffix s s.
Proof. exists []; reflexivity. Qed.

Lemma suffix_cons c r s : suffix r s -> suffix r (c :: s).
Proof. intros [pre ->]. exists (c :: pre); reflexivity. Qed.

Lemma suffix_trans a b c : suffix a b -> suffix b c -> suffix a c.
Proof.
  intros [p ->] [q ->]. exists (q ++ p). rewrite app_assoc. reflexivity.
Qed.

Lemma suffix_app pre s : suffix s (pre ++ s).
Proof. exists pre; reflexivity. Qed.

Lemma drop_while_suffix p s : suffix (drop_while p s) s.
Proof.
  induction s as [|c s IH]; simpl; [apply suffix_refl|].
  destruct (p c); [apply suffix_cons, IH | apply suffix_refl].
Qed.

Lemma skip_ws_suffix s : suffix (skip_ws s) s.
Proof. apply drop_while_suffix. Qed.

Lemma strip_prefix_suffix p s r : strip_prefix p s = Some r -> suffix r s.
Proof.
  revert s; induction p as [|x p IH]; intros [|y s]; simpl; intros E;
    try discriminate; try (inversion E; subst; apply suffix_refl).
  destruct (eqc x y); [|discriminate]. apply suffix_cons, (IH _ E).
Qed.

Lemma match_constant_suffix s v r : match_constant s = Some (v, r) -> suffix r s.
Proof.
  unfold match_constant.
  repeat match goal with
  | |- context [strip_prefix ?p s] =>
      let E := fresh "E" in
      destruct (strip_prefix p s) eqn:E;
      [ apply strip_prefix_suffix in E; intros X; inversion X; subst; exact E | ]
  end.
  discriminate.
Qed.

Lemma match_integer_suffix s d r : match_integer s = Some (d, r) -> suffix r s.
Proof.
  destruct s as [|c s]; simpl; [discriminate|].
  destruct ((49 <=? c)%N && (c <=? 57)%N).
  - intros X; inversion X; subst. apply suffix_cons, drop_while_suffix.
  - destruct (eqc c (ch "0")); intros X; inversion X; subst.
    apply suffix_cons, suffix_refl.
Qed.

Lemma match_fraction_suffix s : suffix (snd (match_fraction s)) s.
Proof.
  destruct s as [|p [|d r]]; simpl; try apply suffix_refl.
  destruct (eqc p (ch ".") && is_digit d); simpl; [|apply suffix_refl].
  apply suffix_cons, suffix_cons, drop_while_suffix.
Qed.

Lemma match_exponent_suffix s : suffix (snd (match_exponent s)) s.
Proof.
  unfold match_exponent.
  destruct s as [|e r]; [apply suffix_refl|].
  destruct (eqc e (ch "e") || eqc e (ch "E")); [|apply suffix_refl].
  assert (P : forall sign r', suffix r' r ->
    suffix (snd (match take_while is_digit r' with
                 | [] => ([], e :: r)
                 | c :: l => (e :: sign ++ c :: l, drop_while is_digit r')
                 end)) (e :: r)).
  { intros sign r' S. destruct (take_while is_digit r'); simpl.
    - apply suffix_refl.
    - apply suffix_cons. eapply suffix_trans; [apply drop_while_suffix | exact S]. }
  destruct r as [|g r']; [apply P, suffix_refl|].
  destruct (eqc g (ch "-") || eqc g (ch "+")); apply P.
  - apply suffix_cons, suffix_refl.
  - apply suffix_refl.
Qed.

Section NumberSuffix.
Context {I : Interpreter}.

Lemma match_number_suffix s v r : match_number s = Ok v r -> suffix r s.
Proof.
  unfold match_number.
  assert (P : forall (neg : bool) s1, suffix s1 s ->
    match match_integer s1 with
    | None => DecodeError
    | Some (int_part, s2) =>
        let '(frac, s3) := match_fraction s2 in
        let '(expo, s4) := match_exponent s3 in
        match frac, expo with
        | [], [] =>
            if int_too_long int_part then Fault ValueError
            else
              let n := int_of_digits int_part in
              Ok (JInt (if neg then (- n)%Z else n)) s4
        | _, _ => Ok (JFloat (FDecimal neg int_part frac expo)) s4
        end
    end = Ok v r -> suffix r s).
  { intros neg s1 S1.
    destruct (match_integer s1) as [[ip s2]|] eqn:E1; [|discriminate].
    apply match_integer_suffix in E1.
    pose proof (match_fraction_suffix s2) as S2.
    destruct (match_fraction s2) as [frac s3]. simpl in S2.
    pose proof (match_exponent_suffix s3) as S3.
    destruct (match_exponent s3) as [expo s4]. simpl in S3.
    assert (S4 : suffix s4 s)
      by (eapply suffix_trans; [exact S3|]; eapply suffix_trans; [exact S2|];
          eapply suffix_trans; [exact E1 | exact S1]).
    destruct frac, expo; try destruct (int_too_long ip);
      intros X; inversion X; subst; exact S4. }
  destruct s as [|c s'].
  - exact (P false [] (suffix_refl _)).
  - destruct (eqc c (ch "-")).
    + exact (P true s' (suffix_cons _ _ _ (suffix_refl _))).
    + exact (P false (c :: s') (suffix_refl _)).
Qed.

End NumberSuffix.

Lemma scanstring_suffix_upto n :
  forall s acc x r, List.length s <= n ->
    scanstring s acc = Some (x, r) -> suffix r s.
Proof.
  induction n as [|n IH]; intros s acc x r L.
  - destruct s; [discriminate | simpl in L; lia].
  - destruct s as [|c s]; [discriminate|].
    cbn [scanstring]. simpl in L.
    repeat DecoderFacts.split_match; subst; try discriminate;
      intros E;
      try (inversion E; subst; apply suffix_cons, suffix_refl);
      (apply IH in E;
       [ repeat (first [exact E | apply suffix_cons]) | simpl in *; lia ]).
Qed.

Lemma scanstring_suffix s acc x r :
  scanstring s acc = Some (x, r) -> suffix r s.
Proof. apply (scanstring_suffix_upto (List.length s)); lia. Qed.

Section WithInterpreter.
Context {I : Interpreter}.

Lemma scan_suffix fuel :
  (forall room s v r, scan_once fuel room s = Ok v r -> suffix r s)
  /\ (forall room s pairs v r,
        object_loop fuel room s pairs = Ok v r -> suffix r s)
  /\ (forall room s values v r,
        array_loop fuel room s values = Ok v r -> suffix r s).
Proof.
  induction fuel as [|f (IHs & IHo & IHa)].
  - repeat split; intros; discriminate.
  - repeat split.
    + intros room [|c s] v r; [discriminate|]. cbn [scan_once].
      destruct (eqc c quote).
      { destruct (scanstring s []) as [[x rest]|] eqn:E; [|discriminate].
        apply scanstring_suffix in E. intros X; inversion X; subst.
        apply suffix_cons, E. }
      destruct (eqc c (ch "{")).
      { destruct room as [|deeper]; [discriminate|].
        pose proof (skip_ws_suffix s) as L.
        destruct (skip_ws s) as [|c' r']; [discriminate|].
        destruct (eqc c' (ch "}")).
        { intros X; inversion X; subst.
          apply suffix_cons. eapply suffix_trans; [|exact L].
          apply suffix_cons, suffix_refl. }
        destruct (eqc c' quote); [|discriminate].
        intros X. apply IHo in X. apply suffix_cons.
        eapply suffix_trans; [|exact L]. apply suffix_cons, X. }
      destruct (eqc c (ch "[")).
      { destruct room as [|deeper]; [discriminate|].
        pose proof (skip_ws_suffix s) as L.
        destruct (skip_ws s) as [|c' r']; [discriminate|].
        destruct (eqc c' (ch "]")).
        { intros X; inversion X; subst.
          apply suffix_cons. eapply suffix_trans; [|exact L].
          apply suffix_cons, suffix_refl. }
        intros X. apply IHa in X. apply suffix_cons.
        eapply suffix_trans; [exact X | exact L]. }
      destruct (match_constant (c :: s)) as [[v' rest]|] eqn:E.
      { apply match_constant_suffix in E. intros X; inversion X; subst. exact E. }
      apply match_number_suffix.
    + intros room s pairs v r. cbn [object_loop].
      destruct (scanstring s []) as [[key r0]|] eqn:E; [|discriminate].
      apply scanstring_suffix in E.
      pose proof (skip_ws_suffix r0) as L0.
      destruct (skip_ws r0) as [|c r1]; [discriminate|].
      destruct (eqc c (ch ":")); [|discriminate].
      pose proof (skip_ws_suffix r1) as L1.
      destruct (scan_once f room (skip_ws r1)) as [v' r2| | |] eqn:E2;
        try discriminate.
      apply IHs in E2.
      assert (S2 : suffix r2 s).
      { eapply suffix_trans; [exact E2|]. eapply suffix_trans; [exact L1|].
        eapply suffix_trans; [|exact E]. eapply suffix_trans; [|exact L0].
        apply suffix_cons, suffix_refl. }
      pose proof (skip_ws_suffix r2) as L2.
      destruct (skip_ws r2) as [|c2 r3]; [discriminate|].
      assert (S3 : suffix r3 s).
      { eapply suffix_trans; [|exact S2]. eapply suffix_trans; [|exact L2].
        apply suffix_cons, suffix_refl. }
      destruct (eqc c2 (ch "}")).
      { intros X; inversion X; subst. exact S3. }
      destruct (eqc c2 (ch ",")); [|discriminate].
      pose proof (skip_ws_suffix r3) as L3.
      destruct (skip_ws r3) as [|c3 r4]; [discriminate|].
      destruct (eqc c3 quote); [|discriminate].
      intros X. apply IHo in X.
      eapply suffix_trans; [exact X|]. eapply suffix_trans; [|exact S3].
      eapply suffix_trans; [|exact L3]. apply suffix_cons, suffix_refl.
    + intros room s values v r. cbn [array_loop].
      destruct (scan_once f room s) as [v' r0| | |] eqn:E; try discriminate.
      apply IHs in E.
      pose proof (skip_ws_suffix r0) as L0.
      destruct (skip_ws r0) as [|c r1]; [discriminate|].
      assert (S1 : suffix r1 s).
      { eapply suffix_trans; [|exact E]. eapply suffix_trans; [|exact L0].
        apply suffix_cons, suffix_refl. }
      destruct (eqc c (ch "]")).
      { intros X; inversion X; subst. exact S1. }
      destruct (eqc c (ch ",")); [|discriminate].
      intros X. apply IHa in X.
      eapply suffix_trans; [exact X|]. eapply suffix_trans; [|exact S1].
      apply skip_ws_suffix.
Qed.

(** A loop returns after the closer of its array or object. *)
Lemma array_loop_closes fuel :
  forall room s values v r,
    array_loop fuel room s values = Ok v r -> suffix (ch "]" :: r) s.
Proof.
  induction fuel as [|f IH]; intros room s values v r; [discriminate|].
  cbn [array_loop].
  destruct (scan_once f room s) as [v' r0| | |] eqn:E; try discriminate.
  apply (proj1 (scan_suffix f)) in E.
  pose proof (skip_ws_suffix r0) as L0.
  destruct (skip_ws r0) as [|c r1]; [discriminate|].
  destruct (eqc c (ch "]")) eqn:Ec.
  { apply eqc_eq in Ec; subst c. intros X; inversion X; subst.
    eapply suffix_trans; [exact L0 | exact E]. }
  destruct (eqc c (ch ",")); [|discriminate].
  intros X. apply IH in X.
  eapply suffix_trans; [exact X|]. eapply suffix_trans; [apply skip_ws_suffix|].
  eapply suffix_trans; [|exact E]. eapply suffix_trans; [|exact L0].
  apply suffix_cons, suffix_refl.
Qed.

Lemma object_loop_closes fuel :
  forall room s pairs v r,
    object_loop fuel room s pairs = Ok v r -> suffix (ch "}" :: r) s.
Proof.
  induction fuel as [|f IH]; intros room s pairs v r; [discriminate|].
  cbn [object_loop].
  destruct (scanstring s []) as [[key r0]|] eqn:E; [|discriminate].
  apply scanstring_suffix in E.
  pose proof (skip_ws_suffix r0) as L0.
  destruct (skip_ws r0) as [|c r1]; [discriminate|].
  destruct (eqc c (ch ":")); [|discriminate].
  pose proof (skip_ws_suffix r1) as L1.
  destruct (scan_once f room (skip_ws r1)) as [v' r2| | |] eqn:E2;
    try discriminate.
  apply (proj1 (scan_suffix f)) in E2.
  assert (S2 : suffix r2 s).
  { eapply suffix_trans; [exact E2|]. eapply suffix_trans; [exact L1|].
    eapply suffix_trans; [|exact E]. eapply suffix_trans; [|exact L0].
    apply suffix_cons, suffix_refl. }
  pose proof (skip_ws_suffix r2) as L2.
  destruct (skip_ws r2) as [|c2 r3]; [discriminate|].
  destruct (eqc c2 (ch "}")) eqn:Ec.
  { apply eqc_eq in Ec; subst c2. intros X; inversion X; subst.
    eapply suffix_trans; [exact L2 | exact S2]. }
  destruct (eqc c2 (ch ",")); [|discriminate].
  pose proof (skip_ws_suffix r3) as L3.
  destruct (skip_ws r3) as [|c3 r4]; [discriminate|].
  destruct (eqc c3 quote); [|discriminate].
  intros X. apply IH in X.
  eapply suffix_trans; [exact X|]. eapply suffix_trans; [|exact S2].
  eapply suffix_trans; [|exact L2]. apply suffix_cons.
  eapply suffix_trans; [|exact L3]. apply suffix_cons, suffix_refl.
Qed.

Lemma scan_once_bracket_closes fuel room s v r :
  scan_once fuel room (ch "[" :: s) = Ok v r ->
  suffix (ch "]" :: r) (ch "[" :: s).
Proof.
  destruct fuel as [|f]; [discriminate|]. cbn [scan_once].
  change (eqc (ch "[") quote) with false.
  change (eqc (ch "[") (ch "{")) with false.
  change (eqc (ch "[") (ch "[")) with true. cbv iota.
  destruct room as [|deeper]; [discriminate|].
  pose proof (skip_ws_suffix s) as L.
  destruct (skip_ws s) as [|c' r']; [discriminate|].
  destruct (eqc c' (ch "]")) eqn:Ec.
  { apply eqc_eq in Ec; subst c'. intros X; inversion X; subst.
    apply suffix_cons, L. }
  intros X. apply array_loop_closes in X.
  apply suffix_cons. eapply suffix_trans; [exact X | exact L].
Qed.

Lemma scan_once_brace_closes fuel room s v r :
  scan_once fuel room (ch "{" :: s) = Ok v r ->
  suffix (ch "}" :: r) (ch "{" :: s).
Proof.
  destruct fuel as [|f]; [discriminate|]. cbn [scan_once].
  change (eqc (ch "{") quote) with false.
  change (eqc (ch "{") (ch "{")) with true. cbv iota.
  destruct room as [|deeper]; [discriminate|].
  pose proof (skip_ws_suffix s) as L.
  destruct (skip_ws s) as [|c' r']; [discriminate|].
  destruct (eqc c' (ch "}")) eqn:Ec.
  { apply eqc_eq in Ec; subst c'. intros X; inversion X; subst.
    apply suffix_cons, L. }
  destruct (eqc c' quote); [|discriminate].
  intros X. apply object_loop_closes in X.
  apply suffix_cons. eapply suffix_trans; [exact X|].
  eapply suffix_trans; [|exact L]. apply suffix_cons, suffix_refl.
Qed.

End WithInterpreter.

Lemma drop_while_nil p s : drop_while p s = [] -> forallb p s = true.
Proof.
  induction s as [|c s IH]; simpl; [reflexivity|].
  destruct (p c); [exact IH | discriminate].
Qed.

Lemma last_app_cons (a : list N) c b x : last (a ++ c :: b) x = last (c :: b) x.
Proof.
  induction a as [|y a IH]; [reflexivity|].
  change (last (y :: (a ++ c :: b)) x = last (c :: b) x).
  destruct (a ++ c :: b) eqn:E.
  - destruct a; discriminate.
  - rewrite <- IH. reflexivity.
Qed.

Lemma last_forallb p (l : list N) c x :
  forallb p (c :: l) = true -> p (last (c :: l) x) = true.
Proof.
  revert c; induction l as [|y l IH]; intros c; simpl.
  - rewrite andb_true_r. trivial.
  - rewrite andb_true_iff. intros [_ E]. apply (IH y E).
Qed.

Section Closers.
Context {I : Interpreter}.

(** A text from an opening bracket to a closing brace is not read as a
    value, and neither is one from an opening brace to a closing bracket. *)
Lemma loads_bracket_to_brace s x v :
  last (ch "[" :: s) x = ch "}" -> loads (ch "[" :: s) <> Returned v.
Proof.
  intros L. unfold loads, decode, fuel_for.
  change (skip_ws (ch "[" :: s)) with (ch "[" :: s).
  destruct (scan_once _ _ (ch "[" :: s)) as [v' r| | |] eqn:E;
    try discriminate.
  destruct (skip_ws r) eqn:W; [|discriminate]. exfalso.
  apply scan_once_bracket_closes in E. destruct E as [pre E].
  rewrite E, last_app_cons in L.
  destruct r as [|c r].
  - discriminate L.
  - change (last (c :: r) x = ch "}") in L.
    apply drop_while_nil in W. apply (last_forallb _ _ _ x) in W.
    rewrite L in W. discriminate W.
Qed.

Lemma loads_brace_to_bracket s x v :
  last (ch "{" :: s) x = ch "]" -> loads (ch "{" :: s) <> Returned v.
Proof.
  intros L. unfold loads, decode, fuel_for.
  change (skip_ws (ch "{" :: s)) with (ch "{" :: s).
  destruct (scan_once _ _ (ch "{" :: s)) as [v' r| | |] eqn:E;
    try discriminate.
  destruct (skip_ws r) eqn:W; [|discriminate]. exfalso.
  apply scan_once_brace_closes in E. destruct E as [pre E].
  rewrite E, last_app_cons in L.
  destruct r as [|c r].
  - discriminate L.
  - change (last (c :: r) x = ch "]") in L.
    apply drop_while_nil in W. apply (last_forallb _ _ _ x) in W.
    rewrite L in W. discriminate W.
Qed.

End Closers.

End SuffixFacts.

(** ** What extraction returns is a mapping *)

Module PipelineFacts.
Import TextFacts SuffixFacts.

Lemma skipn_next (r : list N) n y rest :
  skipn n r = y :: rest -> skipn (S n) r = rest.
Proof.
  intros E. change (S n) with (1 + n). rewrite <- skipn_skipn, E. reflexivity.
Qed.

Lemma last_skipn (r : list N) c k y rest x :
  skipn k r = y :: rest -> last (c :: r) x = last (y :: rest) x.
Proof.
  intros E. rewrite <- (firstn_skipn k r), E.
  change (c :: firstn k r ++ y :: rest) with ((c :: firstn k r) ++ y :: rest).
  apply last_app_cons.
Qed.

(** A substitution whose matches cannot swallow a final closing brace keeps
    it as the last character. *)
Lemma sub_keeps_last_brace m x :
  (forall c r len repl, m (c :: r) = Some (len, repl) ->
     1 <= len /\ repl <> []
     /\ (skipn (len - 1) r = [] -> last (c :: r) x = ch "}" ->
         last repl x = ch "}")) ->
  forall s, s <> [] -> last s x = ch "}" ->
    Re.sub m s <> [] /\ last (Re.sub m s) x = ch "}".
Proof.
  intros Hm s.
  remember (List.length s) as n eqn:Hn.
  revert s Hn. induction n as [n IH] using lt_wf_ind. intros s Hn Hs L.
  destruct s as [|c r]; [congruence|].
  destruct (m (c :: r)) as [[len repl]|] eqn:E.
  - rewrite (sub_cons_match _ _ _ _ _ E).
    destruct (Hm _ _ _ _ E) as (Hlen & Hrepl & Hlast).
    destruct (skipn (len - 1) r) as [|y rest] eqn:K.
    + change (Re.sub m []) with (@nil N). rewrite app_nil_r.
      split; [exact Hrepl | apply Hlast; [reflexivity | exact L]].
    + rewrite (last_skipn r c (len - 1) y rest x K) in L.
      destruct (IH (List.length (y :: rest))) with (s := y :: rest)
        as [Ne La]; try reflexivity; try discriminate; try exact L.
      { subst n. rewrite <- K, length_skipn. simpl. lia. }
      split.
      * destruct repl; [congruence | discriminate].
      * destruct (Re.sub m (y :: rest)) as [|z zs] eqn:Z; [congruence|].
        rewrite last_app_cons. exact La.
  - rewrite (sub_cons_nomatch _ _ _ E). split; [discriminate|].
    destruct r as [|y rest].
    + exact L.
    + change (last (c :: y :: rest) x) with (last (y :: rest) x) in L.
      destruct (IH (List.length (y :: rest))) with (s := y :: rest)
        as [Ne La]; try reflexivity; try discriminate; try exact L.
      { subst n. simpl. lia. }
      destruct (Re.sub m (y :: rest)) as [|z zs] eqn:Z; [congruence|].
      exact La.
Qed.

Lemma comma_closer_keeps_last x :
  forall c r len repl, Re.comma_closer (c :: r) = Some (len, repl) ->
    1 <= len /\ repl <> []
    /\ (skipn (len - 1) r = [] -> last (c :: r) x = ch "}" ->
        last repl x = ch "}").
Proof.
  intros c r len repl. unfold Re.comma_closer.
  destruct (eqc c (ch ",")); [|discriminate].
  destruct (skipn (span_space r) r) as [|cl rest] eqn:K; [discriminate|].
  destruct (Re.is_closer cl); [|discriminate].
  intros X; inversion X; subst. repeat split; [lia | discriminate |].
  replace (span_space r + 2 - 1) with (S (span_space r)) by lia.
  rewrite (skipn_next _ _ _ _ K). intros -> L.
  rewrite (last_skipn r c _ cl [] x K) in L. exact L.
Qed.

Lemma bracket_comma_keeps_last x :
  forall c r len repl, Re.bracket_comma (c :: r) = Some (len, repl) ->
    1 <= len /\ repl <> []
    /\ (skipn (len - 1) r = [] -> last (c :: r) x = ch "}" ->
        last repl x = ch "}").
Proof.
  intros c r len repl. unfold Re.bracket_comma.
  destruct (eqc c (ch "[")); [|discriminate].
  destruct (skipn (span_space r) r) as [|y rest] eqn:K; [discriminate|].
  destruct (eqc y (ch ",")) eqn:Ey; [|discriminate].
  intros X; inversion X; subst. repeat split; [lia | discriminate |].
  replace (span_space r + 2 - 1) with (S (span_space r)) by lia.
  rewrite (skipn_next _ _ _ _ K). intros -> L.
  rewrite (last_skipn r c _ y [] x K) in L. simpl in L.
  apply eqc_eq in Ey. subst y. discriminate L.
Qed.

(** The text between the outer braces, and its cleaning, start with an
    opening brace and end with a closing one. *)
Definition braced (s : pystr) : Prop :=
  (exists r, s = ch "{" :: r) /\ last s (ch "{") = ch "}".

Lemma search_braces_braced text t : Re.search_braces text = Some t -> braced t.
Proof.
  unfold Re.search_braces.
  destruct (from_first (ch "{") text) as [[|c r]|] eqn:F; try discriminate.
  destruct (from_first_head _ _ _ F) as [r' E]. inversion E; subst c r'.
  unfold upto_last.
  destruct (from_first (ch "}") (rev r)) as [u|] eqn:L; [|discriminate].
  destruct (from_first_head _ _ _ L) as [u' ->].
  simpl. intros X; inversion X; subst t. split.
  - eexists; reflexivity.
  - change (last (ch "{" :: rev u' ++ [ch "}"]) (ch "{"))
      with (last ((ch "{" :: rev u') ++ [ch "}"]) (ch "{")).
    apply last_last.
Qed.

Lemma sub_braced m :
  (forall r, m (ch "{" :: r) = None) ->
  (forall c r len repl, m (c :: r) = Some (len, repl) ->
     1 <= len /\ repl <> []
     /\ (skipn (len - 1) r = [] -> last (c :: r) (ch "{") = ch "}" ->
         last repl (ch "{") = ch "}")) ->
  forall s, braced s -> braced (Re.sub m s).
Proof.
  intros Hh Hm s [[r ->] L]. split.
  - rewrite (sub_cons_nomatch _ _ _ (Hh r)). eexists; reflexivity.
  - apply (sub_keeps_last_brace m (ch "{") Hm); [discriminate | exact L].
Qed.

Lemma cleaned_text_braced s : braced s -> braced (cleaned_text s).
Proof.
  intros B. unfold cleaned_text.
  assert (K : kept_ends marker_or_space s = true).
  { destruct B as [[r ->] L]. unfold kept_ends. rewrite L. reflexivity. }
  rewrite (strips_kept s K).
  apply sub_braced; [reflexivity | apply bracket_comma_keeps_last|].
  apply sub_braced; [reflexivity | apply comma_closer_keeps_last | exact B].
Qed.

Lemma last_times_after (u : list N) c n x :
  0 < n -> last (u ++ times c n) x = c.
Proof.
  intros Hn. destruct n as [|n]; [lia|]. unfold times.
  change (repeat c (S n)) with (c :: repeat c n).
  rewrite repeat_cons, app_assoc. apply last_last.
Qed.

Lemma last_times_before (u : list N) c n x :
  u <> [] -> last (times c n ++ u) x = last u x.
Proof.
  intros Hu. destruct u as [|y u]; [congruence|]. apply last_app_cons.
Qed.

(** After the balancing, a braced text starts with an opening brace, or it
    starts with an opening bracket and ends with a closing brace. *)
Lemma balanced_text_braced s :
  braced s ->
  (exists r, balanced_text s = ch "{" :: r)
  \/ (exists r, balanced_text s = ch "[" :: r
                /\ last (balanced_text s) (ch "{") = ch "}").
Proof.
  intros [[r ->] L]. unfold balanced_text.
  set (s := ch "{" :: r) in *.
  set (ob := count (ch "{") s). set (cb := count (ch "}") s).
  set (ok := count (ch "[") s). set (ck := count (ch "]") s).
  set (s1 := if cb <? ob then s ++ times (ch "}") (ob - cb) else s).
  set (s2 := if ob <? cb then times (ch "{") (cb - ob) ++ s1 else s1).
  assert (B1 : (exists r1, s1 = ch "{" :: r1) /\ last s1 (ch "{") = ch "}").
  { unfold s1. destruct (cb <? ob) eqn:E.
    - split; [eexists; reflexivity|].
      apply last_times_after. apply Nat.ltb_lt in E. lia.
    - split; [eexists; reflexivity | exact L]. }
  assert (B2 : (exists r2, s2 = ch "{" :: r2) /\ last s2 (ch "{") = ch "}").
  { destruct B1 as [[r1 E1] L1]. unfold s2. destruct (ob <? cb) eqn:E.
    - apply Nat.ltb_lt in E. split.
      + destruct (cb - ob) as [|k] eqn:D; [lia|]. eexists; reflexivity.
      + rewrite last_times_before; [exact L1 | rewrite E1; discriminate].
    - split; [exists r1; exact E1 | exact L1]. }
  destruct B2 as [[r2 E2] L2].
  destruct (ck <? ok) eqn:E3; destruct (ok <? ck) eqn:E4.
  - apply Nat.ltb_lt in E3, E4. lia.
  - left. rewrite E2. eexists; reflexivity.
  - right. apply Nat.ltb_lt in E4.
    destruct (ck - ok) as [|k] eqn:D; [lia|].
    eexists. split; [reflexivity|].
    rewrite last_times_before; [exact L2 | rewrite E2; discriminate].
  - left. exists r2. exact E2.
Qed.

(** The repair of a braced text gives a mapping, or nothing. *)
Section WithInterpreter.
Context {I : Interpreter}.

Lemma repaired_text_dict s v :
  braced s -> loads (repaired_text s) = Returned v -> is_dict v = true.
Proof.
  intros B. unfold repaired_text.
  destruct (balanced_text_braced _ (cleaned_text_braced s B))
    as [[r E] | [r [E L]]]; rewrite E in *.
  - apply DecoderFacts.loads_brace_dict.
  - intros X. exfalso. exact (loads_bracket_to_brace r (ch "{") v L X).
Qed.

(** [fix_json_structure] and [extract_json], by what [json.loads] does. *)
Lemma fix_json_structure_cases t :
  fix_json_structure t
  = match loads (repaired_text t) with
    | Returned v => ([], Returned (Some v))
    | Raised JSONDecodeError =>
        if printable (repaired_text t)
        then ([CouldNotBeFixed; Text (repaired_text t)], Returned None)
        else ([CouldNotBeFixed], Raised UnicodeEncodeError)
    | Raised e => ([], Raised e)
    end.
Proof.
  unfold fix_json_structure.
  destruct (loads (repaired_text t)) as [v|e]; [reflexivity|].
  destruct e; try reflexivity.
  unfold Out.bind, Out.print, line_raises, encoded.
  destruct (printable (repaired_text t)); reflexivity.
Qed.

Lemma extract_json_cases text :
  extract_json text
  = match Re.search_braces text with
    | Some t =>
        match loads t with
        | Returned v => ([], Returned (Some v))
        | Raised JSONDecodeError =>
            (ParsingFailedFixing :: fst (fix_json_structure t),
             snd (fix_json_structure t))
        | Raised e => ([], Raised e)
        end
    | None =>
        if printable text
        then ([NoJsonBlockFound; Text text], Returned None)
        else ([NoJsonBlockFound], Raised UnicodeEncodeError)
    end.
Proof.
  unfold extract_json.
  destruct (Re.search_braces text) as [t|].
  - destruct (loads t) as [v|e]; [reflexivity|].
    destruct e; try reflexivity.
    unfold Out.bind, Out.print, line_raises.
    destruct (fix_json_structure t) as [out r]. reflexivity.
  - unfold Out.bind, Out.print, line_raises, encoded.
    destruct (printable text); reflexivity.
Qed.

(** Whatever the text, a value that [extract_json] returns is a mapping: the
    module variable [architecture_data] never holds anything else. *)
Theorem extract_json_dict_or_none text v :
  snd (extract_json text) = Returned (Some v) -> is_dict v = true.
Proof.
  rewrite extract_json_cases.
  destruct (Re.search_braces text) as [t|] eqn:S.
  - pose proof (search_braces_braced text t S) as B.
    destruct (loads t) as [v'|e] eqn:E.
    + intros X; inversion X; subst v'.
      destruct B as [[r ->] _]. apply (DecoderFacts.loads_brace_dict _ _ E).
    + destruct e; try discriminate.
      cbn [snd]. rewrite fix_json_structure_cases.
      destruct (loads (repaired_text t)) as [v'|e] eqn:R.
      * intros X; inversion X; subst v'. apply (repaired_text_dict t v B R).
      * destruct e; try discriminate.
        destruct (printable (repaired_text t)); discriminate.
  - destruct (printable text); discriminate.
Qed.

(** The exceptions that leave [extract_json]. *)
Lemma extract_json_raises text e :
  snd (extract_json text) = Raised e ->
  e = ValueError \/ e = RecursionError \/ e = UnicodeEncodeError.
Proof.
  rewrite extract_json_cases.
  destruct (Re.search_braces text) as [t|].
  - destruct (loads t) as [v'|e'] eqn:E; [discriminate|].
    destruct (DecoderFacts.loads_raises _ _ E) as [-> | [-> | ->]].
    + cbn [snd]. rewrite fix_json_structure_cases.
      destruct (loads (repaired_text t)) as [v'|e'] eqn:R; [discriminate|].
      destruct (DecoderFacts.loads_raises _ _ R) as [-> | [-> | ->]].
      * destruct (printable (repaired_text t)); [discriminate|].
        intros X; inversion X. right; right; reflexivity.
      * intros X; inversion X. left; reflexivity.
      * intros X; inversion X. right; left; reflexivity.
    + intros X; inversion X. left; reflexivity.
    + intros X; inversion X. right; left; reflexivity.
  - destruct (printable text); [discriminate|].
    intros X; inversion X. right; right; reflexivity.
Qed.

End WithInterpreter.

End PipelineFacts.

(** ** Extraction and repair *)

Import TextFacts TrailingCommas.

Section Extraction.
Context {I : Interpreter}.

(** C4, amended.  A text without an opening brace: [extract_json] prints
    that no JSON block was found; when the console can write the text, it
    echoes it and returns [None], with nothing else printed; when it cannot,
    the [print] of the text raises [UnicodeEncodeError] and the call ends
    with it. *)
Theorem extract_json_without_brace (text : pystr) :
  count (ch "{") text = 0 ->
  extract_json text
  = if printable text
    then ([NoJsonBlockFound; Text text], Returned None)
    else ([NoJsonBlockFound], Raised UnicodeEncodeError).
Proof.
  intros Hc. rewrite PipelineFacts.extract_json_cases.
  rewrite (search_braces_absent text Hc). reflexivity.
Qed.

(** C1, amended.  When no opening brace comes before the object and no
    closing brace after it, [extract_json] returns what [json.loads] gives
    for the object, a mapping, and prints nothing; Markdown fences around
    the object are such a text. *)
Theorem extract_json_delimited (pre body post : pystr) (v : json) :
  count (ch "{") pre = 0 ->
  count (ch "}") post = 0 ->
  loads (ch "{" :: body ++ [ch "}"]) = Returned v ->
  extract_json (pre ++ (ch "{" :: body ++ [ch "}"]) ++ post)
  = ([], Returned (Some v))
  /\ is_dict v = true.
Proof.
  intros Hpre Hpost Hv. split.
  - unfold extract_json.
    rewrite (search_braces_delimited pre body post Hpre Hpost), Hv.
    reflexivity.
  - exact (DecoderFacts.loads_brace_dict _ _ Hv).
Qed.

(** C2, amended.  For a text with [n > 0] more opening than closing braces,
    counted wherever they stand, the repair appends exactly [n] closing
    braces to the cleaned text, and nothing else but the brackets that the
    counts of brackets ask for.  When moreover the text has as many opening
    as closing brackets, the cleaning has nothing to remove and the text
    followed by [n] closing braces parses, [fix_json_structure] returns that
    value. *)
Theorem fix_json_structure_missing_braces (text : pystr) (n : nat) :
  0 < n ->
  count (ch "{") text = count (ch "}") text + n ->
  repaired_text text
  = times (ch "[") (count (ch "]") text - count (ch "[") text)
    ++ (cleaned_text text ++ times (ch "}") n)
    ++ times (ch "]") (count (ch "[") text - count (ch "]") text)
  /\ forall v,
       count (ch "[") text = count (ch "]") text ->
       kept_ends marker_or_space text = true ->
       Re.occurs Re.comma_closer text = false ->
       Re.occurs Re.bracket_comma text = false ->
       loads (text ++ times (ch "}") n) = Returned v ->
       repaired_text text = text ++ times (ch "}") n
       /\ fix_json_structure text = ([], Returned (Some v)).
Proof.
  intros Hn Hb.
  assert (R : repaired_text text
              = times (ch "[") (count (ch "]") text - count (ch "[") text)
                ++ (cleaned_text text ++ times (ch "}") n)
                ++ times (ch "]") (count (ch "[") text - count (ch "]") text)).
  { unfold repaired_text. rewrite balanced_text_runs.
    rewrite !cleaned_text_count by reflexivity. rewrite Hb.
    replace (count (ch "}") text - (count (ch "}") text + n)) with 0 by lia.
    replace (count (ch "}") text + n - count (ch "}") text) with n by lia.
    reflexivity. }
  split; [exact R|].
  intros v Hk K C B Hv.
  rewrite Hk, Nat.sub_diag, (cleaned_text_unchanged text K C B) in R.
  cbn [times repeat app] in R. rewrite app_nil_r in R.
  split; [exact R|].
  unfold fix_json_structure. rewrite R, Hv. reflexivity.
Qed.

(** C3, amended.  Let [d] be a document that parses, in which no comma is
    followed by optional whitespace and a closer and no opening bracket by
    optional whitespace and a comma (inside string literals as well), with as
    many opening as closing braces and brackets, all counted wherever they
    stand, and without whitespace or marker characters at its ends.  For any
    choice of closers of [d] that get a comma immediately before them, the
    repair removes exactly those commas and [fix_json_structure] returns the
    value of [d]. *)
Theorem fix_json_structure_trailing_commas (mask : list bool) (d : pystr) (v : json) :
  loads d = Returned v ->
  Re.occurs Re.comma_closer d = false ->
  Re.occurs Re.bracket_comma d = false ->
  count (ch "{") d = count (ch "}") d ->
  count (ch "[") d = count (ch "]") d ->
  kept_ends marker_or_space d = true ->
  repaired_text (with_trailing_commas mask d) = d
  /\ fix_json_structure (with_trailing_commas mask d) = ([], Returned (Some v)).
Proof.
  intros Hv C B Hb Hk K.
  assert (Cl : cleaned_text (with_trailing_commas mask d) = d).
  { unfold cleaned_text.
    rewrite (strips_kept _ (kept_ends_with_trailing_commas mask d K)).
    rewrite (sub_with_trailing_commas mask d C).
    apply sub_no_occurrence; exact B. }
  assert (R : repaired_text (with_trailing_commas mask d) = d).
  { unfold repaired_text. rewrite Cl.
    apply balanced_text_balanced; assumption. }
  split; [exact R|].
  unfold fix_json_structure. rewrite R, Hv. reflexivity.
Qed.

End Extraction.

(** *** On examples *)

Section ExtractionExamples.
#[local] Existing Instance interpreter.

Lemma extract_json_without_brace_witness :
  count (ch "{") (str "I cannot answer that.") = 0
  /\ extract_json (str "I cannot answer that.")
     = ([NoJsonBlockFound; Text (str "I cannot answer that.")], Returned None).
Proof.
  split; [reflexivity|].
  apply (extract_json_without_brace (str "I cannot answer that.")).
  reflexivity.
Defined.

(** C4, as stated, fails: the text below, the lone surrogate U+D800 that
    [json.loads] makes of the escape [\ud800] in a reply, has no opening
    brace; [extract_json] prints that no JSON block was found and raises
    [UnicodeEncodeError] where it echoes the text. *)
Lemma extract_json_lone_surrogate_counterexample :
  count (ch "{") [55296%N] = 0
  /\ extract_json [55296%N] = ([NoJsonBlockFound], Raised UnicodeEncodeError).
Proof. vm_compute. repeat split. Qed.

(** C1, as stated, fails: the text below contains the valid object
    [{"a": 1}], which [json.loads] reads as a mapping, and prose with braces
    after it; the match runs to the last closing brace, strict parsing fails,
    the repair fails too, and [extract_json] returns [None]. *)
Lemma extract_json_trailing_prose_counterexample :
  loads (js "{'a': 1}") = Returned (JDict [(str "a", JInt 1)])
  /\ Re.search_braces (js "Here is the JSON: {'a': 1} (an object in {braces})")
     = Some (js "{'a': 1} (an object in {braces}")
  /\ snd (extract_json (js "Here is the JSON: {'a': 1} (an object in {braces})"))
     = Returned None.
Proof. vm_compute. repeat split. Qed.

Lemma extract_json_delimited_witness :
  let pre := str "```json" ++ [10%N] in
  let body := js "'files': ['a.py', 'b.py'], 'n': 2" in
  let post := 10%N :: str "```" in
  let v := JDict [(str "files", JList [JStr (str "a.py"); JStr (str "b.py")]);
                  (str "n", JInt 2)] in
  (count (ch "{") pre = 0 /\ count (ch "}") post = 0
   /\ loads (ch "{" :: body ++ [ch "}"]) = Returned v)
  /\ extract_json (pre ++ (ch "{" :: body ++ [ch "}"]) ++ post)
     = ([], Returned (Some v))
  /\ is_dict v = true.
Proof.
  split; [repeat split|].
  apply (extract_json_delimited
           (str "```json" ++ [10%N])
           (js "'files': ['a.py', 'b.py'], 'n': 2")
           (10%N :: str "```")); reflexivity.
Defined.

(** C2, as stated, fails: the text below has one opening brace more than
    closing braces and is a valid document once one closing brace is added,
    but the bracket inside its string is counted as well: the repair appends
    a closing brace and a closing bracket, and the result does not parse. *)
Lemma fix_json_structure_bracket_in_string_counterexample :
  count (ch "{") (js "{'a': '['") = count (ch "}") (js "{'a': '['") + 1
  /\ loads (js "{'a': '['" ++ times (ch "}") 1)
     = Returned (JDict [(str "a", JStr (str "["))])
  /\ repaired_text (js "{'a': '['") = js "{'a': '['" ++ str "}]"
  /\ snd (fix_json_structure (js "{'a': '['")) = Returned None.
Proof. vm_compute. repeat split. Qed.

Lemma fix_json_structure_missing_braces_witness :
  let text := js "{'a': {'b': [1, 2], 'c': {'d': null" in
  let v := JDict [(str "a", JDict [(str "b", JList [JInt 1; JInt 2]);
                                   (str "c", JDict [(str "d", JNull)])])] in
  (0 < 3 /\ count (ch "{") text = count (ch "}") text + 3)
  /\ repaired_text text
     = times (ch "[") (count (ch "]") text - count (ch "[") text)
       ++ (cleaned_text text ++ times (ch "}") 3)
       ++ times (ch "]") (count (ch "[") text - count (ch "]") text)
  /\ (count (ch "[") text = count (ch "]") text
      /\ kept_ends marker_or_space text = true
      /\ Re.occurs Re.comma_closer text = false
      /\ Re.occurs Re.bracket_comma text = false
      /\ loads (text ++ times (ch "}") 3) = Returned v)
  /\ repaired_text text = text ++ times (ch "}") 3
  /\ fix_json_structure text = ([], Returned (Some v)).
Proof.
  pose proof (fix_json_structure_missing_braces
                (js "{'a': {'b': [1, 2], 'c': {'d': null") 3
                ltac:(lia) ltac:(reflexivity)) as [R P].
  split; [repeat split; lia|].
  split; [exact R|].
  split; [repeat split|].
  apply P; reflexivity.
Defined.

(** C3, as stated, fails: the text below is the valid document
    [{"a": "}"}] with a comma before its closing brace; the comma is removed,
    but the brace inside the string is counted, an opening brace is put in
    front, and the result does not parse. *)
Lemma fix_json_structure_brace_in_string_counterexample :
  loads (js "{'a': '}'}") = Returned (JDict [(str "a", JStr (str "}"))])
  /\ with_trailing_commas (repeat false 9 ++ [true]) (js "{'a': '}'}")
     = js "{'a': '}',}"
  /\ repaired_text (js "{'a': '}',}") = js "{{'a': '}'}"
  /\ snd (fix_json_structure (js "{'a': '}',}")) = Returned None.
Proof. vm_compute. repeat split. Qed.

Lemma fix_json_structure_trailing_commas_witness :
  let d := js "{'a': [1, 2], 'b': {'c': [], 'd': 'x'}}" in
  let mask := repeat true 40 in
  let v := JDict [(str "a", JList [JInt 1; JInt 2]);
                  (str "b", JDict [(str "c", JList []); (str "d", JStr (str "x"))])] in
  with_trailing_commas mask d = js "{'a': [1, 2,], 'b': {'c': [,], 'd': 'x',},}"
  /\ (loads d = Returned v
      /\ Re.occurs Re.comma_closer d = false
      /\ Re.occurs Re.bracket_comma d = false
      /\ count (ch "{") d = count (ch "}") d
      /\ count (ch "[") d = count (ch "]") d
      /\ kept_ends marker_or_space d = true)
  /\ repaired_text (with_trailing_commas mask d) = d
  /\ fix_json_structure (with_trailing_commas mask d) = ([], Returned (Some v)).
Proof.
  split; [reflexivity|].
  split; [repeat split|].
  apply (fix_json_structure_trailing_commas
           (repeat true 40) (js "{'a': [1, 2], 'b': {'c': [], 'd': 'x'}}"));
    reflexivity.
Defined.

End ExtractionExamples.

(** ** Materialization and the run *)

Module ProgramFacts.
Section WithFS.
Context {FS : Type} `{FileSystem FS} {I : Interpreter}.
Variable post : pystr -> http_reply.

Import Run Program.
Local Open Scope run_scope.

Lemma bind_returned {A B} (m : M FS A) (k : A -> M FS B) (w w' : world FS) a :
  m w = (Returned a, w') -> bind m k w = k a w'.
Proof. intros E. unfold bind. rewrite E. reflexivity. Qed.

Lemma bind_raised {A B} (m : M FS A) (k : A -> M FS B) (w w' : world FS) e :
  m w = (Raised e, w') -> bind m k w = (Raised e, w').
Proof. intros E. unfold bind. rewrite E. reflexivity. Qed.

Lemma printed_nil (w : world FS) : printed w [] = w.
Proof. destruct w; unfold printed; simpl. rewrite app_nil_r. reflexivity. Qed.

Lemma printed_printed (w : world FS) a b : printed (printed w a) b = printed w (a ++ b).
Proof. unfold printed; simpl. rewrite app_assoc. reflexivity. Qed.

(** [print], by whether the line can be built and written. *)
Lemma print_run line (w : world FS) :
  line_raises line = None -> print line w = (Returned tt, printed w [line]).
Proof. intros E. unfold print. rewrite E. reflexivity. Qed.

Lemma print_raised line e (w : world FS) :
  line_raises line = Some e -> print line w = (Raised e, w).
Proof. intros E. unfold print. rewrite E. reflexivity. Qed.

Lemma print_path (line : pystr -> msg) path (w : world FS) :
  (forall p, line_raises (line p) = encoded p) ->
  print (line path) w
  = if printable path then (Returned tt, printed w [line path])
    else (Raised UnicodeEncodeError, w).
Proof.
  intros L. unfold print. rewrite L. unfold encoded.
  destruct (printable path); reflexivity.
Qed.

Lemma emit_run {A} (call : Out.T A) (w : world FS) :
  emit call w = (snd call, printed w (fst call)).
Proof. reflexivity. Qed.

Lemma on_disk_ok op (w : world FS) d :
  op (disk w) = (d, None) -> on_disk op w = (Returned tt, on_the_disk w d).
Proof. intros E. unfold on_disk. rewrite E. reflexivity. Qed.

Lemma on_disk_raised op (w : world FS) d e :
  op (disk w) = (d, Some e) -> on_disk op w = (Raised e, on_the_disk w d).
Proof. intros E. unfold on_disk. rewrite E. reflexivity. Qed.

Lemma dict_get_missing d k default :
  has_key d k = false -> dict_get d k default = default.
Proof.
  induction d as [|[k' v] d IH]; simpl; [reflexivity|].
  destruct (eqs k' k); [discriminate | exact IH].
Qed.

(** The request prints, and does nothing else: it returns, and leaves the
    keyboard, the module variable and the disk as they were. *)
Lemma ask_llama_for_architecture_run description (w : world FS) :
  exists r out,
    ask_llama_for_architecture post description w = (Returned r, printed w out).
Proof.
  unfold ask_llama_for_architecture, try_except.
  assert (Caught : forall e out,
            exists (r : option json) out',
              (print (ErrorRaised e) ;; ret None) (printed w out)
              = (Returned r, printed w out')).
  { intros e out. exists None, (out ++ [ErrorRaised e]).
    unfold bind, ret. rewrite print_run by reflexivity.
    rewrite printed_printed. reflexivity. }
  assert (Caught0 : forall e,
            exists (r : option json) out',
              (print (ErrorRaised e) ;; ret None) w
              = (Returned r, printed w out')).
  { intros e. destruct (Caught e []) as (r & out' & E).
    rewrite printed_nil in E. exists r, out'. exact E. }
  destruct (post description) as [e | status body text].
  - apply Caught0.
  - destruct (status =? 200)%Z.
    + destruct body as [b | e]; [|apply Caught0].
      destruct b; try apply Caught0.
      unfold get, bind at 1, ret at 1.
      destruct (dict_get items (str "response") (JStr []));
        try apply Caught0.
      rewrite emit_run.
      destruct (extract_json s) as [out [json_data|e]]; cbn [fst snd].
      * exists json_data, out. reflexivity.
      * apply Caught.
    + unfold bind at 1. rewrite print_run by reflexivity.
      unfold bind at 1.
      rewrite (print_path Text text _ (fun p => eq_refl)).
      destruct (printable text).
      * exists None, [HttpError status; Text text]. unfold ret.
        rewrite printed_printed. reflexivity.
      * apply Caught.
Qed.

(** One turn of the loop, for a record with a name that is a string. *)
Lemma generate_file_record d name (w : world FS) :
  dict_get d (str "name") (JStr (str "unnamed_file.txt")) = JStr name ->
  generate_file (JDict d) w
  = (on_disk (makedirs (folder_path_of name)) ;;
     save_file_to_output (folder_path_of name) (Path.basename name)
       (dict_get d (str "content") (JStr []))) w.
Proof.
  intros E. unfold generate_file. rewrite E. unfold folder_path_of.
  destruct (Path.dirname name); reflexivity.
Qed.

(** What [save_file_to_output] does, by how the writing ends. *)
Lemma save_file_to_output_written folder filename content (w w' : world FS) :
  write_file (Path.join folder filename) content w = (Returned tt, w') ->
  save_file_to_output folder filename content w
  = if printable (Path.join folder filename)
    then (Returned tt, printed w' [FileGenerated (Path.join folder filename)])
    else (Raised UnicodeEncodeError, w').
Proof.
  intros E. unfold save_file_to_output, try_except, bind. rewrite E.
  rewrite (print_path FileGenerated _ _ (fun p => eq_refl)).
  destruct (printable (Path.join folder filename)) eqn:P; [reflexivity|].
  rewrite (print_path (fun p => ErrorSavingFile p UnicodeEncodeError) _ _
             (fun p => eq_refl)), P.
  reflexivity.
Qed.

Lemma save_file_to_output_failed folder filename content (w w' : world FS) e :
  write_file (Path.join folder filename) content w = (Raised e, w') ->
  save_file_to_output folder filename content w
  = if printable (Path.join folder filename)
    then (Returned tt,
          printed w' [ErrorSavingFile (Path.join folder filename) e])
    else (Raised UnicodeEncodeError, w').
Proof.
  intros E. unfold save_file_to_output, try_except, bind. rewrite E.
  apply (print_path (fun p => ErrorSavingFile p e) _ _ (fun p => eq_refl)).
Qed.

Lemma write_file_ok path c (w : world FS) d1 d2 :
  open_w path (disk w) = (d1, None) ->
  write_close path c d1 = (d2, None) ->
  write_file path (JStr c) w = (Returned tt, on_the_disk w d2).
Proof.
  intros O W. unfold write_file, bind.
  rewrite (on_disk_ok _ w d1 O).
  rewrite (on_disk_ok _ (on_the_disk w d1) d2 W). reflexivity.
Qed.

(** Materialization up to the loop, for a proposal that is a non-empty
    mapping, once the output directory is there. *)
Lemma generate_software_files_start items (w : world FS) d :
  architecture_data w = Some (JDict items) ->
  items <> [] ->
  makedirs OUTPUT_PATH (disk w) = (d, None) ->
  generate_software_files w
  = (file_scaffolding <-
       match dict_get items (str "file_scaffolding") (JList []) with
       | JDict mapping =>
           records <- records_of_mapping mapping ;; ret (JList records)
       | _ => ret (dict_get items (str "file_scaffolding") (JList []))
       end ;;
     match file_scaffolding with
     | JList files => generate_files files
     | _ => print NotAList
     end) (on_the_disk w d).
Proof.
  intros A N M. unfold generate_software_files, bind at 1, get_architecture_data.
  rewrite A. destruct items as [|kv items]; [congruence|]. cbn [truthy negb].
  unfold bind at 1. rewrite (on_disk_ok _ w d M).
  unfold bind at 1, get, ret. reflexivity.
Qed.

(** A field that is neither a list nor a mapping. *)
Lemma generate_software_files_not_a_list items (w : world FS) d :
  architecture_data w = Some (JDict items) ->
  items <> [] ->
  is_list (dict_get items (str "file_scaffolding") (JList [])) = false ->
  is_dict (dict_get items (str "file_scaffolding") (JList [])) = false ->
  makedirs OUTPUT_PATH (disk w) = (d, None) ->
  generate_software_files w = (Returned tt, printed (on_the_disk w d) [NotAList]).
Proof.
  intros A N L D M. rewrite (generate_software_files_start items w d A N M).
  destruct (dict_get items (str "file_scaffolding") (JList []));
    try discriminate; reflexivity.
Qed.

End WithFS.
End ProgramFacts.

(** ** The run, prompt by prompt *)

Module RunFacts.
Section WithFS.
Context {FS : Type} `{FileSystem FS} {I : Interpreter}.
Variable post : pystr -> http_reply.
Variable lower : pystr -> pystr.

Import Run Program ProgramFacts.
Local Open Scope run_scope.

Lemma input_run prompt line rest (w : world FS) :
  stdin w = line :: rest ->
  input prompt w
  = (Returned line,
     World (console w ++ [prompt]) rest (architecture_data w) (disk w)).
Proof. intros E. unfold input. rewrite E. reflexivity. Qed.

Lemma extract_json_lines text :
  forallb request_line (fst (extract_json text)) = true.
Proof.
  rewrite PipelineFacts.extract_json_cases.
  destruct (Re.search_braces text) as [t|].
  - destruct (loads t) as [v|e]; [reflexivity|].
    destruct e; try reflexivity.
    cbn [fst]. rewrite PipelineFacts.fix_json_structure_cases.
    destruct (loads (repaired_text t)) as [v|e]; [reflexivity|].
    destruct e; try reflexivity.
    destruct (printable (repaired_text t)); reflexivity.
  - destruct (printable text); reflexivity.
Qed.

(** The request returns, having printed and done nothing else; what it
    returns is [None] or a mapping. *)
Lemma ask_llama_for_architecture_shape description (w : world FS) :
  exists data out,
    ask_llama_for_architecture post description w
    = (Returned data, printed w out)
    /\ forallb request_line out = true
    /\ (data = None \/ exists items, data = Some (JDict items)).
Proof.
  unfold ask_llama_for_architecture, try_except.
  assert (Caught : forall e out,
            forallb request_line out = true ->
            exists (data : option json) out',
              (print (ErrorRaised e) ;; ret None) (printed w out)
              = (Returned data, printed w out')
              /\ forallb request_line out' = true
              /\ (data = None \/ exists items, data = Some (JDict items))).
  { intros e out L. exists None, (out ++ [ErrorRaised e]).
    unfold bind, ret. rewrite print_run by reflexivity.
    rewrite printed_printed. split; [reflexivity|]. split.
    - rewrite forallb_app, L. reflexivity.
    - left; reflexivity. }
  assert (Caught0 : forall e,
            exists (data : option json) out',
              (print (ErrorRaised e) ;; ret None) w
              = (Returned data, printed w out')
              /\ forallb request_line out' = true
              /\ (data = None \/ exists items, data = Some (JDict items))).
  { intros e. destruct (Caught e [] eq_refl) as (r & out' & E).
    rewrite printed_nil in E. exists r, out'. exact E. }
  destruct (post description) as [e | status body text].
  - apply Caught0.
  - destruct (status =? 200)%Z.
    + destruct body as [b | e]; [|apply Caught0].
      destruct b; try apply Caught0.
      unfold get, bind at 1, ret at 1.
      destruct (dict_get items (str "response") (JStr []));
        try apply Caught0.
      rewrite emit_run.
      pose proof (extract_json_lines s) as L.
      pose proof (PipelineFacts.extract_json_dict_or_none s) as D.
      destruct (extract_json s) as [out [json_data|e]]; cbn [fst snd] in *.
      * exists json_data, out. split; [reflexivity|]. split; [exact L|].
        destruct json_data as [v|]; [right | left; reflexivity].
        specialize (D v eq_refl). destruct v; try discriminate D.
        eexists; reflexivity.
      * apply Caught. exact L.
    + unfold bind at 1. rewrite print_run by reflexivity.
      unfold bind at 1.
      rewrite (print_path Text text _ (fun p => eq_refl)).
      destruct (printable text).
      * exists None, [HttpError status; Text text]. unfold ret.
        rewrite printed_printed. repeat split. left; reflexivity.
      * apply Caught. reflexivity.
Qed.

(** The run from the request on. *)
Lemma main_described description rest data out (w : world FS) :
  stdin w = description :: rest ->
  ask_llama_for_architecture post description (described w rest)
  = (Returned data, printed (described w rest) out) ->
  main post lower w
  = (match data with
     | None => print CouldNotRetrieve
     | Some proposal =>
         if negb (truthy proposal) then print CouldNotRetrieve
         else
           print Retrieved ;;
           print (Dumps proposal) ;;
           answer <- input AskAcceptance ;;
           let user_input := lower (strip answer) in
           if negb (accepts user_input) then print NotAccepted
           else
             print Accepted ;;
             generate_software_files ;;
             print AllGenerated
     end)
      (World (console w ++ AskDescription :: out) rest data (disk w)).
Proof.
  intros S Ask. unfold main.
  rewrite (bind_returned _ _ w (described w rest) description
             (input_run _ _ _ w S)).
  rewrite (bind_returned _ _ _ _ data Ask).
  unfold bind at 1, set_architecture_data, printed, described.
  cbn [console stdin architecture_data disk].
  rewrite <- app_assoc. reflexivity.
Qed.

Lemma main_run (w : world FS) : run_of post lower w.
Proof.
  destruct (stdin w) as [|description rest] eqn:S.
  { refine (@no_description FS H I post lower w S _).
    unfold main, bind at 1, input. rewrite S. reflexivity. }
  destruct (ask_llama_for_architecture_shape description (described w rest))
    as (data & out & Ask & L & Shape).
  pose proof (main_described description rest data out w S Ask) as Start.
  assert (Shown : forall (l : list msg) k,
            (console w ++ AskDescription :: out) ++ l ++ k
            = console w ++ AskDescription :: out ++ l ++ k).
  { intros l k. rewrite <- app_assoc. reflexivity. }
  destruct Shape as [-> | [items ->]].
  { refine (@no_proposal FS H I post lower w description rest None out
              S Ask L _ _); [left; reflexivity|].
    rewrite Start, print_run by reflexivity.
    unfold printed. cbn [console stdin architecture_data disk].
    rewrite <- app_assoc. reflexivity. }
  destruct items as [|item items].
  { refine (@no_proposal FS H I post lower w description rest
              (Some (JDict [])) out S Ask L _ _); [right; reflexivity|].
    rewrite Start. cbn [truthy negb]. rewrite print_run by reflexivity.
    unfold printed. cbn [console stdin architecture_data disk].
    rewrite <- app_assoc. reflexivity. }
  destruct (line_raises (Dumps (JDict (item :: items)))) as [e|] eqn:D.
  { refine (@not_shown FS H I post lower w description rest (item :: items)
              out e S Ask L _ D _); [discriminate|].
    rewrite Start. cbn [truthy negb].
    unfold bind at 1. rewrite print_run by reflexivity.
    unfold bind at 1. rewrite (print_raised _ e _ D).
    unfold printed. cbn [console stdin architecture_data disk].
    rewrite <- app_assoc. reflexivity. }
  destruct rest as [|answer rest].
  { refine (@no_answer FS H I post lower w description (item :: items) out
              S Ask L _ D _); [discriminate|].
    rewrite Start. cbn [truthy negb].
    unfold bind at 1. rewrite print_run by reflexivity.
    unfold bind at 1. rewrite (print_run _ _ D).
    unfold bind at 1, input at 1, printed.
    cbn [console stdin architecture_data disk].
    rewrite <- !app_assoc. reflexivity. }
  destruct (accepts (lower (strip answer))) eqn:Acc.
  - refine (@accepted FS H I post lower w description answer rest
              (item :: items) out S Ask L _ D Acc _); [discriminate|].
    rewrite Start. cbn [truthy negb].
    unfold bind at 1. rewrite print_run by reflexivity.
    unfold bind at 1. rewrite (print_run _ _ D).
    unfold bind at 1, input at 1, printed.
    cbn [console stdin architecture_data disk]. rewrite Acc. cbn [negb].
    unfold bind at 1. rewrite print_run by reflexivity.
    unfold printed. cbn [console stdin architecture_data disk].
    rewrite <- !app_assoc. reflexivity.
  - refine (@declined FS H I post lower w description answer rest
              (item :: items) out S Ask L _ D Acc _); [discriminate|].
    rewrite Start. cbn [truthy negb].
    unfold bind at 1. rewrite print_run by reflexivity.
    unfold bind at 1. rewrite (print_run _ _ D).
    unfold bind at 1, input at 1, printed.
    cbn [console stdin architecture_data disk]. rewrite Acc. cbn [negb].
    rewrite print_run by reflexivity.
    unfold printed. cbn [console stdin architecture_data disk].
    rewrite <- !app_assoc. reflexivity.
Qed.

End WithFS.
End RunFacts.

Section Materialization.
Context {FS : Type} `{FileSystem FS} {I : Interpreter}.

Import Run Program ProgramFacts.
Local Open Scope run_scope.

(** X20.  For a proposal that is a non-empty mapping whose
    [file_scaffolding] field is neither a list nor a mapping, and once the
    output directory could be created, [generate_software_files] prints that
    the field is not a list and returns: no exception is raised, and the disk
    is the one [os.makedirs] left, no file having been opened or written. *)
Theorem generate_software_files_malformed_shape
    (items : list (pystr * json)) (w : world FS) (d : FS) :
  architecture_data w = Some (JDict items) ->
  items <> [] ->
  is_list (dict_get items (str "file_scaffolding") (JList [])) = false ->
  is_dict (dict_get items (str "file_scaffolding") (JList [])) = false ->
  makedirs OUTPUT_PATH (disk w) = (d, None) ->
  generate_software_files w = (Returned tt, printed (on_the_disk w d) [NotAList]).
Proof. apply generate_software_files_not_a_list. Qed.

(** C10.  With a non-empty proposal, creating the output directory is the
    first thing [generate_software_files] does: when [os.makedirs] raises,
    the exception leaves the function at once, whatever the proposal holds;
    when it returns, the directory is there, and it is there at the end of a
    materialization that stops at a malformed [file_scaffolding], which
    changes nothing else on the disk. *)
Theorem output_directory_created_before_validation
    (proposal : json) (w : world FS) (d : FS) :
  architecture_data w = Some proposal ->
  truthy proposal = true ->
  (forall e, makedirs OUTPUT_PATH (disk w) = (d, Some e) ->
     generate_software_files w = (Raised e, on_the_disk w d))
  /\ (makedirs OUTPUT_PATH (disk w) = (d, None) ->
      isdir OUTPUT_PATH d = true
      /\ forall items,
           proposal = JDict items ->
           is_list (dict_get items (str "file_scaffolding") (JList [])) = false ->
           is_dict (dict_get items (str "file_scaffolding") (JList [])) = false ->
           fst (generate_software_files w) = Returned tt
           /\ disk (snd (generate_software_files w)) = d
           /\ isdir OUTPUT_PATH (disk (snd (generate_software_files w))) = true).
Proof.
  intros A T. split.
  - intros e M. unfold generate_software_files, bind at 1, get_architecture_data.
    rewrite A, T. cbn [negb]. unfold bind at 1.
    rewrite (on_disk_raised _ w d e M). reflexivity.
  - intros M. pose proof M as D. apply makedirs_isdir in D. split; [exact D|].
    intros items -> L Di.
    assert (N : items <> []) by (destruct items; [discriminate T | discriminate]).
    rewrite (generate_software_files_not_a_list items w d A N L Di M).
    repeat split. exact D.
Qed.

(** C6, amended.  [save_file_to_output] returns exactly when the console can
    write the path of the file, whatever opening and writing do; otherwise
    the [print] of its handler raises [UnicodeEncodeError].  When the folder
    of an entry is there, opening or writing its file raises [e] and the path
    can be written, the error is printed with the path and the loop goes on
    with the entries that follow, from the world the failed write left. *)
Theorem write_failure_is_caught_and_reported :
  (forall folder filename content (w : world FS),
     fst (save_file_to_output folder filename content w)
     = if printable (Path.join folder filename)
       then Returned tt else Raised UnicodeEncodeError)
  /\ (forall d name rest e (w w1 w2 : world FS),
        dict_get d (str "name") (JStr (str "unnamed_file.txt")) = JStr name ->
        on_disk (makedirs (folder_path_of name)) w = (Returned tt, w1) ->
        write_file (Path.join (folder_path_of name) (Path.basename name))
          (dict_get d (str "content") (JStr [])) w1 = (Raised e, w2) ->
        printable (Path.join (folder_path_of name) (Path.basename name))
        = true ->
        generate_files (JDict d :: rest) w
        = generate_files rest
            (printed w2
               [ErrorSavingFile
                  (Path.join (folder_path_of name) (Path.basename name)) e])).
Proof.
  split.
  - intros folder filename content w.
    destruct (write_file (Path.join folder filename) content w)
      as [[[]|e] w'] eqn:W.
    + rewrite (save_file_to_output_written _ _ _ w w' W).
      destruct (printable (Path.join folder filename)); reflexivity.
    + rewrite (save_file_to_output_failed _ _ _ w w' e W).
      destruct (printable (Path.join folder filename)); reflexivity.
  - intros d name rest e w w1 w2 N M W P.
    cbn [generate_files]. unfold bind at 1.
    rewrite (generate_file_record d name w N). unfold bind at 1. rewrite M.
    rewrite (save_file_to_output_failed _ _ _ w1 w2 e W), P. reflexivity.
Qed.

(** C7, amended.  A scaffolding list made of one record, with a name and a
    content that are strings, and of one plain string, in either order: when
    the directories can be created, the file written, and the console can
    write the path of the file and the string, the file of the record is
    written with its content, the string is skipped with a warning, and
    [generate_software_files] returns. *)
Theorem record_written_and_string_skipped
    (items record : list (pystr * json)) (name content s : pystr)
    (w : world FS) (d1 d2 d3 d4 : FS) :
  let path := Path.join (folder_path_of name) (Path.basename name) in
  architecture_data w = Some (JDict items) ->
  items <> [] ->
  dict_get record (str "name") (JStr (str "unnamed_file.txt")) = JStr name ->
  dict_get record (str "content") (JStr []) = JStr content ->
  makedirs OUTPUT_PATH (disk w) = (d1, None) ->
  makedirs (folder_path_of name) d1 = (d2, None) ->
  open_w path d2 = (d3, None) ->
  write_close path content d3 = (d4, None) ->
  printable path = true ->
  printable s = true ->
  (dict_get items (str "file_scaffolding") (JList [])
     = JList [JDict record; JStr s] ->
   generate_software_files w
   = (Returned tt,
      printed (on_the_disk w d4)
        [FileGenerated path; SkippingInvalidEntry (JStr s)]))
  /\ (dict_get items (str "file_scaffolding") (JList [])
        = JList [JStr s; JDict record] ->
      generate_software_files w
      = (Returned tt,
         printed (on_the_disk w d4)
           [SkippingInvalidEntry (JStr s); FileGenerated path]))
  /\ file_content path d4 = Some content.
Proof.
  intros path A N Hn Hc M1 M2 O W Pp Ps.
  assert (Skip : forall w0 : world FS,
            print (SkippingInvalidEntry (JStr s)) w0
            = (Returned tt, printed w0 [SkippingInvalidEntry (JStr s)])).
  { intros w0. apply print_run. unfold line_raises, encoded.
    rewrite Ps. reflexivity. }
  assert (G : forall w0 : world FS, disk w0 = d1 ->
            generate_file (JDict record) w0
            = (Returned tt, printed (on_the_disk w0 d4) [FileGenerated path])).
  { intros w0 D. rewrite (generate_file_record record name w0 Hn).
    unfold bind.
    assert (M2' : makedirs (folder_path_of name) (disk w0) = (d2, None))
      by (rewrite D; exact M2).
    rewrite (on_disk_ok _ w0 d2 M2'), Hc.
    rewrite (save_file_to_output_written _ _ _ (on_the_disk w0 d2)
               (on_the_disk w0 d4)).
    - fold path. rewrite Pp. reflexivity.
    - apply (write_file_ok _ _ (on_the_disk w0 d2) d3 d4); assumption. }
  repeat split.
  - intros S. rewrite (generate_software_files_start items w d1 A N M1), S.
    unfold bind at 1, ret. cbn [generate_files]. unfold bind at 1.
    rewrite (G (on_the_disk w d1) eq_refl).
    unfold bind, ret. cbn [generate_file]. rewrite Skip, printed_printed.
    reflexivity.
  - intros S. rewrite (generate_software_files_start items w d1 A N M1), S.
    unfold bind at 1, ret. cbn [generate_files]. unfold bind at 1.
    cbn [generate_file]. rewrite Skip.
    unfold bind at 1. rewrite (G (printed (on_the_disk w d1) _) eq_refl).
    unfold ret.
    change (on_the_disk (printed (on_the_disk w d1) [SkippingInvalidEntry (JStr s)]) d4)
      with (printed (on_the_disk w d4) [SkippingInvalidEntry (JStr s)]).
    rewrite printed_printed. reflexivity.
  - apply write_close_content in W. exact W.
Qed.

(** X21.  The folder of an entry is created outside the [try] that guards
    the opening and the writing of its file: when [os.makedirs] raises for
    the folder, nothing is reported for the entry, the exception leaves the
    loop, and the entries that follow are not looked at. *)
Theorem folder_creation_failure_escapes
    (record : list (pystr * json)) (name : pystr) (rest : list json) (e : exn)
    (w : world FS) (d : FS) :
  dict_get record (str "name") (JStr (str "unnamed_file.txt")) = JStr name ->
  makedirs (folder_path_of name) (disk w) = (d, Some e) ->
  generate_files (JDict record :: rest) w = (Raised e, on_the_disk w d).
Proof.
  intros N M. cbn [generate_files]. unfold bind at 1.
  rewrite (generate_file_record record name w N). unfold bind at 1.
  rewrite (on_disk_raised _ w d e M). reflexivity.
Qed.

(** C9, amended.  In a record of the scaffolding list, a missing [content]
    key stands for the empty content, and a missing [name] key stands for the
    name [unnamed_file.txt], written in the output directory itself. *)
Theorem missing_keys_take_defaults (record : list (pystr * json)) (w : world FS) :
  (has_key record (str "content") = false ->
   forall name,
     dict_get record (str "name") (JStr (str "unnamed_file.txt")) = JStr name ->
     generate_file (JDict record) w
     = (on_disk (makedirs (folder_path_of name)) ;;
        save_file_to_output (folder_path_of name) (Path.basename name)
          (JStr [])) w)
  /\ (has_key record (str "name") = false ->
      generate_file (JDict record) w
      = (on_disk (makedirs OUTPUT_PATH) ;;
         save_file_to_output OUTPUT_PATH (str "unnamed_file.txt")
           (dict_get record (str "content") (JStr []))) w).
Proof.
  split.
  - intros K name N. rewrite (generate_file_record record name w N).
    rewrite (dict_get_missing record (str "content") (JStr []) K). reflexivity.
  - intros K.
    rewrite (generate_file_record record (str "unnamed_file.txt") w).
    + reflexivity.
    + apply dict_get_missing; exact K.
Qed.

End Materialization.

Section Confirmation.
Context {FS : Type} `{FileSystem FS} {I : Interpreter}.
Variable post : pystr -> http_reply.
Variable lower : pystr -> pystr.

Import Run Program ProgramFacts RunFacts.
Local Open Scope run_scope.

Lemma last_of_lines (a : msg) (b c : list msg) x d :
  last (a :: b ++ c ++ [x]) d = x.
Proof. rewrite app_comm_cons, !app_assoc. apply last_last. Qed.

(** C8, amended.  A run in which the answer to the confirmation prompt,
    stripped and lowered, is neither [yes] nor [y] leaves the disk as it
    found it.  It returns, and the last line it prints says that the
    proposal was not accepted (or, when no proposal was retrieved and the
    prompt never shown, that none could be retrieved); or printing the
    proposal raises, and the run ends there, before the prompt. *)
Theorem declined_run_writes_nothing
    (description answer : pystr) (rest : list pystr) (w : world FS) :
  stdin w = description :: answer :: rest ->
  accepts (lower (strip answer)) = false ->
  disk (snd (main post lower w)) = disk w
  /\ exists lines,
       console (snd (main post lower w)) = console w ++ lines
       /\ ((fst (main post lower w) = Returned tt
            /\ (last lines Accepted = NotAccepted
                \/ last lines Accepted = CouldNotRetrieve))
           \/ (exists proposal e,
                 fst (main post lower w) = Raised e
                 /\ line_raises (Dumps proposal) = Some e
                 /\ last lines Accepted = Retrieved)).
Proof.
  intros S Acc.
  destruct (main_run post lower w)
    as [S' E | description' rest' data out S' Ask L Dt E
        | description' rest' items out e S' Ask L N D E
        | description' items out S' Ask L N D E
        | description' answer' rest' items out S' Ask L N D Acc' E
        | description' answer' rest' items out S' Ask L N D Acc' E];
    rewrite S in S'; try discriminate; inversion S'; subst;
    try congruence; rewrite E; cbn [fst snd console disk];
    (split; [reflexivity|]); eexists; (split; [reflexivity|]).
  - left. split; [reflexivity|]. right.
    apply (last_of_lines _ out []).
  - right. exists (JDict items), e. repeat split; [exact D|].
    apply (last_of_lines _ out []).
  - left. split; [reflexivity|]. left.
    apply (last_of_lines _ out [Retrieved; Dumps (JDict items); AskAcceptance]).
Qed.

End Confirmation.

(** ** The in-memory file system is a file system *)

Module MemFSFacts.
Import MemFS.

Lemma lookup_store p c l : lookup p (store p c l) = Some c.
Proof.
  induction l as [|[q c'] l IH]; simpl.
  - rewrite eqs_refl. reflexivity.
  - destruct (eqs q p) eqn:E; simpl.
    + rewrite eqs_refl. reflexivity.
    + rewrite E. exact IH.
Qed.

Lemma mem_makedirs_isdir p d d' :
  mem_makedirs p d = (d', None) -> has_dir p d' = true.
Proof.
  unfold mem_makedirs. destruct (refused p); [discriminate|].
  destruct p as [|c p]; [discriminate|].
  destruct (existsb _ _); [discriminate|].
  destruct (is_file _ _); [discriminate|].
  intros X; inversion X; subst. unfold has_dir. simpl dirs.
  rewrite !existsb_app. simpl. rewrite eqc_refl, eqs_refl. simpl.
  rewrite orb_true_r. reflexivity.
Qed.

Lemma mem_write_close_content p c d d' :
  mem_write_close p c d = (d', None) ->
  lookup p (files d') = Some c.
Proof.
  unfold mem_write_close. destruct (printable c); [|discriminate].
  intros X; inversion X; subst. simpl.
  apply lookup_store.
Qed.

#[global] Instance mem_file_system : FileSystem memfs := {|
  makedirs := mem_makedirs;
  open_w := mem_open_w;
  write_close := mem_write_close;
  isdir := has_dir;
  file_content := fun p d => lookup p (files d);
  makedirs_isdir := mem_makedirs_isdir;
  write_close_content := mem_write_close_content
|}.

End MemFSFacts.

Module ReadOnlyFSFacts.
Import ReadOnlyFS.

#[global] Instance read_only_file_system : FileSystem unit.
Proof.
  refine {|
    makedirs := ro_makedirs;
    open_w := ro_open_w;
    write_close := ro_write_close;
    isdir := fun _ _ => true;
    file_content := fun _ _ => None
  |}.
  - reflexivity.
  - discriminate.
Defined.

End ReadOnlyFSFacts.

(** ** Closed runs on the in-memory and the read-only file system *)

Section OnTheExamples.
#[local] Existing Instance interpreter.

(** C5.  A [file_scaffolding] that is a mapping from file names to strings
    is neither a list of records nor a mapping to records, so the claim
    asks for an error report and no exception; but the list comprehension
    calls [get] on each value without looking at it, and the
    [AttributeError] leaves [generate_software_files] with nothing
    reported, the output directory having been created.  The same string in
    a list is met by the test of the loop and skipped with a warning. *)
Theorem generate_software_files_mapping_of_strings :
  let mapping := JDict [(str "main.py", JStr (str "entry point"))] in
  let listing := JList [JStr (str "entry point")] in
  let run :=
    Program.generate_software_files
      (holding (JDict [(str "file_scaffolding", mapping)])) in
  let sibling :=
    Program.generate_software_files
      (holding (JDict [(str "file_scaffolding", listing)])) in
  fst run = Raised AttributeError
  /\ console (snd run) = []
  /\ disk (snd run) = MemFS.Mem [str "Output"] []
  /\ fst sibling = Returned tt
  /\ console (snd sibling) = [SkippingInvalidEntry (JStr (str "entry point"))].
Proof. vm_compute. repeat split. Qed.

Lemma generate_software_files_malformed_shape_witness :
  let items := [(str "software_architecture", JStr (str "layered"));
                (str "file_scaffolding", JStr (str "main.py"))] in
  let w := holding (JDict items) in
  let d := MemFS.Mem [str "Output"] [] in
  (architecture_data w = Some (JDict items)
   /\ items <> []
   /\ is_list (dict_get items (str "file_scaffolding") (JList [])) = false
   /\ is_dict (dict_get items (str "file_scaffolding") (JList [])) = false
   /\ makedirs OUTPUT_PATH (disk w) = (d, None))
  /\ Program.generate_software_files w
     = (Returned tt, printed (on_the_disk w d) [NotAList]).
Proof.
  split.
  - repeat split. discriminate.
  - apply (generate_software_files_malformed_shape
             (H := MemFSFacts.mem_file_system)
             [(str "software_architecture", JStr (str "layered"));
              (str "file_scaffolding", JStr (str "main.py"))]);
      try reflexivity. discriminate.
Defined.

Lemma output_directory_created_before_validation_witness :
  let proposal := JDict [(str "file_scaffolding", JInt 3)] in
  let w := holding proposal in
  let d := MemFS.Mem [str "Output"] [] in
  (architecture_data w = Some proposal /\ truthy proposal = true
   /\ makedirs OUTPUT_PATH (disk w) = (d, None))
  /\ isdir OUTPUT_PATH d = true
  /\ fst (Program.generate_software_files w) = Returned tt
  /\ disk (snd (Program.generate_software_files w)) = d
  /\ isdir OUTPUT_PATH (disk (snd (Program.generate_software_files w))) = true.
Proof.
  split; [repeat split|].
  destruct (output_directory_created_before_validation
              (H := MemFSFacts.mem_file_system)
              (JDict [(str "file_scaffolding", JInt 3)])
              (holding (JDict [(str "file_scaffolding", JInt 3)]))
              (MemFS.Mem [str "Output"] []) eq_refl eq_refl) as [_ Created].
  destruct (Created eq_refl) as [D After].
  split; [exact D|].
  apply (After [(str "file_scaffolding", JInt 3)]); reflexivity.
Defined.

(** C6, as stated, fails: on a disk that cannot be written, the file of the
    first entry below cannot be opened, and its name holds U+DC80, which
    stands for a byte that is no UTF-8 and which the console cannot write;
    the [PermissionError] is caught, but the [print] of the report raises
    [UnicodeEncodeError], which leaves the loop: nothing is reported, and
    the second entry is never looked at. *)
Lemma unwritable_path_report_escapes_counterexample :
  let name := 56448%N :: str ".txt" in
  let files :=
    [JDict [(str "name", JStr name); (str "content", JStr (str "x"))];
     JDict a_record] in
  let run :=
    Program.generate_files (H := ReadOnlyFSFacts.read_only_file_system)
      files (World [] [] None tt) in
  open_w (Path.join OUTPUT_PATH name) tt = (tt, Some ReadOnlyFS.denied)
  /\ fst run = Raised UnicodeEncodeError
  /\ console (snd run) = [].
Proof. vm_compute. repeat split. Qed.

Lemma folder_creation_failure_escapes_witness :
  let record := [(str "name", JStr (str "notes/today.txt"));
                 (str "content", JStr (str "y"))] in
  let d := MemFS.Mem [str "Output"] [(str "Output/notes", str "x")] in
  let w := World [FileGenerated (str "Output/notes")] [] None d in
  let e := EnvironmentError (str "FileExistsError") in
  let files :=
    JList [entry "notes" "x"; entry "notes/today.txt" "y";
           entry "readme.txt" "z"] in
  let run :=
    Program.generate_software_files
      (holding (JDict [(str "file_scaffolding", files)])) in
  (dict_get record (str "name") (JStr (str "unnamed_file.txt"))
   = JStr (str "notes/today.txt")
   /\ makedirs (folder_path_of (str "notes/today.txt")) (disk w) = (d, Some e))
  /\ Program.generate_files [JDict record; entry "readme.txt" "z"] w
     = (Raised e, on_the_disk w d)
  /\ fst run = Raised e
  /\ console (snd run) = [FileGenerated (str "Output/notes")]
  /\ MemFS.files (disk (snd run)) = [(str "Output/notes", str "x")].
Proof.
  split; [split; reflexivity|]. split; [|repeat split].
  apply (folder_creation_failure_escapes (H := MemFSFacts.mem_file_system)
           [(str "name", JStr (str "notes/today.txt"));
            (str "content", JStr (str "y"))]
           (str "notes/today.txt") [entry "readme.txt" "z"]
           (EnvironmentError (str "FileExistsError"))
           (World [FileGenerated (str "Output/notes")] [] None
              (MemFS.Mem [str "Output"] [(str "Output/notes", str "x")]))
           (MemFS.Mem [str "Output"] [(str "Output/notes", str "x")]));
    reflexivity.
Defined.

Lemma write_failure_is_caught_and_reported_witness :
  let d := [(str "name", JStr (str "docs/")); (str "content", JStr (str "x"))] in
  let rest := [JDict a_record] in
  let w := World [] [] None (MemFS.Mem [str "Output"] []) in
  let w1 := on_the_disk w (fst (makedirs (str "Output/docs") (disk w))) in
  let e := EnvironmentError (str "IsADirectoryError") in
  let files := [JDict a_record; JStr (str "oops");
                JDict [(str "name", JStr (str "b.txt"))]] in
  let batch := Program.generate_files (H := ReadOnlyFSFacts.read_only_file_system)
                 files (World [] [] None tt) in
  fst (Program.save_file_to_output (str "Output/docs") [] (JStr (str "x")) w1)
  = Returned tt
  /\ fst (Program.save_file_to_output (str "Output") [56448%N] (JStr (str "x")) w)
     = Raised UnicodeEncodeError
  /\ ((dict_get d (str "name") (JStr (str "unnamed_file.txt")) = JStr (str "docs/")
       /\ Run.on_disk (makedirs (folder_path_of (str "docs/"))) w = (Returned tt, w1)
       /\ Program.write_file
            (Path.join (folder_path_of (str "docs/")) (Path.basename (str "docs/")))
            (dict_get d (str "content") (JStr [])) w1 = (Raised e, w1)
       /\ printable
            (Path.join (folder_path_of (str "docs/")) (Path.basename (str "docs/")))
          = true)
      /\ Program.generate_files (JDict d :: rest) w
         = Program.generate_files rest
             (printed w1 [ErrorSavingFile (str "Output/docs/") e])
      /\ console (snd (Program.generate_files (JDict d :: rest) w))
         = [ErrorSavingFile (str "Output/docs/") e;
            FileGenerated (str "Output/src/a.txt")])
  /\ fst batch = Returned tt
  /\ console (snd batch)
     = [ErrorSavingFile (str "Output/src/a.txt") ReadOnlyFS.denied;
        SkippingInvalidEntry (JStr (str "oops"));
        ErrorSavingFile (str "Output/b.txt") ReadOnlyFS.denied].
Proof.
  split.
  { exact (proj1 (write_failure_is_caught_and_reported
                    (H := MemFSFacts.mem_file_system))
             (str "Output/docs") [] (JStr (str "x"))
             (on_the_disk (World [] [] None (MemFS.Mem [str "Output"] []))
                (fst (makedirs (str "Output/docs")
                        (MemFS.Mem [str "Output"] []))))). }
  split.
  { exact (proj1 (write_failure_is_caught_and_reported
                    (H := MemFSFacts.mem_file_system))
             (str "Output") [56448%N] (JStr (str "x"))
             (World [] [] None (MemFS.Mem [str "Output"] []))). }
  split; [|split; reflexivity].
  split; [repeat split|]. split; [|reflexivity].
  apply (proj2 (write_failure_is_caught_and_reported
                  (H := MemFSFacts.mem_file_system))
           [(str "name", JStr (str "docs/")); (str "content", JStr (str "x"))]
           (str "docs/") [JDict a_record]
           (EnvironmentError (str "IsADirectoryError"))
           (World [] [] None (MemFS.Mem [str "Output"] []))
           (on_the_disk (World [] [] None (MemFS.Mem [str "Output"] []))
              (fst (makedirs (str "Output/docs") (MemFS.Mem [str "Output"] []))))
           (on_the_disk (World [] [] None (MemFS.Mem [str "Output"] []))
              (fst (makedirs (str "Output/docs") (MemFS.Mem [str "Output"] [])))));
    reflexivity.
Defined.

(** C7, as stated, fails: the list below holds a plain string and a
    well-formed record, but the string is the lone surrogate U+D800, which
    [json.loads] makes of the escape [\ud800]; the [print] of the warning
    raises [UnicodeEncodeError], the loop halts, and the file of the record
    is not written. *)
Lemma unprintable_string_halts_counterexample :
  let items :=
    [(str "file_scaffolding", JList [JStr [55296%N]; JDict a_record])] in
  let run := Program.generate_software_files (holding (JDict items)) in
  fst run = Raised UnicodeEncodeError
  /\ console (snd run) = []
  /\ MemFS.files (disk (snd run)) = [].
Proof. vm_compute. repeat split. Qed.

Lemma record_written_and_string_skipped_witness :
  let items := [(str "file_scaffolding", JList [JDict a_record; JStr (str "oops")])] in
  let w := holding (JDict items) in
  let d1 := fst (makedirs OUTPUT_PATH MemFS.empty) in
  let d2 := fst (makedirs (str "Output/src") d1) in
  let d3 := fst (open_w (str "Output/src/a.txt") d2) in
  let d4 := fst (write_close (str "Output/src/a.txt") (str "hi") d3) in
  (architecture_data w = Some (JDict items) /\ items <> []
   /\ dict_get a_record (str "name") (JStr (str "unnamed_file.txt"))
      = JStr (str "src/a.txt")
   /\ dict_get a_record (str "content") (JStr []) = JStr (str "hi")
   /\ makedirs OUTPUT_PATH (disk w) = (d1, None)
   /\ makedirs (folder_path_of (str "src/a.txt")) d1 = (d2, None)
   /\ open_w (str "Output/src/a.txt") d2 = (d3, None)
   /\ write_close (str "Output/src/a.txt") (str "hi") d3 = (d4, None)
   /\ printable (str "Output/src/a.txt") = true
   /\ printable (str "oops") = true
   /\ dict_get items (str "file_scaffolding") (JList [])
      = JList [JDict a_record; JStr (str "oops")])
  /\ Program.generate_software_files w
     = (Returned tt,
        printed (on_the_disk w d4)
          [FileGenerated (str "Output/src/a.txt");
           SkippingInvalidEntry (JStr (str "oops"))])
  /\ file_content (str "Output/src/a.txt") d4 = Some (str "hi").
Proof.
  split; [repeat split; discriminate|].
  pose proof (record_written_and_string_skipped
                (H := MemFSFacts.mem_file_system)
                [(str "file_scaffolding", JList [JDict a_record; JStr (str "oops")])]
                a_record (str "src/a.txt") (str "hi") (str "oops")
                (holding (JDict [(str "file_scaffolding",
                                  JList [JDict a_record; JStr (str "oops")])]))
                (fst (makedirs OUTPUT_PATH MemFS.empty))
                (fst (makedirs (str "Output/src") (fst (makedirs OUTPUT_PATH MemFS.empty))))
                (fst (open_w (str "Output/src/a.txt")
                        (fst (makedirs (str "Output/src")
                                (fst (makedirs OUTPUT_PATH MemFS.empty))))))
                (fst (write_close (str "Output/src/a.txt") (str "hi")
                        (fst (open_w (str "Output/src/a.txt")
                                (fst (makedirs (str "Output/src")
                                        (fst (makedirs OUTPUT_PATH MemFS.empty))))))))
                eq_refl ltac:(discriminate) eq_refl eq_refl eq_refl eq_refl
                eq_refl eq_refl eq_refl eq_refl) as (First & _ & Content).
  split; [exact (First eq_refl) | exact Content].
Defined.

(** C9, as stated, fails for the name: the record below has no [name] key,
    and its file is written under the name [unnamed_file.txt], not under an
    empty name. *)
Lemma missing_name_counterexample :
  let record := [(str "content", JStr (str "hi"))] in
  let w := World [] [] None (MemFS.Mem [str "Output"] []) in
  let run := Program.generate_file (JDict record) w in
  has_key record (str "name") = false
  /\ fst run = Returned tt
  /\ console (snd run) = [FileGenerated (str "Output/unnamed_file.txt")]
  /\ MemFS.files (disk (snd run)) = [(str "Output/unnamed_file.txt", str "hi")].
Proof. vm_compute. repeat split. Qed.

Lemma missing_keys_take_defaults_witness :
  let w := World [] [] None (MemFS.Mem [str "Output"] []) in
  (has_key [(str "name", JStr (str "a.txt"))] (str "content") = false
   /\ dict_get [(str "name", JStr (str "a.txt"))] (str "name")
        (JStr (str "unnamed_file.txt")) = JStr (str "a.txt")
   /\ has_key [(str "content", JStr (str "hi"))] (str "name") = false)
  /\ Program.generate_file (JDict [(str "name", JStr (str "a.txt"))]) w
     = Run.bind (Run.on_disk (makedirs (folder_path_of (str "a.txt"))))
         (fun _ => Program.save_file_to_output (folder_path_of (str "a.txt"))
                     (Path.basename (str "a.txt")) (JStr [])) w
  /\ Program.generate_file (JDict [(str "content", JStr (str "hi"))]) w
     = Run.bind (Run.on_disk (makedirs OUTPUT_PATH))
         (fun _ => Program.save_file_to_output OUTPUT_PATH (str "unnamed_file.txt")
                     (JStr (str "hi"))) w
  /\ MemFS.files
       (disk (snd (Program.generate_file (JDict [(str "name", JStr (str "a.txt"))]) w)))
     = [(str "Output/a.txt", [])].
Proof.
  split; [repeat split|].
  split.
  - apply (proj1 (missing_keys_take_defaults (H := MemFSFacts.mem_file_system)
                    [(str "name", JStr (str "a.txt"))]
                    (World [] [] None (MemFS.Mem [str "Output"] []))));
      reflexivity.
  - split; [|reflexivity].
    apply (proj2 (missing_keys_take_defaults (H := MemFSFacts.mem_file_system)
                    [(str "content", JStr (str "hi"))]
                    (World [] [] None (MemFS.Mem [str "Output"] []))));
      reflexivity.
Defined.

(** C8, as stated, fails: the answer below is not [yes] or [y], whatever the
    case of its letters, since it starts and ends with a space; but the
    program strips the answer before it compares, the proposal is accepted
    and its file is written. *)
Lemma padded_yes_is_accepted_counterexample :
  let answer := str " YES " in
  let w := MemFS.start [str "a to-do list"; answer] in
  let run := Program.main (answering a_reply) MemFS.ascii_lower w in
  eqs (MemFS.ascii_lower answer) (str "yes") = false
  /\ eqs (MemFS.ascii_lower answer) (str "y") = false
  /\ fst run = Returned tt
  /\ console (snd run)
     = [AskDescription; Retrieved;
        Dumps (JDict [(str "file_scaffolding", JList [JDict a_record])]);
        AskAcceptance; Accepted; FileGenerated (str "Output/src/a.txt");
        AllGenerated]
  /\ MemFS.files (disk (snd run)) = [(str "Output/src/a.txt", str "hi")].
Proof. vm_compute. repeat split. Qed.

Lemma declined_run_writes_nothing_witness :
  let w := MemFS.start [str "a to-do list"; str "no"] in
  let run := Program.main (answering a_reply) MemFS.ascii_lower w in
  (stdin w = [str "a to-do list"; str "no"]
   /\ Program.accepts (MemFS.ascii_lower (strip (str "no"))) = false)
  /\ disk (snd run) = disk w
  /\ exists lines,
       console (snd run) = console w ++ lines
       /\ ((fst run = Returned tt
            /\ (last lines Accepted = NotAccepted
                \/ last lines Accepted = CouldNotRetrieve))
           \/ (exists proposal e,
                 fst run = Raised e
                 /\ line_raises (Dumps proposal) = Some e
                 /\ last lines Accepted = Retrieved)).
Proof.
  split; [repeat split|].
  apply (declined_run_writes_nothing (H := MemFSFacts.mem_file_system)
           (answering a_reply) MemFS.ascii_lower
           (str "a to-do list") (str "no") []);
    reflexivity.
Defined.

(** A fenced reply with trailing commas, from the request to the end of the
    run: strict parsing fails, the repair succeeds, and the file is
    written. *)
Example repaired_reply_is_materialized :
  let reply :=
    str "```json" ++ [10%N]
    ++ js "{'file_scaffolding': [{'name': 'src/a.txt', 'content': 'hi',},],}"
    ++ [10%N] ++ str "```" in
  let w := MemFS.start [str "a to-do list"; str "y"] in
  let run := Program.main (answering reply) MemFS.ascii_lower w in
  fst run = Returned tt
  /\ console (snd run)
     = [AskDescription; ParsingFailedFixing; Retrieved;
        Dumps (JDict [(str "file_scaffolding", JList [JDict a_record])]);
        AskAcceptance; Accepted; FileGenerated (str "Output/src/a.txt");
        AllGenerated]
  /\ MemFS.files (disk (snd run)) = [(str "Output/src/a.txt", str "hi")].
Proof. vm_compute. repeat split. Qed.

End OnTheExamples.

(** * Further properties of the program *)

(** ** Extraction and repair, for every text *)

Section EveryText.
Context {I : Interpreter}.

(** X1.  Whatever the reply, what [extract_json] returns is [None] or a
    mapping: strict parsing starts at an opening brace, and a repaired text
    that starts with an opening bracket ends with a closing brace and is
    rejected.  When it does not return, it raises the [ValueError] or the
    [RecursionError] of [json.loads], which its handlers do not catch, or
    the [UnicodeEncodeError] of a [print]. *)
Theorem extract_json_returns_mapping (text : pystr) :
  snd (extract_json text) = Returned None
  \/ (exists items, snd (extract_json text) = Returned (Some (JDict items)))
  \/ (exists e,
        snd (extract_json text) = Raised e
        /\ (e = ValueError \/ e = RecursionError \/ e = UnicodeEncodeError)).
Proof.
  pose proof (PipelineFacts.extract_json_dict_or_none text) as D.
  pose proof (PipelineFacts.extract_json_raises text) as R.
  destruct (snd (extract_json text)) as [[v|]|e].
  - right; left. specialize (D v eq_refl).
    destruct v; try discriminate D. eexists; reflexivity.
  - left; reflexivity.
  - right; right. exists e. split; [reflexivity | exact (R e eq_refl)].
Qed.

(** X2.  The repair never removes a brace or a bracket, and it hands to
    [json.loads] a text in which both kinds of braces, and both kinds of
    brackets, are as many as the more frequent of the two was in the text it
    was given. *)
Theorem repaired_text_counts (s : pystr) :
  count (ch "{") (repaired_text s)
  = Nat.max (count (ch "{") s) (count (ch "}") s)
  /\ count (ch "}") (repaired_text s)
     = Nat.max (count (ch "{") s) (count (ch "}") s)
  /\ count (ch "[") (repaired_text s)
     = Nat.max (count (ch "[") s) (count (ch "]") s)
  /\ count (ch "]") (repaired_text s)
     = Nat.max (count (ch "[") s) (count (ch "]") s).
Proof.
  unfold repaired_text. rewrite balanced_text_runs.
  rewrite !(cleaned_text_count _ s) by reflexivity.
  rewrite !count_app, !count_times.
  rewrite !(cleaned_text_count _ s) by reflexivity.
  change (eqc (ch "[") (ch "{")) with false.
  change (eqc (ch "[") (ch "}")) with false.
  change (eqc (ch "[") (ch "[")) with true.
  change (eqc (ch "[") (ch "]")) with false.
  change (eqc (ch "]") (ch "{")) with false.
  change (eqc (ch "]") (ch "}")) with false.
  change (eqc (ch "]") (ch "[")) with false.
  change (eqc (ch "]") (ch "]")) with true.
  change (eqc (ch "{") (ch "{")) with true.
  change (eqc (ch "{") (ch "}")) with false.
  change (eqc (ch "{") (ch "[")) with false.
  change (eqc (ch "{") (ch "]")) with false.
  change (eqc (ch "}") (ch "{")) with false.
  change (eqc (ch "}") (ch "}")) with true.
  change (eqc (ch "}") (ch "[")) with false.
  change (eqc (ch "}") (ch "]")) with false.
  cbv iota. repeat split; lia.
Qed.

(** X3.  A text whose first opening brace is never closed is not repaired:
    the pattern asks for a closing brace, so [extract_json] finds no block,
    although appending braces is what the repair would do.  It prints that
    no block was found and echoes the text, which ends the call with [None]
    when the console can write the text and with [UnicodeEncodeError] when it
    cannot. *)
Theorem extract_json_unclosed_brace (pre post : pystr) :
  count (ch "{") pre = 0 ->
  count (ch "}") post = 0 ->
  extract_json (pre ++ ch "{" :: post)
  = if printable (pre ++ ch "{" :: post)
    then ([NoJsonBlockFound; Text (pre ++ ch "{" :: post)], Returned None)
    else ([NoJsonBlockFound], Raised UnicodeEncodeError).
Proof.
  intros Hpre Hpost. rewrite PipelineFacts.extract_json_cases.
  unfold Re.search_braces.
  rewrite (from_first_app _ _ _ Hpre). unfold upto_last.
  rewrite from_first_absent by (rewrite count_rev; exact Hpost).
  reflexivity.
Qed.

End EveryText.

Section EveryTextExamples.
#[local] Existing Instance interpreter.

Lemma extract_json_unclosed_brace_witness :
  let pre := str "Here it is: " in
  let post := js "'a': ['x', 'y'], 'b': 1" in
  (count (ch "{") pre = 0 /\ count (ch "}") post = 0)
  /\ extract_json (pre ++ ch "{" :: post)
     = ([NoJsonBlockFound; Text (pre ++ ch "{" :: post)], Returned None)
  /\ loads (ch "{" :: post ++ [ch "}"])
     = Returned (JDict [(str "a", JList [JStr (str "x"); JStr (str "y")]);
                        (str "b", JInt 1)]).
Proof.
  split; [split; reflexivity|].
  split; [|reflexivity].
  apply (extract_json_unclosed_brace (str "Here it is: ")
           (js "'a': ['x', 'y'], 'b': 1")); reflexivity.
Defined.

End EveryTextExamples.

(** ** Where a file is written *)

Module PathFacts.

Lemma take_drop_while p (s : list N) : s = take_while p s ++ drop_while p s.
Proof.
  induction s as [|c s IH]; [reflexivity|]. simpl.
  destruct (p c); [simpl; f_equal; exact IH | reflexivity].
Qed.

Lemma take_while_all p (s : list N) : forallb p (take_while p s) = true.
Proof.
  induction s as [|c s IH]; [reflexivity|]. simpl.
  destruct (p c) eqn:E; [simpl; rewrite E; exact IH | reflexivity].
Qed.

Lemma forallb_rev p (s : list N) : forallb p (rev s) = forallb p s.
Proof.
  induction s as [|c s IH]; [reflexivity|]. simpl.
  rewrite forallb_app, IH. simpl. rewrite andb_true_r. apply andb_comm.
Qed.

Lemma head_tail p : p = Path.head p ++ Path.tail p.
Proof.
  unfold Path.head, Path.tail. rewrite <- rev_app_distr.
  rewrite <- take_drop_while. symmetry; apply rev_involutive.
Qed.

(** A base name holds no separator. *)
Lemma basename_no_sep p : forallb Path.not_sep (Path.basename p) = true.
Proof.
  unfold Path.basename, Path.tail. rewrite forallb_rev. apply take_while_all.
Qed.

Lemma basename_relative p : absolute (Path.basename p) = false.
Proof.
  pose proof (basename_no_sep p) as B. unfold absolute.
  destruct (Path.basename p) as [|c b]; [reflexivity|].
  simpl in B. apply andb_true_iff in B. destruct B as [B _].
  unfold Path.not_sep in B. apply negb_true_iff in B. exact B.
Qed.

Lemma join_relative a b :
  absolute b = false ->
  Path.join a b
  = match rev a with
    | [] => b
    | l :: _ => if eqc l Path.sep then a ++ b else a ++ Path.sep :: b
    end.
Proof. unfold Path.join, absolute. intros ->. reflexivity. Qed.


Lemma drop_while_last q (l : list N) x :
  q x = false -> exists l', drop_while q (l ++ [x]) = l' ++ [x].
Proof.
  intros Q. induction l as [|y l IH]; simpl.
  - rewrite Q. exists []; reflexivity.
  - destruct (q y); [exact IH | exists (y :: l); reflexivity].
Qed.

Lemma drop_while_some q (l : list N) x :
  forallb q l = false -> exists l', drop_while q (l ++ [x]) = l' ++ [x].
Proof.
  induction l as [|y l IH]; simpl; [discriminate|].
  destruct (q y); simpl; [exact IH | intros _; exists (y :: l); reflexivity].
Qed.

Lemma eqc_sym a b : eqc a b = eqc b a.
Proof. unfold eqc. apply N.eqb_sym. Qed.

(** The folder of a name is empty or starts as the name does. *)
Lemma dirname_first c r :
  Path.dirname (c :: r) = []
  \/ exists t, Path.dirname (c :: r) = c :: t.
Proof.
  unfold Path.dirname.
  pose proof (head_tail (c :: r)) as HT.
  destruct (Path.head (c :: r)) as [|x h]; [left; reflexivity|].
  right. inversion HT; subst x.
  destruct (forallb (eqc Path.sep) (c :: h)) eqn:A; [eexists; reflexivity|].
  unfold rstrip_by. cbn [rev].
  destruct (eqc Path.sep c) eqn:Ec.
  - cbn [forallb] in A. rewrite Ec in A. cbn [andb] in A.
    rewrite <- forallb_rev in A.
    destruct (drop_while_some (eqc Path.sep) (rev h) c A) as [l' ->].
    rewrite rev_app_distr. eexists; reflexivity.
  - destruct (drop_while_last (eqc Path.sep) (rev h) c Ec) as [l' ->].
    rewrite rev_app_distr. eexists; reflexivity.
Qed.



Lemma drop_while_first q (s : list N) l k :
  drop_while q s = l :: k -> q l = false.
Proof.
  induction s as [|c s IH]; simpl; [discriminate|].
  destruct (q c) eqn:Q; [exact IH|]. intros E; inversion E; subst; exact Q.
Qed.

(** The folder of a relative name is relative, and does not end with a
    separator. *)
Lemma dirname_relative name :
  absolute name = false ->
  Path.dirname name = []
  \/ exists c t l k,
       Path.dirname name = c :: t
       /\ eqc c Path.sep = false
       /\ rev (Path.dirname name) = l :: k
       /\ eqc l Path.sep = false.
Proof.
  intros A. destruct name as [|c r]; [left; reflexivity|].
  cbn [absolute] in A.
  destruct (dirname_first c r) as [E | [t E]]; [left; exact E|].
  right. unfold Path.dirname in *.
  destruct (Path.head (c :: r)) as [|x h] eqn:Hd; [discriminate|].
  destruct (forallb (eqc Path.sep) (x :: h)) eqn:F.
  - inversion E; subst x. cbn [forallb] in F.
    rewrite eqc_sym, A in F. discriminate.
  - unfold rstrip_by in *.
    destruct (drop_while (eqc Path.sep) (rev (x :: h))) as [|l k] eqn:D.
    + discriminate.
    + apply drop_while_first in D. exists c, t, l, k.
      split; [exact E|]. split; [exact A|].
      rewrite rev_involutive. split; [reflexivity|].
      rewrite eqc_sym. exact D.
Qed.

Lemma output_last : rev OUTPUT_PATH = ch "t" :: rev (removelast OUTPUT_PATH).
Proof. reflexivity. Qed.

(** The path a relative name is written at. *)
Lemma relative_path name :
  absolute name = false ->
  Path.join (folder_path_of name) (Path.basename name) = joined_to_output name.
Proof.
  intros A. unfold folder_path_of, joined_to_output.
  pose proof (basename_relative name) as B.
  destruct (dirname_relative name A) as [E | (c & t & l & k & E & C & R & L)].
  - rewrite E. rewrite (join_relative _ _ B). reflexivity.
  - rewrite E in *.
    assert (J : Path.join OUTPUT_PATH (c :: t) = OUTPUT_PATH ++ Path.sep :: c :: t).
    { rewrite join_relative; [reflexivity | exact C]. }
    rewrite J, (join_relative _ _ B).
    change (OUTPUT_PATH ++ Path.sep :: c :: t)
      with ((OUTPUT_PATH ++ [Path.sep]) ++ c :: t) at 1.
    rewrite rev_app_distr, R. cbn [app]. rewrite L.
    rewrite <- app_assoc. reflexivity.
Qed.


End PathFacts.

(** ** What the computations print and raise *)

Module FrameFacts.
Section WithFS.
Context {FS : Type} `{FileSystem FS} {I : Interpreter}.

Import Run Program ProgramFacts.
Local Open Scope run_scope.

Lemma prints_only_refl P (w : world FS) : prints_only P w w.
Proof. exists []. split; [symmetry; apply app_nil_r | reflexivity]. Qed.

Lemma prints_only_trans P (w1 w2 w3 : world FS) :
  prints_only P w1 w2 -> prints_only P w2 w3 -> prints_only P w1 w3.
Proof.
  intros [l1 [E1 F1]] [l2 [E2 F2]]. exists (l1 ++ l2). split.
  - rewrite E2, E1, app_assoc. reflexivity.
  - rewrite forallb_app, F1, F2. reflexivity.
Qed.

Lemma prints_only_weaken (P Q : msg -> bool) (w w' : world FS) :
  (forall l, P l = true -> Q l = true) ->
  prints_only P w w' -> prints_only Q w w'.
Proof.
  intros PQ [l [E F]]. exists l. split; [exact E|].
  apply forallb_forall. intros x X. apply PQ.
  rewrite forallb_forall in F. apply F; exact X.
Qed.

Lemma grows_refl P (w : world FS) : grows P w w.
Proof. repeat split. apply prints_only_refl. Qed.

Lemma grows_trans P (w1 w2 w3 : world FS) :
  grows P w1 w2 -> grows P w2 w3 -> grows P w1 w3.
Proof.
  intros (S1 & A1 & C1) (S2 & A2 & C2). repeat split; try congruence.
  apply (prints_only_trans P w1 w2 w3); assumption.
Qed.

Lemma grows_weaken (P Q : msg -> bool) (w w' : world FS) :
  (forall l, P l = true -> Q l = true) -> grows P w w' -> grows Q w w'.
Proof.
  intros PQ (S1 & A1 & C1). repeat split; try assumption.
  apply (prints_only_weaken P Q); assumption.
Qed.

Lemma grows_printed P (w : world FS) lines :
  forallb P lines = true -> grows P w (printed w lines).
Proof. intros F. repeat split. exists lines. split; [reflexivity | exact F]. Qed.

Lemma grows_on_the_disk P (w : world FS) d : grows P w (on_the_disk w d).
Proof.
  repeat split. exists []. split; [symmetry; apply app_nil_r | reflexivity].
Qed.

Lemma only_weaken {A} (P Q : msg -> bool) (E F : exn -> world FS -> Prop)
    (m : M FS A) :
  (forall l, P l = true -> Q l = true) -> (forall e w, E e w -> F e w) ->
  only P E m -> only Q F m.
Proof.
  intros PQ EF O w. destruct (O w) as [G R]. split.
  - apply (grows_weaken P Q); assumption.
  - intros e X. apply EF, R, X.
Qed.

Lemma only_exn {A} P (E F : exn -> world FS -> Prop) (m : M FS A) :
  only P E m -> (forall e w, E e w -> F e w) -> only P F m.
Proof. intros O EF. apply (only_weaken P P E F); auto. Qed.

Lemma only_ret {A} P E (a : A) : only P E (ret a : M FS A).
Proof. intros w. split; [apply grows_refl | discriminate]. Qed.

Lemma only_raise {A} P (E : exn -> world FS -> Prop) e :
  (forall w, E e w) -> only P E (raise e : M FS A).
Proof.
  intros X w. split; [apply grows_refl|].
  intros e' Q. inversion Q; subst; apply X.
Qed.

Lemma only_print P (E : exn -> world FS -> Prop) line :
  P line = true ->
  (forall e w, line_raises line = Some e -> E e w) ->
  only P E (print line : M FS unit).
Proof.
  intros X R w. unfold print.
  destruct (line_raises line) as [e|] eqn:L.
  - split; [apply grows_refl|]. intros e' Q. inversion Q; subst.
    apply R. reflexivity.
  - split; [|discriminate]. apply grows_printed. simpl. rewrite X. reflexivity.
Qed.

Lemma only_on_disk P op :
  only P (fun e w => exists d : FS, op d = (disk w, Some e)) (on_disk op).
Proof.
  intros w. unfold on_disk. destruct (op (disk w)) as [d [e|]] eqn:O; simpl.
  - split; [apply grows_on_the_disk|].
    intros e' Q. inversion Q; subst. exists (disk w). exact O.
  - split; [apply grows_on_the_disk | discriminate].
Qed.

Lemma only_bind {A B} P E (m : M FS A) (k : A -> M FS B) :
  only P E m -> (forall a, only P E (k a)) -> only P E (bind m k).
Proof.
  intros Om Ok w. unfold bind. destruct (Om w) as [G R].
  destruct (m w) as [[a|e] w']; simpl in *.
  - destruct (Ok a w') as [G' R']. split; [|exact R'].
    apply (grows_trans P w w'); assumption.
  - split; [exact G|]. intros e' Q. apply R. inversion Q. reflexivity.
Qed.

Lemma only_try_except {A} P (E F : exn -> world FS -> Prop)
    (m : M FS A) (h : exn -> M FS A) :
  only P E m -> (forall e, only P F (h e)) -> only P F (try_except m h).
Proof.
  intros Om Oh w. unfold try_except. destruct (Om w) as [G R].
  destruct (m w) as [[a|e] w']; simpl in *.
  - split; [exact G | discriminate].
  - destruct (Oh e w') as [G' R']. split; [|exact R'].
    apply (grows_trans P w w'); assumption.
Qed.

Lemma only_get P v k default :
  only P (fun e _ => e = AttributeError) (get v k default : M FS json).
Proof.
  destruct v; try (apply only_raise; reflexivity). apply only_ret.
Qed.

Lemma only_write_file P path content :
  only P (fun _ _ => True) (write_file path content).
Proof.
  unfold write_file. apply only_bind.
  - apply (only_exn P _ _ _ (only_on_disk P _)). intros e w _; exact Logic.I.
  - intros _. destruct content; try (apply only_raise; intros w; exact Logic.I).
    apply (only_exn P _ _ _ (only_on_disk P _)). intros e w _; exact Logic.I.
Qed.

(** [save_file_to_output] raises what the [print] of its handler raises,
    and nothing else. *)
Lemma only_save_file_to_output folder filename content :
  only file_line (fun e _ => raised_by_print e)
    (save_file_to_output folder filename content).
Proof.
  unfold save_file_to_output.
  apply (only_try_except file_line (fun _ _ => True)).
  - apply only_bind; [apply only_write_file|].
    intros _. apply only_print; [reflexivity|]. intros e w _; exact Logic.I.
  - intros e. apply only_print; [reflexivity|].
    intros e' w L. eexists. split; [|exact L]. reflexivity.
Qed.

Lemma only_makedirs P path :
  output_folder path ->
  only P (fun e w => raised_by_makedirs e w) (on_disk (makedirs path)).
Proof.
  intros O. apply (only_exn P _ _ _ (only_on_disk P _)).
  intros e w [d X]. exists path, d. split; [exact O | exact X].
Qed.

Lemma only_generate_file file : only file_line leaves_the_loop (generate_file file).
Proof.
  assert (Skip : only file_line leaves_the_loop
                   (print (SkippingInvalidEntry file) : M FS unit)).
  { apply only_print; [reflexivity|].
    intros e w L. right; left. eexists. split; [|exact L]. reflexivity. }
  destruct file; try exact Skip.
  destruct (dict_get items (str "name") (JStr (str "unnamed_file.txt")))
    eqn:N;
    try (unfold generate_file; rewrite N; apply only_raise;
         intros w; left; reflexivity).
  assert (O : only file_line leaves_the_loop
                (on_disk (makedirs (folder_path_of s)) ;;
                 save_file_to_output (folder_path_of s) (Path.basename s)
                   (dict_get items (str "content") (JStr [])))).
  { apply only_bind.
    - apply (only_exn _ _ _ _ (only_makedirs _ _
                                 (or_intror (ex_intro _ s eq_refl)))).
      intros e w X. right; right. exact X.
    - intros _. apply (only_exn _ _ _ _ (only_save_file_to_output _ _ _)).
      intros e w X. right; left. exact X. }
  intros w. rewrite (generate_file_record items s w N). apply O.
Qed.

Lemma only_generate_files files :
  only file_line leaves_the_loop (generate_files files).
Proof.
  induction files as [|file files IH]; [apply only_ret|].
  cbn [generate_files]. apply only_bind; [apply only_generate_file|].
  intros _. exact IH.
Qed.

(** The list comprehension leaves the world as it is; it gives the records of
    the items when every value is a mapping, and raises otherwise. *)
Lemma records_of_mapping_run items (w : world FS) :
  records_of_mapping items w
  = (if forallb is_dict (map snd items)
     then Returned (map record_of items)
     else Raised AttributeError, w).
Proof.
  induction items as [|[key value] items IH]; [reflexivity|].
  cbn [records_of_mapping map forallb snd].
  destruct value; try reflexivity.
  cbn [is_dict andb]. unfold get. unfold bind at 1, ret at 1.
  unfold bind at 1. rewrite IH.
  destruct (forallb is_dict (map snd items)); reflexivity.
Qed.

Lemma only_records_of_mapping P items :
  only P (fun e _ => e = AttributeError)
    (records_of_mapping items : M FS (list json)).
Proof.
  intros w. rewrite records_of_mapping_run. split; [apply grows_refl|].
  simpl. destruct (forallb is_dict (map snd items)); [discriminate|].
  intros e Q. inversion Q. reflexivity.
Qed.

Lemma scaffolding_file_line l : file_line l = true -> scaffolding_line l = true.
Proof. destruct l; simpl; congruence. Qed.

Lemma materialization_scaffolding_line l :
  scaffolding_line l = true -> materialization_line l = true.
Proof. destruct l; simpl; congruence. Qed.

Lemma run_scaffolding_line l : scaffolding_line l = true -> run_line l = true.
Proof. destruct l; simpl; congruence. Qed.

(** Materialization, for a proposal that passes the guard. *)
Lemma generate_software_files_guarded proposal (w : world FS) :
  architecture_data w = Some proposal ->
  truthy proposal = true ->
  grows scaffolding_line w (snd (generate_software_files w))
  /\ forall e, fst (generate_software_files w) = Raised e ->
       leaves_materialization e (snd (generate_software_files w)).
Proof.
  intros A T.
  pose (body :=
       (on_disk (makedirs OUTPUT_PATH) ;;
        file_scaffolding <- get proposal (str "file_scaffolding") (JList []) ;;
        file_scaffolding <-
          match file_scaffolding with
          | JDict items =>
              records <- records_of_mapping items ;; ret (JList records)
          | _ => ret file_scaffolding
          end ;;
        match file_scaffolding with
        | JList files => generate_files files
        | _ => print NotAList
        end) : M FS unit).
  assert (E : generate_software_files w = body w).
  { unfold generate_software_files, bind at 1, get_architecture_data.
    rewrite A, T. reflexivity. }
  rewrite E. clear E A. revert w.
  change (only scaffolding_line leaves_materialization body).
  unfold body.
  apply only_bind.
  { apply (only_exn _ _ _ _ (only_makedirs _ _ (or_introl eq_refl))).
    intros e w X. right; right; right. exact X. }
  intros _. apply only_bind.
  { apply (only_exn _ _ _ _ (only_get _ _ _ _)).
    intros e w ->. left. reflexivity. }
  intros file_scaffolding. apply only_bind.
  { assert (R : forall v : json,
               only scaffolding_line leaves_materialization (ret v : M FS json))
      by (intros v; apply only_ret).
    destruct file_scaffolding; try apply R.
    apply only_bind; [|intros records; apply R].
    apply (only_exn _ _ _ _ (only_records_of_mapping _ _)).
    intros e w ->. left. reflexivity. }
  intros v.
  destruct v;
    try (apply only_print; [reflexivity | intros e w L; discriminate L]).
  apply (only_weaken file_line scaffolding_line leaves_the_loop _ _
           scaffolding_file_line); [intros e w X; right; exact X|].
  apply only_generate_files.
Qed.

Lemma generate_software_files_unguarded (w : world FS) :
  match architecture_data w with
  | Some proposal => truthy proposal = false
  | None => True
  end ->
  generate_software_files w = (Returned tt, printed w [NoArchitectureData]).
Proof.
  intros A. unfold generate_software_files, bind, get_architecture_data.
  destruct (architecture_data w) as [proposal|]; [|reflexivity].
  rewrite A. reflexivity.
Qed.

End WithFS.
End FrameFacts.


(** ** Where the files go *)

Section Paths.
Context {FS : Type} `{FileSystem FS} {I : Interpreter}.

Import Run Program ProgramFacts.
Local Open Scope run_scope.

(** X4.  For a record whose name does not start with a separator, the path
    that is opened, written and reported is a text that starts with the
    output directory: the output directory, a separator, the folder of the
    name, a separator and its base name; the folder that is created is the
    output directory or the folder of the name after it.  Nothing is done
    about a component [..] of the name, which stays in the path: the text
    starts with [Output/], the file may still lie elsewhere. *)
Theorem relative_name_is_joined_to_output
    (record : list (pystr * json)) (name : pystr) (w : world FS) :
  dict_get record (str "name") (JStr (str "unnamed_file.txt")) = JStr name ->
  absolute name = false ->
  folder_path_of name
  = match Path.dirname name with
    | [] => OUTPUT_PATH
    | folder => OUTPUT_PATH ++ Path.sep :: folder
    end
  /\ generate_file (JDict record) w
     = (on_disk (makedirs (folder_path_of name)) ;;
        try_except
          (write_file (joined_to_output name)
             (dict_get record (str "content") (JStr [])) ;;
           print (FileGenerated (joined_to_output name)))
          (fun e => print (ErrorSavingFile (joined_to_output name) e))) w.
Proof.
  intros N A. split.
  - unfold folder_path_of.
    destruct (PathFacts.dirname_relative name A)
      as [E | (c & t & l & k & E & C & _)]; rewrite E; [reflexivity|].
    apply PathFacts.join_relative. exact C.
  - rewrite (generate_file_record record name w N).
    unfold save_file_to_output. rewrite (PathFacts.relative_path name A).
    reflexivity.
Qed.


End Paths.

(** ** Materialization, for every proposal *)

Section Scaffolding.
Context {FS : Type} `{FileSystem FS} {I : Interpreter}.

Import Run Program ProgramFacts FrameFacts.
Local Open Scope run_scope.

(** X6.  Whatever the module variable holds and whatever the file system
    does, [generate_software_files] reads nothing from the keyboard, leaves
    the module variable as it is, and prints only lines of the
    materialization.  It returns, or it raises an [AttributeError], a
    [TypeError], the exception that the [print] of a line about an entry
    raised, or the exception that [os.makedirs] raised for the output
    directory or for the folder of a name, in which case the disk is the one
    that call left. *)
Theorem materialization_prints_and_raises (w : world FS) :
  grows materialization_line w (snd (generate_software_files w))
  /\ (fst (generate_software_files w) = Returned tt
      \/ exists e,
           fst (generate_software_files w) = Raised e
           /\ (e = AttributeError
               \/ e = TypeError
               \/ (exists line,
                     file_line line = true /\ line_raises line = Some e)
               \/ (exists p d,
                     (p = OUTPUT_PATH \/ exists name, p = folder_path_of name)
                     /\ makedirs p d
                        = (disk (snd (generate_software_files w)), Some e)))).
Proof.
  assert (G : grows materialization_line w (snd (generate_software_files w))
              /\ forall e, fst (generate_software_files w) = Raised e ->
                   leaves_materialization e
                     (snd (generate_software_files w))).
  { destruct (architecture_data w) as [proposal|] eqn:A.
    - destruct (truthy proposal) eqn:T.
      + destruct (generate_software_files_guarded proposal w A T) as [G R].
        split; [|exact R].
        apply (grows_weaken scaffolding_line materialization_line);
          [exact materialization_scaffolding_line | exact G].
      + rewrite generate_software_files_unguarded by (rewrite A; exact T).
        split; [apply grows_printed; reflexivity | discriminate].
    - rewrite generate_software_files_unguarded by (rewrite A; exact Logic.I).
      split; [apply grows_printed; reflexivity | discriminate]. }
  destruct G as [G R]. split; [exact G|].
  destruct (fst (generate_software_files w)) as [[]|e].
  - left; reflexivity.
  - right. exists e. split; [reflexivity|].
    destruct (R e eq_refl) as [X | [X | [X | X]]].
    + left; exact X.
    + right; left; exact X.
    + right; right; left; exact X.
    + right; right; right; exact X.
Qed.

(** X7.  A [file_scaffolding] that is a mapping is read as the list of the
    records of its items, in their order, each with the key as its name and
    the [content] of the value as its content, when every value is a mapping;
    when one value is not, an [AttributeError] leaves
    [generate_software_files] before any file is looked at, the output
    directory having been created. *)
Theorem mapping_is_read_as_records
    (items mapping : list (pystr * json)) (w : world FS) (d : FS) :
  architecture_data w = Some (JDict items) ->
  items <> [] ->
  dict_get items (str "file_scaffolding") (JList []) = JDict mapping ->
  makedirs OUTPUT_PATH (disk w) = (d, None) ->
  generate_software_files w
  = if forallb is_dict (map snd mapping)
    then generate_files (map record_of mapping) (on_the_disk w d)
    else (Raised AttributeError, on_the_disk w d).
Proof.
  intros A N F M. rewrite (generate_software_files_start items w d A N M), F.
  unfold bind at 1. unfold bind at 1. rewrite records_of_mapping_run.
  destruct (forallb is_dict (map snd mapping)); reflexivity.
Qed.

(** X8.  A proposal without the key [file_scaffolding], or with an empty list
    or an empty mapping under it, creates the output directory and nothing
    else: [generate_software_files] returns without a line printed. *)
Theorem empty_scaffolding_creates_only_the_directory
    (items : list (pystr * json)) (w : world FS) (d : FS) :
  architecture_data w = Some (JDict items) ->
  items <> [] ->
  has_key items (str "file_scaffolding") = false
  \/ dict_get items (str "file_scaffolding") (JList []) = JList []
  \/ dict_get items (str "file_scaffolding") (JList []) = JDict [] ->
  makedirs OUTPUT_PATH (disk w) = (d, None) ->
  generate_software_files w = (Returned tt, on_the_disk w d).
Proof.
  intros A N F M. rewrite (generate_software_files_start items w d A N M).
  destruct F as [F | [F | F]].
  - rewrite (dict_get_missing items _ _ F). reflexivity.
  - rewrite F. reflexivity.
  - rewrite F. reflexivity.
Qed.

Lemma skipped_entries (skipped rest : list json) (w : world FS) :
  forallb (fun file => negb (is_dict file)) skipped = true ->
  forallb warned skipped = true ->
  generate_files (skipped ++ rest) w
  = generate_files rest (printed w (map SkippingInvalidEntry skipped)).
Proof.
  revert w. induction skipped as [|file skipped IH]; intros w F W.
  - simpl. rewrite printed_nil. reflexivity.
  - cbn [forallb] in F, W. apply andb_true_iff in F, W.
    destruct F as [Ff Fr], W as [Wf Wr].
    cbn [app generate_files map]. unfold bind at 1.
    assert (G : generate_file file w
                = (Returned tt, printed w [SkippingInvalidEntry file])).
    { unfold warned in Wf.
      destruct (line_raises (SkippingInvalidEntry file)) eqn:L;
        [discriminate|].
      destruct file; try discriminate Ff; apply (print_run _ _ L). }
    rewrite G, (IH _ Fr Wr), printed_printed. reflexivity.
Qed.

(** X9.  A list whose entries are all something else than a mapping is
    skipped entry by entry.  When every warning can be built and printed,
    there is one warning for each entry, in the order of the list, and
    nothing is created, opened or written.  When the warning for an entry
    raises, the exception leaves the loop after the warnings for the entries
    before it, and the entries after it are not looked at. *)
Theorem entries_that_are_no_records_are_skipped
    (files : list json) (w : world FS) :
  forallb (fun file => negb (is_dict file)) files = true ->
  (forallb warned files = true ->
   generate_files files w
   = (Returned tt, printed w (map SkippingInvalidEntry files)))
  /\ (forall skipped bad rest e,
        files = skipped ++ bad :: rest ->
        forallb warned skipped = true ->
        line_raises (SkippingInvalidEntry bad) = Some e ->
        generate_files files w
        = (Raised e, printed w (map SkippingInvalidEntry skipped))).
Proof.
  intros F. split.
  - intros W. rewrite <- (app_nil_r files) at 1.
    rewrite (skipped_entries files [] w F W). reflexivity.
  - intros skipped bad rest e -> W L.
    rewrite forallb_app in F. apply andb_true_iff in F. destruct F as [Fs Fb].
    cbn [forallb] in Fb. apply andb_true_iff in Fb. destruct Fb as [Fb _].
    rewrite (skipped_entries skipped (bad :: rest) w Fs W).
    cbn [generate_files]. unfold bind.
    assert (G : forall w0 : world FS, generate_file bad w0 = (Raised e, w0))
      by (intros w0; destruct bad; try discriminate Fb;
          apply (print_raised _ _ _ L)).
    rewrite G. reflexivity.
Qed.

(** X10.  A record whose name is not a string stops the loop: the
    [TypeError] of [os.path.dirname] leaves it at once, with nothing created
    or printed for the record, and the entries after it are never looked
    at. *)
Theorem name_that_is_no_string_stops_the_loop
    (record : list (pystr * json)) (rest : list json) (w : world FS) :
  named (JDict record) = false ->
  generate_files (JDict record :: rest) w = (Raised TypeError, w).
Proof.
  intros N. cbn [generate_files]. unfold bind, generate_file.
  unfold named in N.
  destruct (dict_get record (str "name") (JStr (str "unnamed_file.txt")));
    try reflexivity.
  discriminate N.
Qed.

(** X11.  A content that is not a string costs the file what it held: the
    file is opened for writing first, and when that succeeds the [TypeError]
    of [write] is caught and reported with the path, the disk being the one
    the opening left; when the console cannot write the path, the [print]
    of the report raises [UnicodeEncodeError] instead, on the same disk. *)
Theorem content_that_is_no_string_is_reported
    (folder filename : pystr) (content : json) (w : world FS) (d : FS) :
  is_str content = false ->
  open_w (Path.join folder filename) (disk w) = (d, None) ->
  save_file_to_output folder filename content w
  = if printable (Path.join folder filename)
    then (Returned tt,
          printed (on_the_disk w d)
            [ErrorSavingFile (Path.join folder filename) TypeError])
    else (Raised UnicodeEncodeError, on_the_disk w d).
Proof.
  intros C O.
  apply (save_file_to_output_failed folder filename content w (on_the_disk w d)).
  unfold write_file, bind. rewrite (on_disk_ok _ w d O).
  destruct content; try reflexivity.
  discriminate C.
Qed.

End Scaffolding.

(** ** The run, for every keyboard and every server *)

Section Runs.
Context {FS : Type} `{FileSystem FS} {I : Interpreter}.
Variable post : pystr -> http_reply.
Variable lower : pystr -> pystr.

Import Run Program ProgramFacts FrameFacts RunFacts.
Local Open Scope run_scope.

(** X12.  The request never raises: whatever the server does,
    [ask_llama_for_architecture] returns, having printed lines of the request
    and changed nothing else, and what it returns is [None] or a mapping. *)
Theorem request_returns_none_or_a_mapping (description : pystr) (w : world FS) :
  exists data out,
    ask_llama_for_architecture post description w
    = (Returned data, printed w out)
    /\ forallb request_line out = true
    /\ (data = None \/ exists items, data = Some (JDict items)).
Proof. apply ask_llama_for_architecture_shape. Qed.




(** The run after the proposal was accepted. *)
Lemma accepted_run (w2 : world FS) items :
  architecture_data w2 = Some (JDict items) ->
  items <> [] ->
  exists o w3,
    (generate_software_files ;; print AllGenerated) w2 = (o, w3)
    /\ stdin w3 = stdin w2
    /\ architecture_data w3 = architecture_data w2
    /\ prints_only run_line w2 w3
    /\ (o = Returned tt
        \/ exists e, o = Raised e /\ leaves_materialization e w3).
Proof.
  intros A N.
  assert (T : truthy (JDict items) = true)
    by (destruct items; [congruence | reflexivity]).
  destruct (generate_software_files_guarded (JDict items) w2 A T)
    as [(S & A' & P) R].
  apply (prints_only_weaken scaffolding_line run_line _ _ run_scaffolding_line)
    in P.
  unfold bind.
  destruct (generate_software_files w2) as [[[]|e] w3]; simpl in *.
  - exists (Returned tt), (printed w3 [AllGenerated]).
    split; [reflexivity|]. split; [exact S|]. split; [exact A'|].
    split; [|left; reflexivity].
    apply (prints_only_trans run_line w2 w3); [exact P|].
    exists [AllGenerated]. split; reflexivity.
  - exists (Raised e), w3.
    split; [reflexivity|]. split; [exact S|]. split; [exact A'|].
    split; [exact P|]. right. exists e. split; [reflexivity|].
    apply R. reflexivity.
Qed.

(** X13.  The disk changes only after consent: a run that leaves the disk
    another than it found had a description and an answer on the keyboard,
    and the answer, stripped and lowered, was [yes] or [y]. *)
Theorem disk_changes_only_after_consent (w : world FS) :
  disk (snd (main post lower w)) <> disk w ->
  exists description answer rest,
    stdin w = description :: answer :: rest
    /\ accepts (lower (strip answer)) = true.
Proof.
  intros D.
  destruct (main_run post lower w)
    as [S E | description rest data out S Ask L Dt E
        | description rest items out e S Ask L N Dm E
        | description items out S Ask L N Dm E
        | description answer rest items out S Ask L N Dm Acc E
        | description answer rest items out S Ask L N Dm Acc E];
    try (rewrite E in D; exfalso; apply D; reflexivity).
  exists description, answer, rest. split; assumption.
Qed.


(** X15.  Once a description was read, the module variable holds at the end
    of the run what the request returned, which is [None] or a mapping:
    [main] assigns it once and nothing after the request changes it. *)
Theorem run_stores_what_the_request_returned
    (description : pystr) (rest : list pystr) (w : world FS) :
  stdin w = description :: rest ->
  exists data out,
    ask_llama_for_architecture post description (described w rest)
    = (Returned data, printed (described w rest) out)
    /\ architecture_data (snd (main post lower w)) = data
    /\ (data = None \/ exists items, data = Some (JDict items)).
Proof.
  intros K.
  destruct (main_run post lower w)
    as [S E | description' rest' data out S Ask L Dt E
        | description' rest' items out e S Ask L N Dm E
        | description' items out S Ask L N Dm E
        | description' answer rest' items out S Ask L N Dm Acc E
        | description' answer rest' items out S Ask L N Dm Acc E];
    rewrite K in S; try discriminate; inversion S; subst.
  - exists data, out. rewrite E. split; [exact Ask|]. split; [reflexivity|].
    destruct Dt as [-> | ->]; [left | right; eexists]; reflexivity.
  - exists (Some (JDict items)), out. rewrite E.
    split; [exact Ask|]. split; [reflexivity|]. right; eexists; reflexivity.
  - exists (Some (JDict items)), out. rewrite E.
    split; [exact Ask|]. split; [reflexivity|]. right; eexists; reflexivity.
  - exists (Some (JDict items)), out. rewrite E.
    split; [exact Ask|]. split; [reflexivity|]. right; eexists; reflexivity.
  - exists (Some (JDict items)), out. rewrite E.
    split; [exact Ask|]. split; [|right; eexists; reflexivity].
    match goal with
    | |- context [bind generate_software_files _ ?w2] =>
        destruct (accepted_run w2 items eq_refl N)
          as (o & w3 & -> & _ & A & _)
    end.
    exact A.
Qed.


(** X17.  When the request fails, by an exception of [requests.post] or by a
    status that is not 200, the run prints the failure, says that no proposal
    could be retrieved and returns: the confirmation prompt is not shown, the
    rest of the keyboard is not read, and the disk is as it was.  For a
    status that is not 200 the failure is the status and the text of the
    response, or, when the console cannot write that text, the status and
    the [UnicodeEncodeError] that the handler caught. *)
Theorem failed_request_ends_the_run
    (description : pystr) (rest : list pystr) (w : world FS) :
  stdin w = description :: rest ->
  (forall e,
     post description = PostFailed e ->
     main post lower w
     = (Returned tt,
        World (console w ++ [AskDescription; ErrorRaised e; CouldNotRetrieve])
              rest None (disk w)))
  /\ (forall status body text,
        post description = Response status body text ->
        status <> 200%Z ->
        main post lower w
        = (Returned tt,
           World (console w
                    ++ [AskDescription; HttpError status;
                        if printable text then Text text
                        else ErrorRaised UnicodeEncodeError;
                        CouldNotRetrieve])
                 rest None (disk w))).
Proof.
  intros S.
  assert (Start : forall out,
            ask_llama_for_architecture post description (described w rest)
            = (Returned None, printed (described w rest) out) ->
            main post lower w
            = (Returned tt,
               World (console w ++ AskDescription :: out ++ [CouldNotRetrieve])
                     rest None (disk w))).
  { intros out Ask.
    rewrite (main_described post lower description rest None out w S Ask).
    rewrite print_run by reflexivity. unfold printed.
    cbn [console stdin architecture_data disk].
    rewrite <- app_assoc. reflexivity. }
  split.
  - intros e P. apply (Start [ErrorRaised e]).
    unfold ask_llama_for_architecture, try_except. rewrite P.
    unfold raise. cbv beta iota. unfold bind, ret.
    rewrite print_run by reflexivity. reflexivity.
  - intros status body text P N.
    assert (Ask : ask_llama_for_architecture post description (described w rest)
                  = (Returned None,
                     printed (described w rest)
                       [HttpError status;
                        if printable text then Text text
                        else ErrorRaised UnicodeEncodeError])).
    { unfold ask_llama_for_architecture, try_except. rewrite P.
      apply Z.eqb_neq in N. rewrite N.
      unfold bind at 1. rewrite print_run by reflexivity.
      unfold bind at 1.
      rewrite (print_path Text text _ (fun p => eq_refl)).
      destruct (printable text).
      - unfold ret. rewrite printed_printed. reflexivity.
      - unfold bind, ret. rewrite print_run by reflexivity.
        rewrite printed_printed. reflexivity. }
    exact (Start _ Ask).
Qed.

(** X18.  A reply that holds the empty mapping is a reply without a
    proposal: the run stores the empty mapping, says that no proposal could
    be retrieved and returns, the confirmation prompt not shown. *)
Theorem empty_proposal_ends_the_run
    (description reply : pystr) (rest : list pystr)
    (body : list (pystr * json)) (text : pystr) (out : list msg)
    (w : world FS) :
  stdin w = description :: rest ->
  post description = Response 200 (Returned (JDict body)) text ->
  dict_get body (str "response") (JStr []) = JStr reply ->
  extract_json reply = (out, Returned (Some (JDict []))) ->
  main post lower w
  = (Returned tt,
     World (console w ++ AskDescription :: out ++ [CouldNotRetrieve])
           rest (Some (JDict [])) (disk w)).
Proof.
  intros S P R X.
  assert (Ask : ask_llama_for_architecture post description (described w rest)
                = (Returned (Some (JDict [])), printed (described w rest) out)).
  { unfold ask_llama_for_architecture, try_except. rewrite P.
    cbn [Z.eqb Pos.eqb]. unfold get, bind at 1, ret at 1. rewrite R.
    rewrite emit_run, X. reflexivity. }
  rewrite (main_described post lower description rest _ out w S Ask).
  cbn [truthy negb]. rewrite print_run by reflexivity. unfold printed.
  cbn [console stdin architecture_data disk].
  rewrite <- app_assoc. reflexivity.
Qed.

End Runs.

(** ** Brackets that do not balance *)

Module BracketFacts.
Import SuffixFacts PipelineFacts.

(** After the balancing, a braced text whose brackets did not balance goes
    from a brace to a bracket, or from a bracket to a brace. *)
Lemma balanced_text_brackets s :
  braced s ->
  count (ch "[") s <> count (ch "]") s ->
  (exists r, balanced_text s = ch "{" :: r
             /\ last (balanced_text s) (ch "{") = ch "]")
  \/ (exists r, balanced_text s = ch "[" :: r
                /\ last (balanced_text s) (ch "{") = ch "}").
Proof.
  intros [[r ->] L] U. unfold balanced_text.
  set (s := ch "{" :: r) in *.
  set (ob := count (ch "{") s). set (cb := count (ch "}") s).
  set (ok := count (ch "[") s) in *. set (ck := count (ch "]") s) in *.
  set (s1 := if cb <? ob then s ++ times (ch "}") (ob - cb) else s).
  set (s2 := if ob <? cb then times (ch "{") (cb - ob) ++ s1 else s1).
  assert (B1 : (exists r1, s1 = ch "{" :: r1) /\ last s1 (ch "{") = ch "}").
  { unfold s1. destruct (cb <? ob) eqn:E.
    - split; [eexists; reflexivity|].
      apply last_times_after. apply Nat.ltb_lt in E. lia.
    - split; [eexists; reflexivity | exact L]. }
  assert (B2 : (exists r2, s2 = ch "{" :: r2) /\ last s2 (ch "{") = ch "}").
  { destruct B1 as [[r1 E1] L1]. unfold s2. destruct (ob <? cb) eqn:E.
    - apply Nat.ltb_lt in E. split.
      + destruct (cb - ob) as [|k] eqn:D; [lia|]. eexists; reflexivity.
      + rewrite last_times_before; [exact L1 | rewrite E1; discriminate].
    - split; [exists r1; exact E1 | exact L1]. }
  destruct B2 as [[r2 E2] L2].
  destruct (ck <? ok) eqn:E3; destruct (ok <? ck) eqn:E4.
  - apply Nat.ltb_lt in E3, E4. lia.
  - left. apply Nat.ltb_lt in E3. rewrite E2. eexists. split; [reflexivity|].
    change (ch "{" :: r2 ++ times (ch "]") (ok - ck))
      with ((ch "{" :: r2) ++ times (ch "]") (ok - ck)).
    apply last_times_after. lia.
  - right. apply Nat.ltb_lt in E4.
    destruct (ck - ok) as [|k] eqn:D; [lia|].
    eexists. split; [reflexivity|].
    rewrite last_times_before; [exact L2 | rewrite E2; discriminate].
  - apply Nat.ltb_ge in E3, E4. lia.
Qed.

Lemma repaired_text_brackets {I : Interpreter} s v :
  braced s ->
  count (ch "[") s <> count (ch "]") s ->
  loads (repaired_text s) <> Returned v.
Proof.
  intros B U. unfold repaired_text.
  assert (U' : count (ch "[") (cleaned_text s) <> count (ch "]") (cleaned_text s)).
  { rewrite !TextFacts.cleaned_text_count by reflexivity. exact U. }
  destruct (balanced_text_brackets _ (cleaned_text_braced s B) U')
    as [[r [E L]] | [r [E L]]]; rewrite E in *.
  - apply (loads_brace_to_bracket r (ch "{") v L).
  - apply (loads_bracket_to_brace r (ch "{") v L).
Qed.

End BracketFacts.

(** X19.  The balancing of the brackets never mends a reply.  When the text
    between the first opening and the last closing brace is rejected by
    [json.loads] and holds more brackets of one kind than of the other, the
    repaired text goes from a brace to a bracket or from a bracket to a
    brace, and [json.loads] does not return for it: it raises.  On a
    [JSONDecodeError], [extract_json] reports that the text could not be
    fixed and returns [None], or ends with the [UnicodeEncodeError] of the
    [print] of the repaired text; on another exception it ends with that
    exception. *)
Theorem unbalanced_brackets_are_never_repaired {I : Interpreter}
    (text json_text : pystr) :
  Re.search_braces text = Some json_text ->
  loads json_text = Raised JSONDecodeError ->
  count (ch "[") json_text <> count (ch "]") json_text ->
  exists e,
    loads (repaired_text json_text) = Raised e
    /\ extract_json text
       = match e with
         | JSONDecodeError =>
             if printable (repaired_text json_text)
             then ([ParsingFailedFixing; CouldNotBeFixed;
                    Text (repaired_text json_text)], Returned None)
             else ([ParsingFailedFixing; CouldNotBeFixed],
                   Raised UnicodeEncodeError)
         | _ => ([ParsingFailedFixing], Raised e)
         end.
Proof.
  intros S P U.
  pose proof (fun v => BracketFacts.repaired_text_brackets json_text v
                (PipelineFacts.search_braces_braced text json_text S) U) as R.
  destruct (loads (repaired_text json_text)) as [v|e] eqn:L;
    [exfalso; exact (R v eq_refl)|].
  exists e. split; [reflexivity|].
  rewrite PipelineFacts.extract_json_cases, S, P.
  rewrite PipelineFacts.fix_json_structure_cases, L.
  destruct e; try reflexivity.
  destruct (printable (repaired_text json_text)); reflexivity.
Qed.

(** ** The further properties on the in-memory file system *)

Section FurtherExamples.
#[local] Existing Instance interpreter.

Lemma relative_name_is_joined_to_output_witness :
  let name := str "src//a.txt" in
  let record := [(str "name", JStr name); (str "content", JStr (str "hi"))] in
  let up := str "../../etc/up.txt" in
  let w := MemFS.start [] in
  (dict_get record (str "name") (JStr (str "unnamed_file.txt")) = JStr name
   /\ absolute name = false /\ absolute up = false)
  /\ joined_to_output name = str "Output/src/a.txt"
  /\ folder_path_of name = str "Output/src"
  /\ Program.generate_file (JDict record) w
     = Run.bind (Run.on_disk (makedirs (folder_path_of name)))
         (fun _ =>
            Run.try_except
              (Run.bind (Program.write_file (joined_to_output name) (JStr (str "hi")))
                 (fun _ => Run.print (FileGenerated (joined_to_output name))))
              (fun e => Run.print (ErrorSavingFile (joined_to_output name) e))) w
  /\ MemFS.files (disk (snd (Program.generate_file (JDict record) w)))
     = [(str "Output/src/a.txt", str "hi")]
  /\ joined_to_output up = str "Output/../../etc/up.txt"
  /\ folder_path_of up = str "Output/../../etc"
  /\ console (snd (Program.generate_file (JDict [(str "name", JStr up)]) w))
     = [FileGenerated (str "Output/../../etc/up.txt")].
Proof.
  split; [repeat split|]. split; [reflexivity|].
  split; [reflexivity|]. split.
  - apply (proj2 (relative_name_is_joined_to_output
                    (H := MemFSFacts.mem_file_system)
                    [(str "name", JStr (str "src//a.txt"));
                     (str "content", JStr (str "hi"))]
                    (str "src//a.txt") (MemFS.start []) eq_refl eq_refl)).
  - split; [reflexivity|]. split; [reflexivity|].
    split; [|reflexivity].
    exact (proj1 (relative_name_is_joined_to_output
                    (H := MemFSFacts.mem_file_system)
                    [(str "name", JStr (str "../../etc/up.txt"))]
                    (str "../../etc/up.txt") (MemFS.start [])
                    eq_refl eq_refl)).
Defined.


Lemma mapping_is_read_as_records_witness :
  let mapping := [(str "a/b.txt", JDict [(str "content", JStr (str "hi"))])] in
  let items := [(str "file_scaffolding", JDict mapping)] in
  let w := holding (JDict items) in
  let d := MemFS.Mem [str "Output"] [] in
  (architecture_data w = Some (JDict items)
   /\ items <> []
   /\ dict_get items (str "file_scaffolding") (JList []) = JDict mapping
   /\ makedirs OUTPUT_PATH (disk w) = (d, None))
  /\ Program.generate_software_files w
     = (if forallb is_dict (map snd mapping)
        then Program.generate_files (map record_of mapping) (on_the_disk w d)
        else (Raised AttributeError, on_the_disk w d))
  /\ Program.generate_software_files w
     = (Returned tt,
        World [FileGenerated (str "Output/a/b.txt")] []
              (Some (JDict items))
              (MemFS.Mem [str "Output"; str "Output/a"; str "Output"]
                         [(str "Output/a/b.txt", str "hi")])).
Proof.
  split; [repeat split; discriminate|]. split; [|reflexivity].
  apply (mapping_is_read_as_records (H := MemFSFacts.mem_file_system)
           [(str "file_scaffolding",
             JDict [(str "a/b.txt", JDict [(str "content", JStr (str "hi"))])])]
           [(str "a/b.txt", JDict [(str "content", JStr (str "hi"))])]
           (holding
              (JDict
                 [(str "file_scaffolding",
                   JDict [(str "a/b.txt",
                           JDict [(str "content", JStr (str "hi"))])])]))
           (MemFS.Mem [str "Output"] []));
    [reflexivity | discriminate | reflexivity | reflexivity].
Defined.

Lemma empty_scaffolding_creates_only_the_directory_witness :
  let items := [(str "software_architecture", JStr (str "layered"))] in
  let w := holding (JDict items) in
  let d := MemFS.Mem [str "Output"] [] in
  (architecture_data w = Some (JDict items)
   /\ items <> []
   /\ has_key items (str "file_scaffolding") = false
   /\ makedirs OUTPUT_PATH (disk w) = (d, None))
  /\ Program.generate_software_files w = (Returned tt, on_the_disk w d).
Proof.
  split; [repeat split; discriminate|].
  apply (empty_scaffolding_creates_only_the_directory
           (H := MemFSFacts.mem_file_system)
           [(str "software_architecture", JStr (str "layered"))]
           (holding (JDict [(str "software_architecture", JStr (str "layered"))]))
           (MemFS.Mem [str "Output"] []));
    [reflexivity | discriminate | left; reflexivity | reflexivity].
Defined.

Lemma entries_that_are_no_records_are_skipped_witness :
  let files := [JStr (str "main.py"); JInt 3; JNull; JList []] in
  let broken := [JStr (str "main.py"); JStr [55296%N]; JInt 3] in
  let w := MemFS.start [] in
  (forallb (fun file => negb (is_dict file)) files = true
   /\ forallb warned files = true
   /\ forallb (fun file => negb (is_dict file)) broken = true
   /\ broken = [JStr (str "main.py")] ++ JStr [55296%N] :: [JInt 3]
   /\ forallb warned [JStr (str "main.py")] = true
   /\ line_raises (SkippingInvalidEntry (JStr [55296%N]))
      = Some UnicodeEncodeError)
  /\ Program.generate_files files w
     = (Returned tt, printed w (map SkippingInvalidEntry files))
  /\ Program.generate_files broken w
     = (Raised UnicodeEncodeError,
        printed w [SkippingInvalidEntry (JStr (str "main.py"))]).
Proof.
  split; [repeat split|]. split.
  - apply (proj1 (entries_that_are_no_records_are_skipped
                    (H := MemFSFacts.mem_file_system)
                    [JStr (str "main.py"); JInt 3; JNull; JList []]
                    (MemFS.start []) eq_refl)).
    reflexivity.
  - apply (proj2 (entries_that_are_no_records_are_skipped
                    (H := MemFSFacts.mem_file_system)
                    [JStr (str "main.py"); JStr [55296%N]; JInt 3]
                    (MemFS.start []) eq_refl)
             [JStr (str "main.py")] (JStr [55296%N]) [JInt 3]
             UnicodeEncodeError); reflexivity.
Defined.

Lemma name_that_is_no_string_stops_the_loop_witness :
  let record := [(str "name", JInt 5); (str "content", JStr (str "hi"))] in
  let w := MemFS.start [] in
  named (JDict record) = false
  /\ Program.generate_files [JDict record; JDict a_record] w
     = (Raised TypeError, w).
Proof.
  split; [reflexivity|].
  apply (name_that_is_no_string_stops_the_loop
           (H := MemFSFacts.mem_file_system)
           [(str "name", JInt 5); (str "content", JStr (str "hi"))]
           [JDict a_record] (MemFS.start [])).
  reflexivity.
Defined.

Lemma content_that_is_no_string_is_reported_witness :
  let before := MemFS.Mem [str "Output"] [(str "Output/a.txt", str "old")] in
  let after := MemFS.Mem [str "Output"] [(str "Output/a.txt", [])] in
  let w := World [] [] None before in
  (is_str (JInt 1) = false
   /\ open_w (Path.join (str "Output") (str "a.txt")) (disk w) = (after, None))
  /\ Program.save_file_to_output (str "Output") (str "a.txt") (JInt 1) w
     = (Returned tt,
        printed (on_the_disk w after)
          [ErrorSavingFile (Path.join (str "Output") (str "a.txt")) TypeError]).
Proof.
  split; [split; reflexivity|].
  exact (content_that_is_no_string_is_reported
           (H := MemFSFacts.mem_file_system)
           (str "Output") (str "a.txt") (JInt 1)
           (World [] [] None
              (MemFS.Mem [str "Output"] [(str "Output/a.txt", str "old")]))
           (MemFS.Mem [str "Output"] [(str "Output/a.txt", [])])
           eq_refl eq_refl).
Defined.

Lemma disk_changes_only_after_consent_witness :
  let w := MemFS.start [str "a to-do list"; str " Yes "] in
  let run := Program.main (answering a_reply) MemFS.ascii_lower w in
  disk (snd run) <> disk w
  /\ exists description answer rest,
       stdin w = description :: answer :: rest
       /\ Program.accepts (MemFS.ascii_lower (strip answer)) = true.
Proof.
  assert (D : disk (snd (Program.main (H := MemFSFacts.mem_file_system)
                           (answering a_reply) MemFS.ascii_lower
                           (MemFS.start [str "a to-do list"; str " Yes "])))
              <> disk (MemFS.start [str "a to-do list"; str " Yes "]))
    by (vm_compute; discriminate).
  split; [exact D|].
  apply (disk_changes_only_after_consent (H := MemFSFacts.mem_file_system)
           (answering a_reply) MemFS.ascii_lower
           (MemFS.start [str "a to-do list"; str " Yes "]) D).
Defined.

Lemma run_stores_what_the_request_returned_witness :
  let w := MemFS.start [str "a to-do list"; str "no"] in
  let run := Program.main (answering a_reply) MemFS.ascii_lower w in
  stdin w = [str "a to-do list"; str "no"]
  /\ exists data out,
       Program.ask_llama_for_architecture (answering a_reply)
         (str "a to-do list") (described w [str "no"])
       = (Returned data, printed (described w [str "no"]) out)
       /\ architecture_data (snd run) = data
       /\ (data = None \/ exists items, data = Some (JDict items)).
Proof.
  split; [reflexivity|].
  apply (run_stores_what_the_request_returned
           (H := MemFSFacts.mem_file_system)
           (answering a_reply) MemFS.ascii_lower
           (str "a to-do list") [str "no"]
           (MemFS.start [str "a to-do list"; str "no"]) eq_refl).
Defined.


Lemma failed_request_ends_the_run_witness :
  let w := MemFS.start [str "a to-do list"; str "yes"] in
  let unreachable (_ : pystr) :=
    PostFailed (EnvironmentError (str "ConnectionError")) in
  let overloaded (_ : pystr) :=
    Response 503 (Raised (EnvironmentError (str "JSONDecodeError")))
      (str "busy") in
  stdin w = [str "a to-do list"; str "yes"]
  /\ Program.main unreachable MemFS.ascii_lower w
     = (Returned tt,
        World [AskDescription;
               ErrorRaised (EnvironmentError (str "ConnectionError"));
               CouldNotRetrieve]
              [str "yes"] None MemFS.empty)
  /\ Program.main overloaded MemFS.ascii_lower w
     = (Returned tt,
        World [AskDescription; HttpError 503; Text (str "busy");
               CouldNotRetrieve]
              [str "yes"] None MemFS.empty).
Proof.
  split; [reflexivity|]. split.
  - apply (proj1 (failed_request_ends_the_run
                    (H := MemFSFacts.mem_file_system)
                    (fun _ => PostFailed (EnvironmentError (str "ConnectionError")))
                    MemFS.ascii_lower (str "a to-do list") [str "yes"]
                    (MemFS.start [str "a to-do list"; str "yes"]) eq_refl)
                 (EnvironmentError (str "ConnectionError")) eq_refl).
  - apply (proj2 (failed_request_ends_the_run
                    (H := MemFSFacts.mem_file_system)
                    (fun _ =>
                       Response 503
                         (Raised (EnvironmentError (str "JSONDecodeError")))
                         (str "busy"))
                    MemFS.ascii_lower (str "a to-do list") [str "yes"]
                    (MemFS.start [str "a to-do list"; str "yes"]) eq_refl)
                 503%Z (Raised (EnvironmentError (str "JSONDecodeError")))
                 (str "busy") eq_refl).
    discriminate.
Defined.

Lemma empty_proposal_ends_the_run_witness :
  let w := MemFS.start [str "a to-do list"; str "yes"] in
  (stdin w = [str "a to-do list"; str "yes"]
   /\ answering (str "{}") (str "a to-do list")
      = Response 200 (Returned (JDict [(str "response", JStr (str "{}"))])) []
   /\ dict_get [(str "response", JStr (str "{}"))] (str "response") (JStr [])
      = JStr (str "{}")
   /\ extract_json (str "{}") = ([], Returned (Some (JDict []))))
  /\ Program.main (answering (str "{}")) MemFS.ascii_lower w
     = (Returned tt,
        World [AskDescription; CouldNotRetrieve] [str "yes"]
              (Some (JDict [])) MemFS.empty).
Proof.
  split; [repeat split|].
  apply (empty_proposal_ends_the_run (H := MemFSFacts.mem_file_system)
           (answering (str "{}")) MemFS.ascii_lower
           (str "a to-do list") (str "{}") [str "yes"]
           [(str "response", JStr (str "{}"))] [] []
           (MemFS.start [str "a to-do list"; str "yes"]));
    reflexivity.
Defined.

Lemma unbalanced_brackets_are_never_repaired_witness :
  let text := js "Here it is: {'files': ['a.py', 'b.py'}" in
  let json_text := js "{'files': ['a.py', 'b.py'}" in
  (Re.search_braces text = Some json_text
   /\ loads json_text = Raised JSONDecodeError
   /\ count (ch "[") json_text <> count (ch "]") json_text)
  /\ repaired_text json_text = js "{'files': ['a.py', 'b.py'}]"
  /\ extract_json text
     = ([ParsingFailedFixing; CouldNotBeFixed; Text (repaired_text json_text)],
        Returned None)
  /\ exists e,
       loads (repaired_text json_text) = Raised e
       /\ extract_json text
          = match e with
            | JSONDecodeError =>
                if printable (repaired_text json_text)
                then ([ParsingFailedFixing; CouldNotBeFixed;
                       Text (repaired_text json_text)], Returned None)
                else ([ParsingFailedFixing; CouldNotBeFixed],
                      Raised UnicodeEncodeError)
            | _ => ([ParsingFailedFixing], Raised e)
            end.
Proof.
  assert (U : count (ch "[") (js "{'files': ['a.py', 'b.py'}")
              <> count (ch "]") (js "{'files': ['a.py', 'b.py'}"))
    by (vm_compute; discriminate).
  split; [repeat split; exact U|]. split; [reflexivity|].
  split; [reflexivity|].
  apply (unbalanced_brackets_are_never_repaired (I := interpreter)
           (js "Here it is: {'files': ['a.py', 'b.py'}")
           (js "{'files': ['a.py', 'b.py'}") eq_refl eq_refl U).
Defined.

End FurtherExamples.
